(** * pyccl.base.ccl_object: locking, cached representations, equality

    A shallow embedding of [pyccl/base/ccl_object.py].  Python objects live
    in a store indexed by their address ([id(obj)]); the attributes of an
    instance are its [__dict__]; the few class attributes the module rewrites
    at run time ([__repr__] and [_repr]) are kept per class in the store as
    well.  Functions that the module receives from its users (constructors,
    update methods, functions handed to [unlock_instance]) are store
    transformers that either return a value or raise. *)

From Stdlib Require Import ZArith Ascii String List Bool Lia.
From Stdlib Require Import DecimalString HexadecimalString.
From Stdlib Require Import HexadecimalPos HexadecimalN.
From stdpp Require Import base gmap strings list.

Local Open Scope Z_scope.

(** ** Python values, exceptions and results *)

Inductive exn :=
  | AttributeError
  | NameError
  | IndexError
  | KeyError
  | TypeError
  | NotImplementedError
  | RecursionError.

Inductive outcome (A : Type) :=
  | Return (a : A)
  | Raise (e : exn).
Arguments Return {A} a.
Arguments Raise {A} e.

(** Addresses are what [id] returns. *)
Abbreviation addr := Z.

(** Class objects are named by their qualified name. *)
Abbreviation class_id := string.

Inductive value :=
  | VNone
  | VBool (b : bool)
  | VInt (z : Z)
  | VStr (s : string)
  | VRef (r : addr).

(** ** [ObjectLock] *)

Module ObjectLock.

Record t := mk { _locked : bool; _lock_id : option Z }.

(** The class-level defaults [_locked = False], [_lock_id = None] are what
    a fresh [ObjectLock()] reads. *)
Definition new : t := mk false None.

Definition locked (self : t) : bool := _locked self.

Definition active (self : t) : bool :=
  match _lock_id self with Some _ => true | None => false end.

Definition lock (self : t) : t := mk true None.

Definition unlock (self : t) (manager_id : option Z) : t :=
  mk false (match manager_id with
            | Some i => Some i
            | None => _lock_id self
            end).

End ObjectLock.

(** ** Instances, classes and the store *)

Record ccl_object := Instance {
  i_class : class_id;
  _object_lock : ObjectLock.t;
  i_dict : gmap string value
}.

(** The function objects that can sit in a class's [__repr__] entry, inside
    the [cached_property] stored as its [_repr] entry, or in the registry of
    [FancyRepr].  A [__repr__] written by a user is a function of the
    instance (its address and its state) that returns a string or raises. *)
Inductive repr_fun :=
  | object_repr_f                    (* object.__repr__ *)
  | ccl_repr_f                       (* CCLObject.__ccl_repr__ *)
  | default_repr_f                   (* the body of CCLObject._repr *)
  | autorepr_f                       (* CCLAutoreprObject.__repr__ *)
  | user_repr_f (f : addr -> ccl_object -> outcome string).

(** [vars(cls)], restricted to the entries this module reads or writes, and
    the tail of [cls.__mro__] (the class itself comes first and is left
    out). *)
Record class_obj := ClassObj {
  c_bases : list class_id;
  c___repr__ : option repr_fun;
  c__repr : option repr_fun;
  c___repr_attrs__ : option (list string);
  c___eq_attrs__ : option (list string)
}.

Record world := World {
  classes : gmap class_id class_obj;
  heap : gmap addr ccl_object;
  (* FancyRepr._enabled and FancyRepr._classes; the dictionary keeps the
     order in which classes were added. *)
  fancy_enabled : bool;
  fancy_classes : list (class_id * repr_fun)
}.

Definition set_heap (w : world) (h : gmap addr ccl_object) : world :=
  World (classes w) h (fancy_enabled w) (fancy_classes w).

Definition set_classes (w : world) (cs : gmap class_id class_obj) : world :=
  World cs (heap w) (fancy_enabled w) (fancy_classes w).

Definition set_lock (x : ccl_object) (l : ObjectLock.t) : ccl_object :=
  Instance (i_class x) l (i_dict x).

Definition set_dict (x : ccl_object) (d : gmap string value) : ccl_object :=
  Instance (i_class x) (_object_lock x) d.

(** Replace the state of the instance at [r]. *)
Definition store (w : world) (r : addr) (x : ccl_object) : world :=
  set_heap w (<[r := x]> (heap w)).

(** Attribute lookup on a class: its own [vars], then the rest of the MRO. *)
Fixpoint first_some {A B} (f : A -> option B) (l : list A) : option B :=
  match l with
  | [] => None
  | a :: l' => match f a with Some b => Some b | None => first_some f l' end
  end.

Definition class_getattr {A} (sel : class_obj -> option A) (w : world)
    (c : class_id) : option A :=
  match classes w !! c with
  | None => None
  | Some co =>
      match sel co with
      | Some a => Some a
      | None => first_some (fun b => classes w !! b ≫= sel) (c_bases co)
      end
  end.

(** [isinstance(v, CCLObject)]: every object in the store is an instance of
    a subclass of [CCLObject]; numbers, strings and the like are not. *)
Definition isinstance_CCLObject (w : world) (v : value) : bool :=
  match v with
  | VRef r => match heap w !! r with Some _ => true | None => false end
  | _ => false
  end.

(** ** [UnlockInstance] *)

Module UnlockInstance.

(** [object_lock] aliases the lock of the instance: it is the address of
    the instance whose [_object_lock] the manager reads and writes.  [id]
    is [id(self)], the address of the manager itself.  The [RLock] made by
    the constructor belongs to the manager; a single thread acquires and
    releases it without any effect on the store (the interleaving of
    several threads is modelled in [Threads] below). *)
Record t := mk {
  instance : value;
  mutate : bool;
  id : Z;
  check_instance : bool;
  object_lock : option addr
}.

Definition __init__ (self_id : Z) (w : world) (inst : value) (mut : bool) : t :=
  let chk := isinstance_CCLObject w inst in
  mk inst mut self_id chk
     (if chk then match inst with VRef r => Some r | _ => None end else None).

(** The lock that [self.object_lock] denotes in [w]. *)
Definition the_lock (self : t) (w : world) : option (addr * ccl_object) :=
  match object_lock self with
  | Some r => match heap w !! r with Some x => Some (r, x) | None => None end
  | None => None
  end.

Definition __enter__ (self : t) (w : world) : world :=
  if negb (check_instance self) then w
  else
    match the_lock self w with
    | None => w
    | Some (r, x) =>
        if ObjectLock.active (_object_lock x) then w
        else store w r (set_lock x (ObjectLock.unlock (_object_lock x) (Some (id self))))
    end.

(** [delattr(_repr); delattr(_hash)] inside one [try]: the first missing
    attribute raises [AttributeError] and ends the block. *)
Definition reset_repr (d : gmap string value) : gmap string value :=
  match d !! "_repr" with
  | None => d
  | Some _ => delete "_hash" (delete "_repr" d)
  end.

Definition __exit__ (self : t) (w : world) : world :=
  if negb (check_instance self) then w
  else
    match the_lock self w with
    | None => w
    | Some (r, x) =>
        if negb (bool_decide (Some (id self) = ObjectLock._lock_id (_object_lock x)))
        then w
        else
          let x1 := if mutate self then set_dict x (reset_repr (i_dict x)) else x in
          store w r (set_lock x1 (ObjectLock.lock (_object_lock x1)))
    end.

(** [with self: body].  [__exit__] returns [None], so an exception raised
    by the body propagates after the exit code has run. *)
Definition with_ {A} (self : t) (body : world -> outcome A * world)
    (w : world) : outcome A * world :=
  let w1 := __enter__ self w in
  let '(res, w2) := body w1 in
  (res, __exit__ self w2).

End UnlockInstance.

(** ** Functions, signatures and argument binding *)

(** [inspect.Signature.bind], for signatures made of positional-or-keyword
    and keyword-only parameters with or without defaults: positional
    arguments fill the leading parameters, keywords name the remaining ones,
    a parameter without default must receive a value, and
    [BoundArguments.arguments] lists, in signature order, the parameters that
    received one (defaults are not filled in). *)
Inductive param_kind := POSITIONAL_OR_KEYWORD | KEYWORD_ONLY.

Record param := Param {
  p_name : string;
  p_kind : param_kind;
  p_default : option value
}.

Fixpoint assoc {A} (k : string) (l : list (string * A)) : option A :=
  match l with
  | [] => None
  | (k', a) :: l' => if String.eqb k k' then Some a else assoc k l'
  end.

Definition is_some {A} (o : option A) : bool :=
  match o with Some _ => true | None => false end.

Fixpoint bind_args (ps : list param) (args : list value)
    : outcome (list (string * value)) :=
  match args, ps with
  | [], _ => Return []
  | a :: args', p :: ps' =>
      match p_kind p with
      | POSITIONAL_OR_KEYWORD =>
          match bind_args ps' args' with
          | Return b => Return ((p_name p, a) :: b)
          | Raise e => Raise e
          end
      | KEYWORD_ONLY => Raise TypeError
      end
  | _ :: _, [] => Raise TypeError
  end.

Fixpoint bind_kwargs (ps : list param) (bound kwargs : list (string * value))
    : outcome (list (string * value)) :=
  match kwargs with
  | [] => Return bound
  | (k, v) :: kwargs' =>
      if is_some (assoc k (map (fun p => (p_name p, p)) ps))
         && negb (is_some (assoc k bound))
      then bind_kwargs ps (bound ++ [(k, v)]) kwargs'
      else Raise TypeError
  end.

Definition arguments (ps : list param) (bound : list (string * value))
    : list (string * value) :=
  omap (fun p => (fun v => (p_name p, v)) <$> assoc (p_name p) bound) ps.

Definition bind (ps : list param) (args : list value)
    (kwargs : list (string * value)) : outcome (list (string * value)) :=
  match bind_args ps args with
  | Raise e => Raise e
  | Return b1 =>
      match bind_kwargs ps b1 kwargs with
      | Raise e => Raise e
      | Return b2 =>
          if forallb (fun p => is_some (p_default p) || is_some (assoc (p_name p) b2)) ps
          then Return (arguments ps b2)
          else Raise TypeError
      end
  end.

(** A Python function: its name, the parameters of its [def], the
    [__signature__] attribute when one has been stored on it, and what a
    call does. *)
Record pyfunc := PyFunc {
  f___name__ : string;
  f_params : list param;
  f___signature__ : option (list param);
  f_call : list value -> list (string * value) -> world -> outcome value * world
}.

(** [inspect.signature(func)] returns a stored [__signature__] when there
    is one. *)
Definition signature (func : pyfunc) : list param :=
  match f___signature__ func with
  | Some s => s
  | None => f_params func
  end.

(** ** [UnlockInstance.unlock_instance] and [UnlockInstance.Funlock] *)

(** [id(self)] of the manager that a call of the wrapper creates.  The
    number is only ever compared with the [_lock_id] kept in the lock of the
    target.  A manager that has stored its id there is still alive while a
    nested call runs, so the address of the new manager differs from it;
    the model picks such a number. *)
Definition manager_id (w : world) (inst : value) : Z :=
  match inst with
  | VRef r =>
      match heap w !! r with
      | Some x =>
          match ObjectLock._lock_id (_object_lock x) with
          | Some i => i + 1
          | None => 0
          end
      | None => 0
      end
  | _ => 0
  end.

Definition wrapper (func : pyfunc) (name : string) (mutate : bool)
    (args : list value) (kwargs : list (string * value)) (w : world)
    : outcome value * world :=
  match bind (signature func) args kwargs with
  | Raise e => (Raise e, w)
  | Return bound =>
      match assoc name bound with
      | None => (Raise KeyError, w)
      | Some inst =>
          UnlockInstance.with_
            (UnlockInstance.__init__ (manager_id w inst) w inst mutate)
            (f_call func args kwargs) w
      end
  end.

(** The decorator applied to a function.  [functools.wraps] copies the
    function's [__dict__], and with it the stored [__signature__], onto the
    wrapper. *)
Definition unlock_instance_func (func : pyfunc) (name : option string)
    (mutate : bool) : outcome pyfunc :=
  let sig := signature func in
  let func := PyFunc (f___name__ func) (f_params func) (Some sig) (f_call func) in
  let names := map p_name sig in
  match (match name with
         | None => match names with n :: _ => Return n | [] => Raise IndexError end
         | Some n => Return n
         end) with
  | Raise e => Raise e
  | Return name =>
      if negb (bool_decide (name ∈ names)) then Raise NameError
      else Return (PyFunc (f___name__ func) (f_params func) (Some sig)
                          (wrapper func name mutate))
  end.

(** [unlock_instance(func=None, *, name=None, mutate=True)]: without a
    function it returns the decorator ([functools.partial]). *)
Definition unlock_instance (func : option pyfunc) (name : option string)
    (mutate : bool) : (pyfunc -> outcome pyfunc) + outcome pyfunc :=
  match func with
  | None => inl (fun f => unlock_instance_func f name mutate)
  | Some f => inr (unlock_instance_func f name mutate)
  end.

(** [Funlock(cl, name, mutate)] acts on the entry [vars(cl).get(name)]; the
    result is the new entry. *)
Definition Funlock (entry : option pyfunc) (mutate : bool)
    : outcome (option pyfunc) :=
  match entry with
  | None => Return None
  | Some func =>
      match unlock_instance None None mutate with
      | inl decorator =>
          match decorator func with
          | Return newfunc => Return (Some newfunc)
          | Raise e => Raise e
          end
      | inr res =>
          match res with
          | Return newfunc => Return (Some newfunc)
          | Raise e => Raise e
          end
      end
  end.

(** The name that [unlock_instance] looks for: the one given, else the
    first parameter. *)
Definition target_name (func : pyfunc) (name : option string) : option string :=
  match name with
  | Some n => Some n
  | None => head (map p_name (signature func))
  end.

(** ** [FancyRepr] *)

Module FancyRepr.

Fixpoint dict_set {A} (k : class_id) (a : A) (l : list (class_id * A))
    : list (class_id * A) :=
  match l with
  | [] => [(k, a)]
  | (k', a') :: l' =>
      if String.eqb k k' then (k, a) :: l' else (k', a') :: dict_set k a l'
  end.

Definition set___repr__ (m : repr_fun) (co : class_obj) : class_obj :=
  ClassObj (c_bases co) (Some m) (c__repr co)
           (c___repr_attrs__ co) (c___eq_attrs__ co).

Definition set__repr (m : repr_fun) (co : class_obj) : class_obj :=
  ClassObj (c_bases co) (c___repr__ co) (Some m)
           (c___repr_attrs__ co) (c___eq_attrs__ co).

Definition set_registry (w : world) (en : bool)
    (l : list (class_id * repr_fun)) : world :=
  World (classes w) (heap w) en l.

(** [cl.__repr__], as attribute lookup finds it; [object.__repr__] ends
    every MRO. *)
Definition get___repr__ (w : world) (cl : class_id) : repr_fun :=
  match class_getattr c___repr__ w cl with
  | Some m => m
  | None => object_repr_f
  end.

Definition add (cl : class_id) (w : world) : world :=
  set_registry w (fancy_enabled w)
               (dict_set cl (get___repr__ w cl) (fancy_classes w)).

(** [cl._repr = cached_property(method)], then
    [cl.__repr__ = cl.__ccl_repr__]. *)
Definition bind_and_replace (cl : class_id) (method : repr_fun) (w : world)
    : world :=
  set_classes w
    (alter (fun co => set___repr__ ccl_repr_f (set__repr method co)) cl (classes w)).

Definition enable (w : world) : world :=
  let w' := fold_left (fun w0 '(cl, method) => bind_and_replace cl method w0)
                      (fancy_classes w) w in
  set_registry w' true (fancy_classes w').

Definition disable (w : world) : world :=
  let w' := fold_left
              (fun w0 cl => set_classes w0 (alter (set___repr__ object_repr_f) cl (classes w0)))
              (map fst (fancy_classes w)) w in
  set_registry w' false (fancy_classes w').

End FancyRepr.

(** One iteration of the loops of [enable] and [disable]. *)
Definition enable_step (w0 : world) (p : class_id * repr_fun) : world :=
  let '(cl, method) := p in FancyRepr.bind_and_replace cl method w0.

Definition disable_step (w0 : world) (cl : class_id) : world :=
  set_classes w0 (alter (FancyRepr.set___repr__ object_repr_f) cl (classes w0)).

(** What [FancyRepr] never writes: the bases and the attribute lists. *)
Definition shape (co : class_obj)
    : list class_id * option (list string) * option (list string) :=
  (c_bases co, c___repr_attrs__ co, c___eq_attrs__ co).

Definition same_shape (cs1 cs2 : gmap class_id class_obj) : Prop :=
  forall c, shape <$> cs1 !! c = shape <$> cs2 !! c.

(** The class [c] takes its representation from the registered class
    [cl]: [cl] is [c] itself, or the classes that come before [cl] in the MRO
    of [c] are not registered and have neither a [__repr__] nor a [_repr] of
    their own. *)
Definition inherits_repr_from (w : world) (c cl : class_id) : Prop :=
  exists co pre post,
    classes w !! c = Some co
    /\ c :: c_bases co = pre ++ cl :: post
    /\ Forall (fun b => ~ In b (map fst (fancy_classes w))
                        /\ classes w !! b ≫= c___repr__ = None
                        /\ classes w !! b ≫= c__repr = None) pre.

(** ** [CCLObject] *)

(** [CCLObject.__new__]: a fresh object at address [r] with its own
    [ObjectLock]. *)
Definition __new__ (cls : class_id) (r : addr) (w : world) : world :=
  store w r (Instance cls ObjectLock.new ∅).

(** [CCLObject.__setattr__]. *)
Definition __setattr__ (w : world) (r : addr) (name : string) (v : value)
    : outcome unit * world :=
  match heap w !! r with
  | None => (Raise AttributeError, w)
  | Some x =>
      if ObjectLock.locked (_object_lock x) then (Raise AttributeError, w)
      else (Return tt, store w r (set_dict x (<[name := v]> (i_dict x))))
  end.

(** [CCLObject.update_parameters]. *)
Definition update_parameters : pyfunc :=
  PyFunc "update_parameters" [Param "self" POSITIONAL_OR_KEYWORD None] None
         (fun _ _ w => (Raise NotImplementedError, w)).

(** Calling the class: [__new__], then [cls.__init__] as attribute
    lookup finds it ([None] when only [object.__init__] is found), then the
    new object is returned. *)
Definition construct (cls : class_id) (init : option pyfunc) (r : addr)
    (args : list value) (kwargs : list (string * value)) (w : world)
    : outcome value * world :=
  let w1 := __new__ cls r w in
  match init with
  | None => (Return (VRef r), w1)
  | Some f =>
      match f_call f (VRef r :: args) kwargs w1 with
      | (Return _, w2) => (Return (VRef r), w2)
      | (Raise e, w2) => (Raise e, w2)
      end
  end.

(** [CCLObject.__init_subclass__].  [body_init] and [body_update] are the
    entries [__init__] and [update_parameters] of the class body, when it has
    them; the result holds the entries [__init__] and [update_parameters] of
    [vars(cls)] afterwards.  The signature stored in step 1 and the
    [_fancy_repr] descriptor are read by nothing in this module and are left
    out. *)
Definition __init_subclass__ (cls : class_id)
    (body_init body_update : option pyfunc) (w : world)
    : outcome (option pyfunc * option pyfunc) * world :=
  let w1 :=
    match classes w !! cls ≫= c___repr__ with
    | Some m => FancyRepr.bind_and_replace cls m (FancyRepr.add cls w)
    | None => w
    end in
  match Funlock body_init false with
  | Raise e => (Raise e, w1)
  | Return init =>
      match Funlock body_update true with
      | Raise e => (Raise e, w1)
      | Return upd => (Return (init, upd), w1)
      end
  end.

(** The [class] statement: the class object is created from its body and
    its bases, then [__init_subclass__] runs. *)
Definition define_class (cls : class_id) (bases : list class_id)
    (body_repr : option repr_fun) (repr_attrs eq_attrs : option (list string))
    (body_init body_update : option pyfunc) (w : world)
    : outcome (option pyfunc * option pyfunc) * world :=
  __init_subclass__ cls body_init body_update
    (set_classes w (<[cls := ClassObj bases body_repr None repr_attrs eq_attrs]> (classes w))).

(** The store after the module has been imported: [CCLObject] with
    [__repr__ = __ccl_repr__] and the cached property [_repr], and
    [CCLAutoreprObject] defined on top of it. *)
Definition world_CCLObject : world :=
  World {[ "CCLObject" := ClassObj [] (Some ccl_repr_f) (Some default_repr_f) None None ]}
        ∅ true [].

Definition world0 : world :=
  snd (define_class "CCLAutoreprObject" ["CCLObject"] (Some autorepr_f)
                    None None None None world_CCLObject).

(** ** Representations, hashes and equality *)

(** [object.__repr__]: the qualified name of the class and the address. *)
Definition object___repr__ (r : addr) (x : ccl_object) : string :=
  "<" +:+ i_class x +:+ " object at 0x"
      +:+ NilZero.string_of_uint (N.to_hex_uint (Z.to_N r)) +:+ ">".

Definition newline : string := String (Ascii.ascii_of_nat 10) EmptyString.

(** Write the attribute [k] of the object at [r] straight into its
    [__dict__], the way [cached_property] does. *)
Definition dict_write (w : world) (r : addr) (k : string) (v : value) : world :=
  match heap w !! r with
  | Some x => store w r (set_dict x (<[k := v]> (i_dict x)))
  | None => w
  end.

(** [operator.attrgetter(attr)]: [attr] may be a dotted path.  Attributes
    are read from the [__dict__] of instances. *)
Fixpoint split_dots (acc s : string) : list string :=
  match s with
  | EmptyString => [acc]
  | String c s' =>
      if Ascii.eqb c "."%char then acc :: split_dots EmptyString s'
      else split_dots (acc +:+ String c EmptyString) s'
  end.

Definition getattr (w : world) (v : value) (name : string) : outcome value :=
  match v with
  | VRef r =>
      match heap w !! r ≫= (fun x => i_dict x !! name) with
      | Some a => Return a
      | None => Raise AttributeError
      end
  | _ => Raise AttributeError
  end.

Fixpoint getattr_path (w : world) (v : value) (path : list string)
    : outcome value :=
  match path with
  | [] => Return v
  | n :: rest =>
      match getattr w v n with
      | Return a => getattr_path w a rest
      | Raise e => Raise e
      end
  end.

Definition attrgetter (attr : string) (w : world) (v : value) : outcome value :=
  getattr_path w v (split_dots EmptyString attr).

(** [type(v)] for the values that have a class in the store. *)
Definition class_of (w : world) (v : value) : option class_id :=
  match v with
  | VRef r => i_class <$> heap w !! r
  | _ => None
  end.

(** [==] between values that are not instances. *)
Definition scalar_eq (v1 v2 : value) : bool :=
  match v1, v2 with
  | VNone, VNone => true
  | VBool a, VBool b => Bool.eqb a b
  | VInt a, VInt b => Z.eqb a b
  | VBool a, VInt b | VInt b, VBool a => Z.eqb (if a then 1 else 0) b
  | VStr a, VStr b => String.eqb a b
  | _, _ => false
  end.

Section Builtins.

(** The builtin [hash] on strings and the builtin [repr] on the values of
    attributes are Python's, not this module's. *)
Variable str_hash : string -> Z.
Variable value_repr : value -> string.

(** Modelled from the spec: [build_string_from_attrs] of
    [pyccl/base/repr_.py], which is not among the sources.  Section 4.5: the
    qualified name of the type as a header, then, for each attribute named in
    [__repr_attrs__], in declared order, a line [name = value]; scenario 1
    gives the layout (a new line and two spaces before each name). *)
Fixpoint attr_lines (d : gmap string value) (attrs : list string)
    : outcome string :=
  match attrs with
  | [] => Return EmptyString
  | a :: rest =>
      match d !! a with
      | None => Raise AttributeError
      | Some v =>
          match attr_lines d rest with
          | Return s => Return (newline +:+ "  " +:+ a +:+ " = " +:+ value_repr v +:+ s)
          | Raise e => Raise e
          end
      end
  end.

Definition build_string_from_attrs (w : world) (x : ccl_object)
    : outcome string :=
  match class_getattr c___repr_attrs__ w (i_class x) with
  | None => Raise AttributeError
  | Some attrs =>
      match attr_lines (i_dict x) attrs with
      | Return s => Return (i_class x +:+ s)
      | Raise e => Raise e
      end
  end.

(** [CCLAutoreprObject.__repr__]. *)
Definition CCLAutoreprObject___repr__ (w : world) (r : addr) (x : ccl_object)
    : outcome string :=
  if is_some (class_getattr c___repr_attrs__ w (i_class x))
  then build_string_from_attrs w x
  else Return (object___repr__ r x).

(** Calling one of the representation functions on the object [x] at [r].
    [__ccl_repr__] inside the cached property would read [self._repr] again
    and never come back. *)
Definition call_repr_fun (m : repr_fun) (w : world) (r : addr) (x : ccl_object)
    : outcome string :=
  match m with
  | object_repr_f => Return (object___repr__ r x)
  | default_repr_f => Return (object___repr__ r x)
  | autorepr_f => CCLAutoreprObject___repr__ w r x
  | user_repr_f f => f r x
  | ccl_repr_f => Raise RecursionError
  end.

(** Reading [self._repr]: the [__dict__] of the instance first; otherwise
    the [cached_property] found on the class computes the value and stores it
    in the [__dict__]. *)
Definition get__repr (w : world) (r : addr) : outcome value * world :=
  match heap w !! r with
  | None => (Raise AttributeError, w)
  | Some x =>
      match i_dict x !! "_repr" with
      | Some v => (Return v, w)
      | None =>
          match class_getattr c__repr w (i_class x) with
          | None => (Raise AttributeError, w)
          | Some m =>
              match call_repr_fun m w r x with
              | Return s => (Return (VStr s), dict_write w r "_repr" (VStr s))
              | Raise e => (Raise e, w)
              end
          end
      end
  end.

(** [CCLObject.__ccl_repr__]. *)
Definition __ccl_repr__ (w : world) (r : addr) : outcome value * world :=
  get__repr w r.

(** [repr(x)]: the [__repr__] of the type of [x]; the result has to be a
    string. *)
Definition py_repr (w : world) (r : addr) : outcome string * world :=
  match heap w !! r with
  | None => (Raise AttributeError, w)
  | Some x =>
      match FancyRepr.get___repr__ w (i_class x) with
      | ccl_repr_f =>
          match __ccl_repr__ w r with
          | (Return (VStr s), w1) => (Return s, w1)
          | (Return _, w1) => (Raise TypeError, w1)
          | (Raise e, w1) => (Raise e, w1)
          end
      | m => (call_repr_fun m w r x, w)
      end
  end.

(** Reading [self._hash], the cached property [hash(repr(self))]. *)
Definition get__hash (w : world) (r : addr) : outcome value * world :=
  match heap w !! r with
  | None => (Raise AttributeError, w)
  | Some x =>
      match i_dict x !! "_hash" with
      | Some v => (Return v, w)
      | None =>
          match py_repr w r with
          | (Return s, w1) =>
              (Return (VInt (str_hash s)), dict_write w1 r "_hash" (VInt (str_hash s)))
          | (Raise e, w1) => (Raise e, w1)
          end
      end
  end.

(** [hash(x)]: [CCLObject.__hash__] returns [self._hash], which has to be an
    integer. *)
Definition py_hash (w : world) (r : addr) : outcome Z * world :=
  match get__hash w r with
  | (Return (VInt h), w1) => (Return h, w1)
  | (Return _, w1) => (Raise TypeError, w1)
  | (Raise e, w1) => (Raise e, w1)
  end.

(** The list comprehension of [__eq__]: every attribute of [__eq_attrs__]
    is read on both operands and compared, in order; [eq] is [==] on the
    values read. *)
Fixpoint eq_attrs_list (eq : world -> value -> value -> outcome bool * world)
    (w : world) (self other : value) (attrs : list string)
    : outcome (list bool) * world :=
  match attrs with
  | [] => (Return [], w)
  | a :: rest =>
      match attrgetter a w self with
      | Raise e => (Raise e, w)
      | Return v1 =>
          match attrgetter a w other with
          | Raise e => (Raise e, w)
          | Return v2 =>
              match eq w v1 v2 with
              | (Raise e, w1) => (Raise e, w1)
              | (Return b, w1) =>
                  match eq_attrs_list eq w1 self other rest with
                  | (Raise e, w2) => (Raise e, w2)
                  | (Return bs, w2) => (Return (b :: bs), w2)
                  end
              end
          end
      end
  end.

(** [CCLObject.__eq__].  [__eq_attrs__] is a class attribute. *)
Definition CCLObject___eq__ (eq : world -> value -> value -> outcome bool * world)
    (w : world) (r : addr) (other : value) : outcome bool * world :=
  match heap w !! r with
  | None => (Raise AttributeError, w)
  | Some x =>
      if negb (bool_decide (Some (i_class x) = class_of w other))
      then (Return false, w)
      else
        match class_getattr c___eq_attrs__ w (i_class x) with
        | Some attrs =>
            match eq_attrs_list eq w (VRef r) other attrs with
            | (Return bs, w1) => (Return (forallb (fun b => b) bs), w1)
            | (Raise e, w1) => (Raise e, w1)
            end
        | None =>
            match py_repr w r with
            | (Raise e, w1) => (Raise e, w1)
            | (Return s1, w1) =>
                match other with
                | VRef r2 =>
                    match py_repr w1 r2 with
                    | (Return s2, w2) => (Return (String.eqb s1 s2), w2)
                    | (Raise e, w2) => (Raise e, w2)
                    end
                | _ => (Raise TypeError, w1)
                end
            end
        end
  end.

(** [v1 == v2].  An instance on either side answers with
    [CCLObject.__eq__]; [n] bounds the depth of nested comparisons, as
    Python's recursion limit does. *)
Fixpoint py_eq (n : nat) (w : world) (v1 v2 : value) : outcome bool * world :=
  match n with
  | O => (Raise RecursionError, w)
  | S n' =>
      match v1, v2 with
      | VRef r, _ => CCLObject___eq__ (py_eq n') w r v2
      | _, VRef r => CCLObject___eq__ (py_eq n') w r v1
      | _, _ => (Return (scalar_eq v1 v2), w)
      end
  end.

(** The cached hash of the instance at [r], when there is one, is the
    string hash of what [repr] returns now. *)
Definition hash_cache_current (w : world) (r : addr) : Prop :=
  forall x v, heap w !! r = Some x -> i_dict x !! "_hash" = Some v ->
    exists s, fst (py_repr w r) = Return s /\ v = VInt (str_hash s).

End Builtins.

(** ** Writing Python functions *)

(** A [def]: the call binds its arguments to the parameters (a failure is
    a [TypeError]) and runs the body on the bound values, defaults filled
    in. *)
Definition param_value (ps : list param) (bound : list (string * value))
    (n : string) : value :=
  match assoc n bound with
  | Some v => v
  | None =>
      match assoc n (map (fun p => (p_name p, p)) ps) ≫= p_default with
      | Some v => v
      | None => VNone
      end
  end.

Definition def (name : string) (ps : list param)
    (body : (string -> value) -> world -> outcome value * world) : pyfunc :=
  PyFunc name ps None
    (fun args kwargs w =>
       match bind ps args kwargs with
       | Raise e => (Raise e, w)
       | Return bound => body (param_value ps bound) w
       end).

(** [target.name = v] as a statement followed by the rest of the body. *)
Definition assign (target : value) (name : string) (v : value)
    (rest : world -> outcome value * world) (w : world) : outcome value * world :=
  match target with
  | VRef r =>
      match __setattr__ w r name v with
      | (Return _, w1) => rest w1
      | (Raise e, w1) => (Raise e, w1)
      end
  | _ => (Raise AttributeError, w)
  end.

Definition return_ (v : value) (w : world) : outcome value * world :=
  (Return v, w).

Definition positional (n : string) : param := Param n POSITIONAL_OR_KEYWORD None.

(** ** A small client, used to run the module on concrete inputs

    [[
    class Point(CCLAutoreprObject):
        __repr_attrs__ = ("a", "b")
        def __init__(self, a, b):
            self.a = a
            self.b = b
        def update_parameters(self, a, b):
            self.a = a
            self.b = b

    class MyType(CCLObject):
        test = 0
    ]]
    [MyType] is the class of [test_CCLObject_default_behavior]. *)

Definition Point___init__ : pyfunc :=
  def "__init__" [positional "self"; positional "a"; positional "b"]
    (fun arg => assign (arg "self") "a" (arg "a")
               (assign (arg "self") "b" (arg "b") (return_ VNone))).

Definition Point_update_parameters : pyfunc :=
  def "update_parameters" [positional "self"; positional "a"; positional "b"]
    (fun arg => assign (arg "self") "a" (arg "a")
               (assign (arg "self") "b" (arg "b") (return_ VNone))).

Definition Point_class : outcome (option pyfunc * option pyfunc) * world :=
  define_class "Point" ["CCLAutoreprObject"; "CCLObject"] None
               (Some ["a"; "b"]) None
               (Some Point___init__) (Some Point_update_parameters) world0.

(** [Point.__init__] and [Point.update_parameters] as [vars(Point)] holds
    them once the class exists. *)
Definition Point_init : option pyfunc :=
  match fst Point_class with Return (i, _) => i | Raise _ => None end.

Definition Point_update : option pyfunc :=
  match fst Point_class with Return (_, u) => u | Raise _ => None end.

Definition world_Point : world := snd Point_class.

Definition world_MyType : world :=
  snd (define_class "MyType" ["CCLObject"] None None None None None world0).

(** Stand-ins for the two builtins in closed examples: a multiplicative
    string hash on 64 bits and the [repr] of numbers, strings, booleans and
    [None]. *)
Definition example_hash (s : string) : Z :=
  fold_left (fun h c => (h * 33 + Z.of_nat (Ascii.nat_of_ascii c)) mod 2 ^ 64)
            (list_ascii_of_string s) 5381.

Definition example_repr (v : value) : string :=
  match v with
  | VNone => "None"
  | VBool true => "True"
  | VBool false => "False"
  | VInt z => DecimalString.NilZero.string_of_int (Z.to_int z)
  | VStr s => "'" +:+ s +:+ "'"
  | VRef r => "<object at 0x" +:+ NilZero.string_of_uint (N.to_hex_uint (Z.to_N r)) +:+ ">"
  end.

(** [p1 = Point(1, 2); p2 = Point(1, 2)] at the addresses 1 and 2. *)
Definition world_two_points : world :=
  snd (construct "Point" Point_init 2 [VInt 1; VInt 2] []
         (snd (construct "Point" Point_init 1 [VInt 1; VInt 2] [] world_Point))).

Definition Point_init_wrapped : pyfunc :=
  match Point_init with Some g => g | None => Point___init__ end.

(** [Point.update_parameters] as installed by [__init_subclass__]: wrapped
    with [mutate=True]. *)
Definition Point_update_wrapped : pyfunc :=
  match Point_update with Some g => g | None => update_parameters end.

Definition point (locked : bool) (lock_id : option Z) (a b : Z) : ccl_object :=
  Instance "Point" (ObjectLock.mk locked lock_id)
           (<["b" := VInt b]> (<["a" := VInt a]> ∅)).

Definition Point_obj : class_obj :=
  ClassObj ["CCLAutoreprObject"; "CCLObject"] None None (Some ["a"; "b"]) None.

Definition Point_repr (a b : string) : string :=
  "Point" +:+ newline +:+ "  a = " +:+ a +:+ newline +:+ "  b = " +:+ b +:+ EmptyString.

(** [hash(p1); hash(p2)]. *)
Definition world_hashed : world :=
  snd (py_hash example_hash example_repr
         (snd (py_hash example_hash example_repr world_two_points 1)) 2).

(** [hash(p1); hash(p2); FancyRepr.disable()]. *)
Definition world_stale : world := FancyRepr.disable world_hashed.

(** [x = CCLAutoreprObject()] at address 1. *)
Definition world_default : world :=
  snd (construct "CCLAutoreprObject" None 1 [] [] world0).

(** [p1 = Point(1, 2); t = MyType()]. *)
Definition world_mixed : world :=
  snd (construct "MyType" None 3 [] [] world_two_points).

(** [with UnlockInstance(p1): ...] is running with id 10 when a second
    manager with id 11 is created on [p1]. *)
Definition world_in_scope : world :=
  UnlockInstance.__enter__
    (UnlockInstance.__init__ 10 world_two_points (VRef 1) true) world_two_points.

(** [func1] of [test_unlock_instance_errors]. *)
Definition func1 : pyfunc :=
  def "func1" [positional "item"; positional "pk";
               Param "a0" POSITIONAL_OR_KEYWORD (Some (VInt 0));
               Param "a1" KEYWORD_ONLY (Some VNone);
               Param "a2" KEYWORD_ONLY None]
      (fun _ => return_ VNone).

(** [def f(x, cosmo=None): return x]. *)
Definition with_default : pyfunc :=
  def "f" [positional "x"; Param "cosmo" POSITIONAL_OR_KEYWORD (Some VNone)]
      (fun arg => return_ (arg "x")).

(** [[
    class Single(CCLAutoreprObject):
        __repr_attrs__ = ("a",)
        def __init__(self, a):
            self.a = a
    ]]
    and the store after [s1 = Single(a1); s2 = Single(a2)] for two strings
    [a1] and [a2]. *)
Definition Single___init__ : pyfunc :=
  def "__init__" [positional "self"; positional "a"]
    (fun arg => assign (arg "self") "a" (arg "a") (return_ VNone)).

Definition Single_class : outcome (option pyfunc * option pyfunc) * world :=
  define_class "Single" ["CCLAutoreprObject"; "CCLObject"] None
               (Some ["a"]) None (Some Single___init__) None world0.

Definition Single_init : option pyfunc :=
  match fst Single_class with Return (i, _) => i | Raise _ => None end.

Definition world_singles (a1 a2 : string) : world :=
  snd (construct "Single" Single_init 2 [VStr a2] []
         (snd (construct "Single" Single_init 1 [VStr a1] [] (snd Single_class)))).

Definition Single_repr (a : string) : string :=
  "Single" +:+ newline +:+ "  a = " +:+ a +:+ EmptyString.

(** The string made of [n] letters. *)
Fixpoint unary (n : nat) : string :=
  match n with
  | O => EmptyString
  | S n' => String "a"%char (unary n')
  end.

(** ** Threads

    Several threads, each running [with UnlockInstance(x, mutate=...): ...]
    with a manager of its own, interleaved between the attribute reads and
    writes of [__enter__] and [__exit__].  [self.thread_lock] is the [RLock]
    that the constructor of the manager creates; the locks are kept by the
    [id] of their manager, with the thread that holds each one. *)

Module Threads.

Inductive pc :=
  | BeforeEnter       (* the manager exists, [__enter__] has not started *)
  | EnterHolding      (* inside [with self.thread_lock] of [__enter__] *)
  | EnterSawInactive  (* [self.object_lock.active] has been read as False *)
  | Body              (* [__enter__] has returned *)
  | ExitMatched       (* [self.id != self.object_lock._lock_id] was False *)
  | ExitHolding       (* inside [with self.thread_lock] of [__exit__] *)
  | Finished.

(** [window] records that [__enter__] of this thread ran
    [self.object_lock.unlock(manager_id=self.id)] and that its [__exit__]
    has not returned yet. *)
Record thread := Thread {
  manager : UnlockInstance.t;
  at_ : pc;
  window : bool
}.

Record machine := Machine {
  m_world : world;
  m_threads : list thread;
  m_rlocks : gmap Z nat
}.

Definition acquire (t : nat) (self : UnlockInstance.t) (m : machine)
    : option (gmap Z nat) :=
  match m_rlocks m !! UnlockInstance.id self with
  | None => Some (<[UnlockInstance.id self := t]> (m_rlocks m))
  | Some t' => if bool_decide (t' = t) then Some (m_rlocks m) else None
  end.

Definition release (self : UnlockInstance.t) (m : machine) : gmap Z nat :=
  delete (UnlockInstance.id self) (m_rlocks m).

Definition update (m : machine) (t : nat) (w : world) (th : thread)
    (locks : gmap Z nat) : machine :=
  Machine w (<[t := th]> (m_threads m)) locks.

(** One step of thread [t]; [None] when the thread has finished or waits
    for a lock that another thread holds. *)
Definition step (t : nat) (m : machine) : option machine :=
  match m_threads m !! t with
  | None => None
  | Some th =>
      let self := manager th in
      let w := m_world m in
      match at_ th with
      | BeforeEnter =>
          if negb (UnlockInstance.check_instance self)
          then Some (update m t w (Thread self Body false) (m_rlocks m))
          else
            match acquire t self m with
            | Some locks => Some (update m t w (Thread self EnterHolding false) locks)
            | None => None
            end
      | EnterHolding =>
          match UnlockInstance.the_lock self w with
          | None => Some (update m t w (Thread self Body false) (release self m))
          | Some (r, x) =>
              if ObjectLock.active (_object_lock x)
              then Some (update m t w (Thread self Body false) (release self m))
              else Some (update m t w (Thread self EnterSawInactive false) (m_rlocks m))
          end
      | EnterSawInactive =>
          match UnlockInstance.the_lock self w with
          | None => Some (update m t w (Thread self Body false) (release self m))
          | Some (r, x) =>
              Some (update m t
                      (store w r (set_lock x (ObjectLock.unlock (_object_lock x)
                                                (Some (UnlockInstance.id self)))))
                      (Thread self Body true) (release self m))
          end
      | Body =>
          if negb (UnlockInstance.check_instance self)
          then Some (update m t w (Thread self Finished false) (m_rlocks m))
          else
            match UnlockInstance.the_lock self w with
            | None => Some (update m t w (Thread self Finished false) (m_rlocks m))
            | Some (r, x) =>
                if negb (bool_decide (Some (UnlockInstance.id self)
                                      = ObjectLock._lock_id (_object_lock x)))
                then Some (update m t w (Thread self Finished false) (m_rlocks m))
                else Some (update m t w (Thread self ExitMatched (window th)) (m_rlocks m))
            end
      | ExitMatched =>
          match acquire t self m with
          | Some locks => Some (update m t w (Thread self ExitHolding (window th)) locks)
          | None => None
          end
      | ExitHolding =>
          match UnlockInstance.the_lock self w with
          | None => Some (update m t w (Thread self Finished false) (release self m))
          | Some (r, x) =>
              let x1 := if UnlockInstance.mutate self
                        then set_dict x (UnlockInstance.reset_repr (i_dict x))
                        else x in
              Some (update m t
                      (store w r (set_lock x1 (ObjectLock.lock (_object_lock x1))))
                      (Thread self Finished false) (release self m))
          end
      | Finished => None
      end
  end.

(** A schedule names the thread that moves next. *)
Fixpoint run (schedule : list nat) (m : machine) : option machine :=
  match schedule with
  | [] => Some m
  | t :: rest =>
      match step t m with
      | Some m' => run rest m'
      | None => None
      end
  end.

(** The number of threads whose mutation window is open. *)
Definition windows (m : machine) : nat :=
  length (filter (fun th => window th = true) (m_threads m)).

(** Threads that are about to enter a scope on the same value, each with a
    manager of its own. *)
Definition spawn (w : world) (target : value) (ids : list Z) : machine :=
  Machine w
    (map (fun i => Thread (UnlockInstance.__init__ i w target true) BeforeEnter false) ids)
    ∅.

End Threads.

(** ** Invariants of the store *)

(** A lock that is locked holds no manager id. *)
Definition lock_ok (l : ObjectLock.t) : Prop :=
  ObjectLock._locked l = true -> ObjectLock._lock_id l = None.

Definition locks_ok (w : world) : Prop :=
  forall r x, heap w !! r = Some x -> lock_ok (_object_lock x).

Definition locks_okb (w : world) : bool :=
  forallb (fun p => negb (ObjectLock._locked (_object_lock (snd p))
                          && ObjectLock.active (_object_lock (snd p))))
          (map_to_list (heap w)).

(** Two stores hold the same locks. *)
Definition same_locks (w1 w2 : world) : Prop :=
  forall r, _object_lock <$> heap w1 !! r = _object_lock <$> heap w2 !! r.

(** What [repr] computes for the instance [x] at [r] when its [__dict__]
    holds no [_repr]: the [__repr__] of its type, and behind
    [__ccl_repr__] the function inside the cached property. *)
Definition compute_repr (value_repr : value -> string) (w : world) (r : addr)
    (x : ccl_object) : outcome string :=
  match FancyRepr.get___repr__ w (i_class x) with
  | ccl_repr_f =>
      match class_getattr c__repr w (i_class x) with
      | None => Raise AttributeError
      | Some m => call_repr_fun value_repr m w r x
      end
  | m => call_repr_fun value_repr m w r x
  end.


(** A cached hash sits next to the cached representation it was computed
    from. *)
Definition caches_ok (str_hash : string -> Z) (w : world) : Prop :=
  forall r x v, heap w !! r = Some x -> i_dict x !! "_hash" = Some v ->
    exists s, i_dict x !! "_repr" = Some (VStr s) /\ v = VInt (str_hash s).

Definition caches_okb (str_hash : string -> Z) (w : world) : bool :=
  forallb (fun p =>
             match i_dict (snd p) !! "_hash" with
             | None => true
             | Some v =>
                 match i_dict (snd p) !! "_repr" with
                 | Some (VStr s) =>
                     match v with
                     | VInt h => Z.eqb h (str_hash s)
                     | _ => false
                     end
                 | _ => false
                 end
             end)
          (map_to_list (heap w)).

(** [hash(p1); hash(p2)], then [with UnlockInstance(p1): ...] is running
    with id 10. *)
Definition world_hashed_in_scope : world :=
  UnlockInstance.__enter__
    (UnlockInstance.__init__ 10 world_hashed (VRef 1) true) world_hashed.

(** The [__dict__] of [p1] with both caches filled. *)
Definition point_dict_hashed (a b : Z) (s : string) : gmap string value :=
  <["_hash" := VInt (example_hash s)]>
    (<["_repr" := VStr s]> (<["b" := VInt b]> (<["a" := VInt a]> ∅))).

(** ** States of the registry *)

(** The registry is switched on and every registered class carries what
    [bind_and_replace] gave it. *)
Definition fancy_applied (w : world) : Prop :=
  fancy_enabled w = true
  /\ forall cl m co, In (cl, m) (fancy_classes w) -> classes w !! cl = Some co ->
       c___repr__ co = Some ccl_repr_f /\ c__repr co = Some m.

(** Neither the class [c] nor a class of its MRO is registered. *)
Definition unregistered (w : world) (c : class_id) : Prop :=
  ~ In c (map fst (fancy_classes w))
  /\ forall co, classes w !! c = Some co ->
       Forall (fun b => ~ In b (map fst (fancy_classes w))) (c_bases co).

(** [instances = [MyType() for _ in range(2)]] of
    [test_CCLObject_default_behavior], at the addresses 3 and 4. *)
Definition world_two_mytypes : world :=
  snd (construct "MyType" None 4 [] []
         (snd (construct "MyType" None 3 [] [] world_MyType))).

(** ** Comparing attributes *)

Definition is_ref (v : value) : bool :=
  match v with VRef _ => true | _ => false end.

(** [x.a == y.a] for an attribute [a] that holds no instance on either
    side. *)
Definition attr_eq (x y : ccl_object) (a : string) : bool :=
  match i_dict x !! a, i_dict y !! a with
  | Some va, Some vb => scalar_eq va vb
  | _, _ => false
  end.

(** The attribute [a] is a plain name, and both instances have it with a
    value that is not an instance. *)
Definition plain_attr (x y : ccl_object) (a : string) : Prop :=
  split_dots EmptyString a = [a]
  /\ exists va vb, i_dict x !! a = Some va /\ i_dict y !! a = Some vb
       /\ is_ref va = false /\ is_ref vb = false.

(** [[
    class Loose(CCLObject):
        __eq_attrs__ = ("a", "b")

    x = Loose(); y = Loose()
    x.a = 1; y.a = 2
    ]]
    at the addresses 1 and 2, and the same with [x.b = 0; y.b = 0] added. *)
Definition world_Loose : world :=
  snd (define_class "Loose" ["CCLObject"] None None (Some ["a"; "b"]) None None world0).

Definition world_loose : world :=
  snd (__setattr__
         (snd (__setattr__ (__new__ "Loose" 2 (__new__ "Loose" 1 world_Loose))
                           1 "a" (VInt 1)))
         2 "a" (VInt 2)).

Definition world_loose_full : world :=
  snd (__setattr__ (snd (__setattr__ world_loose 1 "b" (VInt 0))) 2 "b" (VInt 0)).

(** ** Invariant of the interleavings *)

(** The managers of the threads have different ids, and every [RLock]
    that is held belongs to the manager of the thread that holds it. *)
Definition own_locks (m : Threads.machine) : Prop :=
  (forall t1 t2 th1 th2,
     Threads.m_threads m !! t1 = Some th1 -> Threads.m_threads m !! t2 = Some th2 ->
     UnlockInstance.id (Threads.manager th1) = UnlockInstance.id (Threads.manager th2) ->
     t1 = t2)
  /\ (forall i t, Threads.m_rlocks m !! i = Some t ->
        exists th, Threads.m_threads m !! t = Some th
                   /\ UnlockInstance.id (Threads.manager th) = i).

(** ** Halo model ingredients ([pyccl/halos])

    [HMIngredients] and the concentration and mass function classes built
    on it are users of the object model above: their constructors run inside
    the scope that [__init_subclass__] wraps around [__init__].  What follows
    embeds the mass definition checks and the parameter tables of these
    classes.  A mass definition is seen through the two attributes that the
    code reads, [name] and [Delta]; the numbers of the tables are kept as the
    decimal literals of the source. *)

Module Halos.

(** [mass_def.Delta]: a number, or one of the strings ["vir"] and
    ["fof"]. *)
Inductive delta :=
  | DeltaNum (z : Z)
  | DeltaStr (s : string).

Record MassDef := mkMassDef {
  name : string;
  Delta : delta
}.

(** A decimal literal: [Dec m e] is [m * 10 ^ e]. *)
Record dec := Dec { mantissa : Z; exponent : Z }.

Inductive error :=
  | ValueError (msg : string)
  | KeyError.

Definition result (A : Type) : Type := error + A.

(** What [HMIngredients.__init__] leaves on the instance, next to the
    attributes [S] that a subclass sets before it calls [super().__init__]
    and the parameters [P] that its [_setup] stores. *)
Record attrs (S P : Type) := Attrs {
  own : S;
  mass_def_strict : bool;
  mass_def : MassDef;
  params : P
}.

Arguments Attrs {S P} _ _ _ _.
Arguments own {S P} _.
Arguments mass_def_strict {S P} _.
Arguments mass_def {S P} _.
Arguments params {S P} _.

(** The hooks that a subclass of [HMIngredients] provides. *)
Record ingredient (S P : Type) := Ingredient {
  classname : string;
  _mass_def_strict_always : bool;
  _check_mass_def_strict : S -> MassDef -> bool;
  _setup : S -> MassDef -> result P
}.

Arguments Ingredient {S P} _ _ _ _.
Arguments classname {S P} _.
Arguments _mass_def_strict_always {S P} _.
Arguments _check_mass_def_strict {S P} _ _ _.
Arguments _setup {S P} _ _ _.

(** [HMIngredients._check_mass_def]: [None] when it returns. *)
Definition _check_mass_def {S P} (cls : ingredient S P) (self : S)
    (strict : bool) (md : MassDef) : option error :=
  let msg := classname cls +:+ " is not defined for " +:+ name md +:+ " masses" in
  if _check_mass_def_strict cls self md then
    if _mass_def_strict_always cls
    then Some (ValueError (msg +:+ " and this requirement cannot be relaxed."))
    else if strict
         then Some (ValueError
                      (msg +:+ ". To relax this check set `mass_def_strict=False`."))
         else None
  else None.

Section Init.

(** [MassDef.create_instance] lives in [massdef.py], which is not among
    the sources: it turns a name or a mass definition into a mass
    definition, or raises. *)
Variable create_instance : string + MassDef -> result MassDef.

(** The body of [HMIngredients.__init__]. *)
Definition HMIngredients___init__ {S P} (cls : ingredient S P) (self : S)
    (mass_def : string + MassDef) (mass_def_strict : bool)
    : result (attrs S P) :=
  match create_instance mass_def with
  | inl e => inl e
  | inr md =>
      match _check_mass_def cls self mass_def_strict md with
      | Some e => inl e
      | None =>
          match _setup cls self md with
          | inl e => inl e
          | inr p => inr (Attrs self mass_def_strict md p)
          end
      end
  end.

(** The body of [Concentration.__init__]. *)
Definition Concentration___init__ {S P} (cls : ingredient S P) (self : S)
    (mass_def : string + MassDef) : result (attrs S P) :=
  HMIngredients___init__ cls self mass_def true.

End Init.

(** [vals[key]] on a dictionary written as a list of pairs. *)
Fixpoint getitem {K A} (eqb : K -> K -> bool) (vals : list (K * A)) (key : K)
    : result A :=
  match vals with
  | [] => inl KeyError
  | (k, a) :: rest => if eqb k key then inr a else getitem eqb rest key
  end.

(** [x not in l] for a list of strings. *)
Definition not_in (x : string) (l : list string) : bool :=
  negb (existsb (String.eqb x) l).

(** [ConcentrationDuffy08]. *)
Definition Duffy08_vals : list (string * (dec * dec * dec)) :=
  [("vir", (Dec 785 (-2), Dec (-81) (-3), Dec (-71) (-2)));
   ("200m", (Dec 1014 (-2), Dec (-81) (-3), Dec (-101) (-2)));
   ("200c", (Dec 571 (-2), Dec (-84) (-3), Dec (-47) (-2)))].

Definition ConcentrationDuffy08 : ingredient unit (dec * dec * dec) :=
  Ingredient "ConcentrationDuffy08" true
    (fun _ md => not_in (name md) ["vir"; "200m"; "200c"])
    (fun _ md => getitem String.eqb Duffy08_vals (name md)).

(** [ConcentrationBhattacharya13]. *)
Definition Bhattacharya13_vals : list (string * (dec * dec * dec)) :=
  [("vir", (Dec 77 (-1), Dec 9 (-1), Dec (-29) (-2)));
   ("200m", (Dec 90 (-1), Dec 115 (-2), Dec (-29) (-2)));
   ("200c", (Dec 59 (-1), Dec 54 (-2), Dec (-35) (-2)))].

Definition ConcentrationBhattacharya13 : ingredient unit (dec * dec * dec) :=
  Ingredient "ConcentrationBhattacharya13" true
    (fun _ md => not_in (name md) ["vir"; "200m"; "200c"])
    (fun _ md => getitem String.eqb Bhattacharya13_vals (name md)).

(** [ConcentrationIshiyama21]: its constructor sets [relaxed] and [Vmax]
    before it calls [super().__init__]. *)
Record Ishiyama21_own := mkIshiyama21 { relaxed : bool; Vmax : bool }.

Definition delta_eqb (d1 d2 : delta) : bool :=
  match d1, d2 with
  | DeltaNum a, DeltaNum b => Z.eqb a b
  | DeltaStr a, DeltaStr b => String.eqb a b
  | _, _ => false
  end.

Definition key_eqb (k1 k2 : bool * bool * delta) : bool :=
  let '(v1, r1, d1) := k1 in
  let '(v2, r2, d2) := k2 in
  Bool.eqb v1 v2 && Bool.eqb r1 r2 && delta_eqb d1 d2.

Definition Ishiyama21_vals
    : list (bool * bool * delta * (dec * dec * dec * dec * dec * dec)) :=
  [((true, true, DeltaNum 200),
    (Dec 179 (-2), Dec 215 (-2), Dec 206 (-2), Dec 88 (-2), Dec 924 (-2), Dec 51 (-2)));
   ((true, false, DeltaNum 200),
    (Dec 110 (-2), Dec 230 (-2), Dec 164 (-2), Dec 172 (-2), Dec 360 (-2), Dec 32 (-2)));
   ((false, true, DeltaNum 200),
    (Dec 60 (-2), Dec 214 (-2), Dec 263 (-2), Dec 169 (-2), Dec 636 (-2), Dec 37 (-2)));
   ((false, false, DeltaNum 200),
    (Dec 119 (-2), Dec 254 (-2), Dec 133 (-2), Dec 404 (-2), Dec 121 (-2), Dec 22 (-2)));
   ((true, true, DeltaStr "vir"),
    (Dec 240 (-2), Dec 227 (-2), Dec 180 (-2), Dec 56 (-2), Dec 1324 (-2), Dec 79 (-3)));
   ((true, false, DeltaStr "vir"),
    (Dec 76 (-2), Dec 234 (-2), Dec 182 (-2), Dec 183 (-2), Dec 352 (-2), Dec (-18) (-2)));
   ((false, true, DeltaStr "vir"),
    (Dec 122 (-2), Dec 252 (-2), Dec 187 (-2), Dec 213 (-2), Dec 419 (-2), Dec (-17) (-3)));
   ((false, false, DeltaStr "vir"),
    (Dec 164 (-2), Dec 267 (-2), Dec 123 (-2), Dec 392 (-2), Dec 130 (-2), Dec (-19) (-2)));
   ((false, true, DeltaNum 500),
    (Dec 38 (-2), Dec 144 (-2), Dec 341 (-2), Dec 286 (-2), Dec 299 (-2), Dec 42 (-2)));
   ((false, false, DeltaNum 500),
    (Dec 183 (-2), Dec 195 (-2), Dec 117 (-2), Dec 357 (-2), Dec 91 (-2), Dec 26 (-2)))].

Definition ConcentrationIshiyama21
    : ingredient Ishiyama21_own (dec * dec * dec * dec * dec * dec) :=
  Ingredient "ConcentrationIshiyama21" true
    (fun self md =>
       let is_500Vmax := delta_eqb (Delta md) (DeltaNum 500) && Vmax self in
       not_in (name md) ["vir"; "200c"; "500c"] || is_500Vmax)
    (fun self md =>
       getitem key_eqb Ishiyama21_vals (Vmax self, relaxed self, Delta md)).

(** The mass definition check of [MassFuncTinker08], a [MassFunc]. *)
Definition MassFuncTinker08_check (md : MassDef) : bool :=
  delta_eqb (Delta md) (DeltaStr "fof").

(** The name that a mass definition with the given [Delta] carries when it
    is measured against the critical density, as the concentrations above
    expect it: ["vir"], ["200c"], ["500c"]. *)
Definition critical_name (md : MassDef) : Prop :=
  (name md = "vir" -> Delta md = DeltaStr "vir")
  /\ (name md = "200c" -> Delta md = DeltaNum 200)
  /\ (name md = "500c" -> Delta md = DeltaNum 500).

End Halos.

(** ** The lock used by hand *)

(** [ObjectLock.__repr__]. *)
Definition ObjectLock___repr__ (self : ObjectLock.t) : string :=
  "ObjectLock" +:+ "(locked="
    +:+ (if ObjectLock.locked self then "True" else "False") +:+ ")".

(** The statements [x._object_lock.lock()] and
    [x._object_lock.unlock(manager_id)] on the instance at [r], as
    [test_CCLObject_immutability] writes them. *)
Definition call_lock (w : world) (r : addr) : world :=
  match heap w !! r with
  | Some x => store w r (set_lock x (ObjectLock.lock (_object_lock x)))
  | None => w
  end.

Definition call_unlock (w : world) (r : addr) (manager_id : option Z) : world :=
  match heap w !! r with
  | Some x => store w r (set_lock x (ObjectLock.unlock (_object_lock x) manager_id))
  | None => w
  end.

(** ** A constructor that calls the constructor of its base

    [[
    class Double(Single):
        def __init__(self, a, b):
            super().__init__(a)
            self.b = b
    ]] *)
Definition Single_init_wrapped : pyfunc :=
  match Single_init with Some g => g | None => Single___init__ end.

Definition Double___init__ : pyfunc :=
  def "__init__" [positional "self"; positional "a"; positional "b"]
    (fun arg w =>
       match f_call Single_init_wrapped [arg "self"; arg "a"] [] w with
       | (Return _, w1) => assign (arg "self") "b" (arg "b") (return_ VNone) w1
       | (Raise e, w1) => (Raise e, w1)
       end).

Definition Double_class : outcome (option pyfunc * option pyfunc) * world :=
  define_class "Double" ["Single"; "CCLAutoreprObject"; "CCLObject"] None
               None None (Some Double___init__) None (snd Single_class).

Definition Double_init : option pyfunc :=
  match fst Double_class with Return (i, _) => i | Raise _ => None end.

(** ** Emulators ([pyccl/emulator.py])

    [Bounds] keeps the ranges in which an emulator was trained, and
    [Emulator] keeps the loaded models in a dictionary shared by all its
    instances.  A dictionary that the code walks through is a list of pairs
    with one entry per key, in insertion order; the shared registry is a
    finite map. *)

Module Emulators.

(** [Unpack] is the [ValueError] that [vmin, vmax = vals] raises when
    [vals] does not have two items. *)
Inductive error :=
  | ValueError (msg : string)
  | Unpack
  | KeyError
  | TypeError
  | AttributeError
  | NotImplementedError.

Section Bounds.

(** The numbers and Python's [<=] on them, which for floats is not a total
    order. *)
Variable num : Type.
Variable le : num -> num -> bool.

Inductive pyseq :=
  | PyList (l : list num)
  | PyTuple (l : list num).

Definition items (vals : pyseq) : list num :=
  match vals with PyList l => l | PyTuple l => l end.

(** [list(vals)] when [vals] is not a list already. *)
Definition as_list (vals : pyseq) : pyseq := PyList (items vals).

(** [Bounds.__init__]: the loop over [self.bounds.items()].  The
    dictionary is the one the caller passed in, so what the loop has written
    stays written when it raises; the result is the exception, if any, and
    the dictionary as the loop leaves it. *)
Fixpoint Bounds___init__ (bounds : list (string * pyseq))
    : option error * list (string * pyseq) :=
  match bounds with
  | [] => (None, [])
  | (par, vals) :: rest =>
      match items vals with
      | [vmin; vmax] =>
          if negb (le vmin vmax)
          then (Some (ValueError ("Malformed bounds for parameter " +:+ par
                                    +:+ ". Should be [min, max].")),
                (par, vals) :: rest)
          else
            let '(e, rest') := Bounds___init__ rest in
            (e, (par, as_list vals) :: rest')
      | _ => (Some Unpack, (par, vals) :: rest)
      end
  end.

(** [Bounds.check_bounds]: the exception, if any, and the warnings issued
    on the way. *)
Fixpoint check_bounds (bounds : list (string * pyseq))
    (proposal : list (string * num)) : option error * list string :=
  match proposal with
  | [] => (None, [])
  | (par, val) :: rest =>
      match assoc par bounds with
      | None =>
          let '(e, ws) := check_bounds bounds rest in
          (e, ("Unknown bounds for parameter " +:+ par +:+ ".") :: ws)
      | Some vals =>
          match items vals with
          | [vmin; vmax] =>
              if negb (le vmin val && le val vmax)
              then (Some (ValueError ("Parameter " +:+ par +:+ " out of bounds "
                                        +:+ "for current emulator configuration.")),
                    [])
              else check_bounds bounds rest
          | _ => (Some Unpack, [])
          end
      end
  end.

(** The entry [(par, vals)] is a well-formed range. *)
Definition well_formed (p : string * pyseq) : Prop :=
  exists vmin vmax, items (snd p) = [vmin; vmax] /\ le vmin vmax = true.

(** The proposed value lies in the range stored for its parameter, when
    there is one. *)
Definition within (bounds : list (string * pyseq)) (p : string * num) : Prop :=
  forall vals, assoc (fst p) bounds = Some vals ->
    exists vmin vmax, items vals = [vmin; vmax]
      /\ le vmin (snd p) = true /\ le (snd p) vmax = true.

End Bounds.

Arguments PyList {num} _.
Arguments PyTuple {num} _.
Arguments items {num} _.
Arguments as_list {num} _.

Section Registry.

(** Models, configurations and bounds are whatever the subclasses store;
    configurations are compared with [!=], and stored bounds are objects
    that are neither [None] nor containers. *)
Context {model config bounds : Type} `{EqDecision config}.

(** [entry["bounds"]]: [None], what [_set_bounds(bounds)] stored, or a
    dictionary from keys to stored bounds or [None]. *)
Inductive bounds_slot :=
  | BNone
  | BWhole (b : bounds)
  | BKeyed (d : gmap string (option bounds)).

Record entry := Entry {
  e_model : option model;
  e_config : option config;
  e_bounds : bounds_slot
}.

(** An instance: its class attribute [name], its [_config_emu_kwargs], and
    the [_reload] attribute once [_has_model] has set it.  The attribute
    [_param_emu_kwargs], which nothing here reads, is left out. *)
Record emulator := Emu {
  name : string;
  _config_emu_kwargs : config;
  _reload : option bool
}.

Definition result (A : Type) : Type := (error + A) * gmap string entry.

Definition _has_entry (self : emulator) (emulators : gmap string entry) : bool :=
  match emulators !! name self with Some _ => true | None => false end.

Definition _get_entry (self : emulator) (emulators : gmap string entry)
    : error + entry :=
  match emulators !! name self with
  | Some e => inr e
  | None => inl KeyError
  end.

Definition _has_config (self : emulator) (emulators : gmap string entry)
    : error + bool :=
  match _get_entry self emulators with
  | inl e => inl e
  | inr entry => inr (match e_config entry with Some _ => true | None => false end)
  end.

Definition _get_config (self : emulator) (emulators : gmap string entry)
    : error + option config :=
  match _has_config self emulators with
  | inl e => inl e
  | inr true =>
      match _get_entry self emulators with
      | inl e => inl e
      | inr entry => inr (e_config entry)
      end
  | inr false => inr None
  end.

(** [_has_model] is a property that writes [self._reload]. *)
Definition _has_model (self : emulator) (emulators : gmap string entry)
    : error + (bool * emulator) :=
  match _get_config self emulators with
  | inl e => inl e
  | inr c =>
      let reload := negb (bool_decide (c = Some (_config_emu_kwargs self))) in
      let self := Emu (name self) (_config_emu_kwargs self) (Some reload) in
      if reload then inr (false, self)
      else
        match _get_entry self emulators with
        | inl e => inl e
        | inr entry =>
            inr (match e_model entry with Some _ => true | None => false end, self)
        end
  end.

Definition _set_entry (self : emulator) (emulators : gmap string entry)
    : gmap string entry :=
  <[name self := Entry None None BNone]> emulators.

Section Load.

(** [self._load()], which subclasses override; the one of the base class
    raises [NotImplementedError]. *)
Variable _load : emulator -> error + model.

Definition _set_model (self : emulator) (emulators : gmap string entry)
    : result unit :=
  match _load self with
  | inl e => (inl e, emulators)
  | inr emu =>
      match _get_entry self emulators with
      | inl e => (inl e, emulators)
      | inr entry =>
          (inr tt,
           <[name self := Entry (Some emu) (e_config entry) (e_bounds entry)]> emulators)
      end
  end.

Definition _set_config (self : emulator) (emulators : gmap string entry)
    : result unit :=
  match _get_entry self emulators with
  | inl e => (inl e, emulators)
  | inr entry =>
      (inr tt,
       <[name self := Entry (e_model entry) (Some (_config_emu_kwargs self))
                            (e_bounds entry)]> emulators)
  end.

(** [Emulator.__init__] on an instance whose class gives it [name];
    [_config_emu_kwargs] is what the subclass constructor has set, or the
    empty dictionary that [__init__] puts there.  A model that has been
    loaded is not [None]. *)
Definition Emulator___init__ (self : emulator) (emulators : gmap string entry)
    : result emulator :=
  let emulators :=
    if negb (_has_entry self emulators) then _set_entry self emulators
    else emulators in
  match _has_model self emulators with
  | inl e => (inl e, emulators)
  | inr (has_model, self) =>
      match (if negb has_model then _set_model self emulators
             else (inr tt, emulators)) with
      | (inl e, emulators) => (inl e, emulators)
      | (inr _, emulators) =>
          match _reload self with
          | None => (inl AttributeError, emulators)
          | Some reload =>
              match (if reload then inr true
                     else match _has_config self emulators with
                          | inl e => inl e
                          | inr b => inr (negb b)
                          end) with
              | inl e => (inl e, emulators)
              | inr true =>
                  match _set_config self emulators with
                  | (inl e, emulators) => (inl e, emulators)
                  | (inr _, emulators) => (inr self, emulators)
                  end
              | inr false => (inr self, emulators)
              end
          end
      end
  end.

End Load.

(** [_has_bounds(key)], [_get_bounds(key)] and [_set_bounds(bounds, key)];
    [key] is [None] or a string. *)
Definition _has_bounds (self : emulator) (key : option string)
    (emulators : gmap string entry) : result bool :=
  match _get_entry self emulators with
  | inl e => (inl e, emulators)
  | inr entry =>
      match key with
      | None =>
          (inr (match e_bounds entry with BNone => false | _ => true end), emulators)
      | Some k =>
          match e_bounds entry with
          | BNone =>
              (inr false,
               <[name self := Entry (e_model entry) (e_config entry) (BKeyed ∅)]>
                 emulators)
          | BWhole _ => (inl TypeError, emulators)
          | BKeyed d =>
              match d !! k with
              | Some b =>
                  (inr (match b with Some _ => true | None => false end), emulators)
              | None =>
                  (inr false,
                   <[name self := Entry (e_model entry) (e_config entry)
                                        (BKeyed (<[k := None]> d))]> emulators)
              end
          end
      end
  end.

(** What [_get_bounds] returns: [None], stored bounds, or the whole
    dictionary. *)
Inductive bounds_value :=
  | VNoBounds
  | VBounds (b : bounds)
  | VDict (d : gmap string (option bounds)).

Definition _get_bounds (self : emulator) (key : option string)
    (emulators : gmap string entry) : error + bounds_value :=
  match _get_entry self emulators with
  | inl e => inl e
  | inr entry =>
      match key with
      | None =>
          inr (match e_bounds entry with
               | BNone => VNoBounds
               | BWhole b => VBounds b
               | BKeyed d => VDict d
               end)
      | Some k =>
          match e_bounds entry with
          | BNone => inl TypeError
          | BWhole _ => inl TypeError
          | BKeyed d =>
              match d !! k with
              | Some (Some b) => inr (VBounds b)
              | Some None => inr VNoBounds
              | None => inl KeyError
              end
          end
      end
  end.

Definition _set_bounds (self : emulator) (b : bounds) (key : option string)
    (emulators : gmap string entry) : result unit :=
  match _get_entry self emulators with
  | inl e => (inl e, emulators)
  | inr entry =>
      match key with
      | None =>
          (inr tt,
           <[name self := Entry (e_model entry) (e_config entry) (BWhole b)]> emulators)
      | Some k =>
          match e_bounds entry with
          | BNone =>
              (inr tt,
               <[name self := Entry (e_model entry) (e_config entry)
                                    (BKeyed {[ k := Some b ]})]> emulators)
          | BWhole _ => (inl TypeError, emulators)
          | BKeyed d =>
              (inr tt,
               <[name self := Entry (e_model entry) (e_config entry)
                                    (BKeyed (<[k := Some b]> d))]> emulators)
          end
      end
  end.

End Registry.

Arguments bounds_slot : clear implicits.
Arguments entry : clear implicits.
Arguments emulator : clear implicits.
Arguments bounds_value : clear implicits.

End Emulators.

(** * Properties *)

(** ** The store *)

Lemma store_same (w : world) (r : addr) (x : ccl_object) :
  heap w !! r = Some x -> store w r x = w.
Proof.
  intros H. destruct w as [cs h en l]; unfold store, set_heap; simpl in *.
  f_equal. by apply insert_id.
Qed.

Lemma heap_store (w : world) (r : addr) (x : ccl_object) :
  heap (store w r x) !! r = Some x.
Proof. unfold store; simpl. apply lookup_insert_eq. Qed.

Lemma heap_store_ne (w : world) (r r' : addr) (x : ccl_object) :
  r <> r' -> heap (store w r x) !! r' = heap w !! r'.
Proof. intros H. unfold store; simpl. by apply lookup_insert_ne. Qed.

Lemma classes_store (w : world) (r : addr) (x : ccl_object) :
  classes (store w r x) = classes w.
Proof. reflexivity. Qed.

Lemma set_lock_same (x : ccl_object) : set_lock x (_object_lock x) = x.
Proof. by destruct x. Qed.

(** ** Scopes *)

Section Scopes.

Import UnlockInstance.

Variables (w : world) (r : addr) (x : ccl_object).
Hypothesis Hx : heap w !! r = Some x.

Lemma init_on_instance (i : Z) (mut : bool) :
  __init__ i w (VRef r) mut = mk (VRef r) mut i true (Some r).
Proof. unfold __init__; simpl. by rewrite Hx. Qed.

Lemma the_lock_on_instance (self : t) :
  object_lock self = Some r -> the_lock self w = Some (r, x).
Proof. intros H. unfold the_lock. by rewrite H, Hx. Qed.

(** Entering when some manager is active changes nothing. *)
Lemma enter_active (self : t) :
  object_lock self = Some r ->
  ObjectLock.active (_object_lock x) = true ->
  __enter__ self w = w.
Proof.
  intros Hl Ha. unfold __enter__. destruct (negb (check_instance self)); [done|].
  by rewrite (the_lock_on_instance _ Hl), Ha.
Qed.

(** Leaving with an id that is not the stored one changes nothing. *)
Lemma exit_other (self : t) :
  object_lock self = Some r ->
  ObjectLock._lock_id (_object_lock x) <> Some (id self) ->
  __exit__ self w = w.
Proof.
  intros Hl Hne. unfold __exit__. destruct (negb (check_instance self)); [done|].
  rewrite (the_lock_on_instance _ Hl).
  rewrite bool_decide_eq_false_2; [done | congruence].
Qed.

(** Entering a free instance stores the id and unlocks. *)
Lemma enter_free (self : t) :
  object_lock self = Some r -> check_instance self = true ->
  ObjectLock._lock_id (_object_lock x) = None ->
  __enter__ self w = store w r (set_lock x (ObjectLock.mk false (Some (id self)))).
Proof.
  intros Hl Hc Hn. unfold __enter__. rewrite Hc; simpl.
  rewrite (the_lock_on_instance _ Hl).
  unfold ObjectLock.active, ObjectLock.unlock. by rewrite Hn.
Qed.

(** Leaving with the stored id locks, after the caches have been reset when
    the manager mutates. *)
Lemma exit_owner (self : t) :
  object_lock self = Some r -> check_instance self = true ->
  ObjectLock._lock_id (_object_lock x) = Some (id self) ->
  __exit__ self w =
    store w r (Instance (i_class x) (ObjectLock.mk true None)
                 (if mutate self then reset_repr (i_dict x) else i_dict x)).
Proof.
  intros Hl Hc Hid. unfold __exit__. rewrite Hc; simpl.
  rewrite (the_lock_on_instance _ Hl).
  rewrite bool_decide_eq_true_2 by done. simpl.
  by destruct (mutate self).
Qed.

End Scopes.

(** C3. While a scope [S] is active on an instance (its id is the one
    stored in the lock), a second manager on the same instance is a no-op:
    its entry and its exit leave the whole store as it is (no relock, no
    cache reset), so does a whole nested [with] block whose body leaves the
    lock to [S]; the instance is unlocked as long as [S] is active, and the
    exit of [S] locks it and clears the stored id. *)
Theorem nested_scope_noop (w : world) (r : addr) (x : ccl_object)
    (idS idI : Z) (mS mI : bool) :
  heap w !! r = Some x ->
  _object_lock x = ObjectLock.mk false (Some idS) ->
  idI <> idS ->
  let S := UnlockInstance.__init__ idS w (VRef r) mS in
  let inner := UnlockInstance.__init__ idI w (VRef r) mI in
  UnlockInstance.__enter__ inner w = w
  /\ UnlockInstance.__exit__ inner w = w
  /\ (forall (A : Type) (body : world -> outcome A * world),
        _object_lock <$> heap (snd (body w)) !! r = Some (ObjectLock.mk false (Some idS)) ->
        UnlockInstance.with_ inner body w = body w)
  /\ ObjectLock.locked (_object_lock x) = false
  /\ _object_lock <$> heap (UnlockInstance.__exit__ S w) !! r
     = Some (ObjectLock.mk true None).
Proof.
  intros Hx Hl Hne S inner. subst S inner.
  rewrite !(init_on_instance w r x Hx).
  split; [|split; [|split; [|split]]].
  - apply (enter_active w r x Hx); [done|]. by rewrite Hl.
  - apply (exit_other w r x Hx); [done|]. rewrite Hl; simpl. congruence.
  - intros A body Hb. unfold UnlockInstance.with_.
    rewrite (enter_active w r x Hx) by (done || by rewrite Hl).
    destruct (body w) as [res w2] eqn:Eb. simpl in Hb.
    destruct (heap w2 !! r) as [x2|] eqn:Hx2; [|done].
    simpl in Hb. injection Hb as Hb.
    rewrite (exit_other w2 r x2 Hx2); [done|done|].
    rewrite Hb; simpl. congruence.
  - by rewrite Hl.
  - rewrite (exit_owner w r x Hx); [|done|done|by rewrite Hl].
    by rewrite heap_store.
Qed.


Lemma nested_scope_noop_witness :
  UnlockInstance.__exit__
    (UnlockInstance.__init__ 11 world_in_scope (VRef 1) true) world_in_scope
  = world_in_scope.
Proof.
  refine (proj1 (proj2
    (nested_scope_noop world_in_scope 1
       (Instance "Point" (ObjectLock.mk false (Some 10))
                 (<["b" := VInt 2]> (<["a" := VInt 1]> ∅)))
       10 11 true true _ _ _))).
  - vm_compute. reflexivity.
  - reflexivity.
  - lia.
Defined.

(** ** Equality across types *)

(** C5. [CCLObject.__eq__] answers [False], without reading any attribute
    or representation and without touching the store, whenever the other
    operand is not of the very class of [self]; so does [==] with an instance
    on the left. *)
Theorem eq_other_type_false (value_repr : value -> string)
    (eq : world -> value -> value -> outcome bool * world)
    (w : world) (r : addr) (x : ccl_object) (other : value) :
  heap w !! r = Some x ->
  class_of w other <> Some (i_class x) ->
  CCLObject___eq__ value_repr eq w r other = (Return false, w)
  /\ forall n, py_eq value_repr (S n) w (VRef r) other = (Return false, w).
Proof.
  intros Hx Hc.
  assert (E : forall eq', CCLObject___eq__ value_repr eq' w r other = (Return false, w)).
  { intros eq'. unfold CCLObject___eq__. rewrite Hx.
    rewrite bool_decide_eq_false_2; [done | congruence]. }
  split; [apply E | intros n; simpl; apply E].
Qed.

(** ** The decorator *)


Lemma unlock_instance_func_ok (func : pyfunc) (name : option string)
    (mutate : bool) (n : string) :
  target_name func name = Some n ->
  n ∈ map p_name (signature func) ->
  unlock_instance_func func name mutate
  = Return (PyFunc (f___name__ func) (f_params func) (Some (signature func))
              (wrapper (PyFunc (f___name__ func) (f_params func)
                               (Some (signature func)) (f_call func))
                       n mutate)).
Proof.
  intros Ht Hin. unfold unlock_instance_func.
  assert (E : (match name with
               | Some n0 => Return n0
               | None => match map p_name (signature func) with
                         | n0 :: _ => Return n0
                         | [] => Raise IndexError
                         end
               end) = Return n).
  { destruct name as [n0|]; simpl in Ht.
    - congruence.
    - destruct (map p_name (signature func)); simpl in Ht; congruence. }
  rewrite E. by rewrite bool_decide_eq_true_2.
Qed.

(** C7. Wrapping happens when the decorator is applied.  A name that is
    not among the parameters of the function makes the application itself
    raise [NameError], so no wrapper exists that could be called; this is so
    for the direct form and for the form with parentheses.  A name that is
    among the parameters, and no name at all when the function has a first
    parameter, give a wrapper. *)
Theorem unlock_instance_name_check (func : pyfunc) (mutate : bool) :
  (forall n, n ∉ map p_name (signature func) ->
     unlock_instance_func func (Some n) mutate = Raise NameError
     /\ (exists d, unlock_instance None (Some n) mutate = inl d
                   /\ d func = Raise NameError))
  /\ (forall n, n ∈ map p_name (signature func) ->
        exists g, unlock_instance_func func (Some n) mutate = Return g
                  /\ unlock_instance (Some func) (Some n) mutate = inr (Return g))
  /\ (forall p ps, signature func = p :: ps ->
        exists g, unlock_instance_func func None mutate = Return g
                  /\ unlock_instance (Some func) None mutate = inr (Return g)).
Proof.
  split; [|split].
  - intros n Hn.
    assert (E : unlock_instance_func func (Some n) mutate = Raise NameError).
    { unfold unlock_instance_func. by rewrite bool_decide_eq_false_2. }
    split; [exact E|]. eexists. split; [reflexivity | exact E].
  - intros n Hn. eexists. split.
    + by apply unlock_instance_func_ok.
    + simpl. f_equal. by apply unlock_instance_func_ok.
  - intros p ps Hs. eexists. split.
    + apply (unlock_instance_func_ok _ _ _ (p_name p)).
      * simpl. by rewrite Hs.
      * rewrite Hs. simpl. apply list_elem_of_here.
    + simpl. f_equal. apply (unlock_instance_func_ok _ _ _ (p_name p)).
      * simpl. by rewrite Hs.
      * rewrite Hs. simpl. apply list_elem_of_here.
Qed.


Lemma unlock_instance_name_check_witness :
  unlock_instance_func func1 (Some "hello") true = Raise NameError
  /\ exists g, unlock_instance_func func1 (Some "pk") true = Return g.
Proof.
  destruct (unlock_instance_name_check func1 true) as (Hbad & Hgood & _).
  split.
  - apply (Hbad "hello"). vm_compute.
    intros H. repeat (apply elem_of_cons in H as [H|H]; [discriminate H|]).
    by apply elem_of_nil in H.
  - destruct (Hgood "pk") as (g & Hg & _).
    + vm_compute. apply list_elem_of_further, list_elem_of_here.
    + by exists g.
Defined.

(** ** The registry *)


Lemma same_shape_refl (cs : gmap class_id class_obj) : same_shape cs cs.
Proof. by intros c. Qed.

Lemma same_shape_trans (cs1 cs2 cs3 : gmap class_id class_obj) :
  same_shape cs1 cs2 -> same_shape cs2 cs3 -> same_shape cs1 cs3.
Proof. intros H1 H2 c. by rewrite H1. Qed.

Lemma same_shape_alter (f : class_obj -> class_obj) (cl : class_id)
    (cs : gmap class_id class_obj) :
  (forall co, shape (f co) = shape co) -> same_shape (alter f cl cs) cs.
Proof.
  intros Hf c. destruct (decide (cl = c)) as [->|Hne].
  - rewrite lookup_alter_eq. destruct (cs !! c); simpl; [by rewrite Hf | done].
  - by rewrite lookup_alter_ne.
Qed.

(** Attributes that [FancyRepr] never writes read the same before and
    after. *)
Lemma class_getattr_shape {A} (sel : class_obj -> option A)
    (g : list class_id * option (list string) * option (list string) -> option A)
    (w1 w2 : world) (c : class_id) :
  (forall co, sel co = g (shape co)) ->
  same_shape (classes w1) (classes w2) ->
  class_getattr sel w1 c = class_getattr sel w2 c.
Proof.
  intros Hsel Hs.
  assert (Hl : forall b, classes w1 !! b ≫= sel = classes w2 !! b ≫= sel).
  { intros b. specialize (Hs b).
    destruct (classes w1 !! b) as [c1|], (classes w2 !! b) as [c2|];
      simpl in *; try done. rewrite !Hsel. congruence. }
  unfold class_getattr. pose proof (Hs c) as Hc.
  destruct (classes w1 !! c) as [c1|] eqn:E1, (classes w2 !! c) as [c2|] eqn:E2;
    simpl in Hc; try done.
  pose proof (Hl c) as Hlc. rewrite E1, E2 in Hlc. simpl in Hlc. rewrite Hlc.
  assert (Hb : c_bases c1 = c_bases c2) by (unfold shape in Hc; congruence).
  rewrite Hb. destruct (sel c2); [done|].
  clear Hb Hc. induction (c_bases c2) as [|b bs IH]; simpl; [done|].
  rewrite Hl. destruct (classes w2 !! b ≫= sel); [done | apply IH].
Qed.

Lemma repr_attrs_shape (w1 w2 : world) (c : class_id) :
  same_shape (classes w1) (classes w2) ->
  class_getattr c___repr_attrs__ w1 c = class_getattr c___repr_attrs__ w2 c.
Proof.
  apply (class_getattr_shape _ (fun s => snd (fst s))). by intros [].
Qed.

Lemma eq_attrs_shape (w1 w2 : world) (c : class_id) :
  same_shape (classes w1) (classes w2) ->
  class_getattr c___eq_attrs__ w1 c = class_getattr c___eq_attrs__ w2 c.
Proof.
  apply (class_getattr_shape _ (fun s => snd s)). by intros [].
Qed.

Section Registry.

Import FancyRepr.


Lemma enable_unfold (w : world) :
  enable w = set_registry (fold_left enable_step (fancy_classes w) w) true
               (fancy_classes (fold_left enable_step (fancy_classes w) w)).
Proof. reflexivity. Qed.

Lemma disable_unfold (w : world) :
  disable w = set_registry (fold_left disable_step (map fst (fancy_classes w)) w) false
                (fancy_classes (fold_left disable_step (map fst (fancy_classes w)) w)).
Proof. reflexivity. Qed.

Lemma enable_fold_frame (l : list (class_id * repr_fun)) (w : world) :
  heap (fold_left enable_step l w) = heap w
  /\ fancy_classes (fold_left enable_step l w) = fancy_classes w
  /\ same_shape (classes (fold_left enable_step l w)) (classes w).
Proof.
  revert w. induction l as [|[cl m] l IH]; intros w; simpl.
  - split; [done|]. split; [done | apply same_shape_refl].
  - destruct (IH (bind_and_replace cl m w)) as (Hh & Hr & Hs).
    split; [by rewrite Hh|]. split; [by rewrite Hr|].
    eapply same_shape_trans; [exact Hs|].
    apply same_shape_alter. by intros [].
Qed.

Lemma disable_fold_frame (l : list class_id) (w : world) :
  heap (fold_left disable_step l w) = heap w
  /\ fancy_classes (fold_left disable_step l w) = fancy_classes w
  /\ same_shape (classes (fold_left disable_step l w)) (classes w).
Proof.
  revert w. induction l as [|cl l IH]; intros w; simpl.
  - split; [done|]. split; [done | apply same_shape_refl].
  - destruct (IH (disable_step w cl)) as (Hh & Hr & Hs).
    split; [by rewrite Hh|]. split; [by rewrite Hr|].
    eapply same_shape_trans; [exact Hs|].
    apply same_shape_alter. by intros [].
Qed.

(** Toggling writes class attributes only. *)
Lemma heap_enable (w : world) : heap (enable w) = heap w.
Proof. rewrite enable_unfold. simpl. apply enable_fold_frame. Qed.

Lemma heap_disable (w : world) : heap (disable w) = heap w.
Proof. rewrite disable_unfold. simpl. apply disable_fold_frame. Qed.

Lemma shape_enable (w : world) : same_shape (classes (enable w)) (classes w).
Proof. rewrite enable_unfold. simpl. apply enable_fold_frame. Qed.

Lemma shape_disable (w : world) : same_shape (classes (disable w)) (classes w).
Proof. rewrite disable_unfold. simpl. apply disable_fold_frame. Qed.

Lemma disable_fold_other (l : list class_id) (w : world) (cl : class_id) :
  ~ In cl l -> classes (fold_left disable_step l w) !! cl = classes w !! cl.
Proof.
  revert w. induction l as [|c l IH]; intros w Hn; simpl; [done|].
  rewrite IH by (intros H; apply Hn; by right).
  unfold disable_step; simpl. rewrite lookup_alter_ne; [done|].
  intros ->. apply Hn. by left.
Qed.

(** After [disable], the [__repr__] entry of a registered class is
    [object.__repr__]. *)
Lemma disable_fold_slot (l : list class_id) (w : world) (cl : class_id) :
  In cl l ->
  c___repr__ <$> classes (fold_left disable_step l w) !! cl
  = (fun _ => Some object_repr_f) <$> classes w !! cl.
Proof.
  revert w. induction l as [|c l IH]; intros w Hin; simpl; [done|].
  destruct (In_dec String.string_dec cl l) as [Hl|Hl].
  - rewrite (IH _ Hl). unfold disable_step; simpl.
    destruct (decide (c = cl)) as [->|Hne].
    + rewrite lookup_alter_eq. by destruct (classes w !! cl).
    + by rewrite lookup_alter_ne.
  - destruct Hin as [->|Hin]; [|done].
    rewrite (disable_fold_other _ _ _ Hl). unfold disable_step; simpl.
    rewrite lookup_alter_eq. by destruct (classes w !! cl).
Qed.

Lemma enable_fold_other (l : list (class_id * repr_fun)) (w : world)
    (cl : class_id) :
  ~ In cl (map fst l) -> classes (fold_left enable_step l w) !! cl = classes w !! cl.
Proof.
  revert w. induction l as [|[c m] l IH]; intros w Hn; simpl; [done|].
  rewrite IH by (intros H; apply Hn; by right).
  unfold bind_and_replace; simpl. rewrite lookup_alter_ne; [done|].
  intros ->. apply Hn. by left.
Qed.

(** After [enable], a registered class has [__repr__ = __ccl_repr__] and
    the cached property around its registered method as [_repr]. *)
Lemma enable_fold_slot (l : list (class_id * repr_fun)) (w : world)
    (cl : class_id) (m : repr_fun) :
  NoDup (map fst l) -> In (cl, m) l ->
  classes (fold_left enable_step l w) !! cl
  = (fun co => set___repr__ ccl_repr_f (set__repr m co)) <$> classes w !! cl.
Proof.
  revert w. induction l as [|[c m0] l IH]; intros w Hnd Hin; simpl; [done|].
  simpl in Hnd. apply NoDup_cons in Hnd as [Hc Hnd].
  destruct Hin as [Heq|Hin].
  - injection Heq as -> ->.
    rewrite enable_fold_other.
    + unfold bind_and_replace; simpl. by rewrite lookup_alter_eq.
    + intros H. apply Hc. by apply list_elem_of_In.
  - rewrite (IH _ Hnd Hin). unfold bind_and_replace; simpl.
    rewrite lookup_alter_ne; [done|]. intros ->. apply Hc.
    apply list_elem_of_In. apply (in_map fst) in Hin. exact Hin.
Qed.

Lemma classes_enable (w : world) (cl : class_id) (m : repr_fun) :
  NoDup (map fst (fancy_classes w)) -> In (cl, m) (fancy_classes w) ->
  classes (enable w) !! cl
  = (fun co => set___repr__ ccl_repr_f (set__repr m co)) <$> classes w !! cl.
Proof. intros. rewrite enable_unfold. simpl. by apply enable_fold_slot. Qed.

Lemma classes_disable (w : world) (cl : class_id) (m : repr_fun) :
  In (cl, m) (fancy_classes w) ->
  c___repr__ <$> classes (disable w) !! cl
  = (fun _ => Some object_repr_f) <$> classes w !! cl.
Proof.
  intros Hin. rewrite disable_unfold. simpl. apply disable_fold_slot.
  apply (in_map fst) in Hin. exact Hin.
Qed.

(** [add] keeps one entry per class. *)
Lemma dict_set_in {A} (k : class_id) (a : A) (l : list (class_id * A))
    (c : class_id) :
  In c (map fst (dict_set k a l)) -> c = k \/ In c (map fst l).
Proof.
  induction l as [|[k' a'] l IH]; simpl; intros Hc.
  - destruct Hc as [<-|[]]. by left.
  - destruct (String.eqb_spec k k') as [->|Hne]; simpl in Hc.
    + destruct Hc as [<-|Hc]; [by left | right; by right].
    + destruct Hc as [<-|Hc]; [right; by left|].
      destruct (IH Hc) as [->|H]; [by left | right; by right].
Qed.

Lemma dict_set_keys {A} (k : class_id) (a : A) (l : list (class_id * A)) :
  NoDup (map fst l) -> NoDup (map fst (dict_set k a l)).
Proof.
  induction l as [|[k' a'] l IH]; simpl; intros Hnd.
  - apply NoDup_cons. split; [apply not_elem_of_nil | constructor].
  - apply NoDup_cons in Hnd as [Hk Hnd].
    destruct (String.eqb_spec k k') as [->|Hne]; simpl.
    + apply NoDup_cons. by split.
    + apply NoDup_cons. split; [|by apply IH].
      intros Hc. apply list_elem_of_In, dict_set_in in Hc.
      destruct Hc as [->|H]; [done|]. apply Hk. by apply list_elem_of_In.
Qed.

End Registry.

(** ** Representations and hashes *)

Lemma class_getattr_classes {A} (sel : class_obj -> option A) (w1 w2 : world)
    (c : class_id) :
  classes w1 = classes w2 -> class_getattr sel w1 c = class_getattr sel w2 c.
Proof. intros H. unfold class_getattr. by rewrite H. Qed.

Lemma reset_repr_present (d : gmap string value) (v : value) :
  d !! "_repr" = Some v ->
  UnlockInstance.reset_repr d !! "_repr" = None
  /\ UnlockInstance.reset_repr d !! "_hash" = None
  /\ forall k, k <> "_repr" -> k <> "_hash" -> UnlockInstance.reset_repr d !! k = d !! k.
Proof.
  intros H. unfold UnlockInstance.reset_repr. rewrite H.
  split; [|split].
  - rewrite lookup_delete_ne by done. apply lookup_delete_eq.
  - apply lookup_delete_eq.
  - intros k H1 H2. by rewrite !lookup_delete_ne.
Qed.

Lemma reset_repr_absent (d : gmap string value) :
  d !! "_repr" = None -> UnlockInstance.reset_repr d = d.
Proof. intros H. unfold UnlockInstance.reset_repr. by rewrite H. Qed.

Section Reprs.

Variable str_hash : string -> Z.
Variable value_repr : value -> string.

Local Abbreviation repr_of := (py_repr value_repr).
Local Abbreviation hash_of := (py_hash str_hash value_repr).
Local Abbreviation call_repr := (call_repr_fun value_repr).
Local Abbreviation hash_cache_current := (hash_cache_current str_hash value_repr).

Lemma call_repr_fun_shape (m : repr_fun) (w1 w2 : world) (r : addr)
    (x : ccl_object) :
  same_shape (classes w1) (classes w2) ->
  call_repr m w1 r x = call_repr m w2 r x.
Proof.
  intros Hs. destruct m; simpl; try done.
  unfold CCLAutoreprObject___repr__, build_string_from_attrs.
  by rewrite (repr_attrs_shape w1 w2).
Qed.

(** [repr] reads the classes and the one instance. *)
Lemma py_repr_local (w1 w2 : world) (r : addr) :
  classes w1 = classes w2 -> heap w1 !! r = heap w2 !! r ->
  fst (repr_of w1 r) = fst (repr_of w2 r).
Proof.
  intros Hc Hh. unfold py_repr. rewrite Hh.
  destruct (heap w2 !! r) as [x|] eqn:Hx; [|done].
  unfold FancyRepr.get___repr__. rewrite (class_getattr_classes _ w1 w2) by done.
  assert (Hcall : forall m, call_repr m w1 r x = call_repr m w2 r x).
  { intros m. apply call_repr_fun_shape. rewrite Hc. apply same_shape_refl. }
  destruct (class_getattr c___repr__ w2 (i_class x)) as [[| | | |f]|];
    cbv beta iota; rewrite ?Hcall; try done.
  unfold __ccl_repr__, get__repr. rewrite Hh, Hx.
  destruct (i_dict x !! "_repr") as [[]|]; try done.
  rewrite (class_getattr_classes _ w1 w2) by done.
  destruct (class_getattr c__repr w2 (i_class x)) as [m|]; [|done].
  rewrite Hcall. by destruct (call_repr m w2 r x).
Qed.

(** What [repr] does to the store: nothing, or it fills the empty [_repr]
    cache of the instance with the string it returns. *)
Lemma py_repr_effect (w : world) (r : addr) (o : outcome string) (w1 : world) :
  repr_of w r = (o, w1) ->
  w1 = w
  \/ exists x s, heap w !! r = Some x /\ o = Return s
       /\ FancyRepr.get___repr__ w (i_class x) = ccl_repr_f
       /\ i_dict x !! "_repr" = None
       /\ w1 = store w r (set_dict x (<["_repr" := VStr s]> (i_dict x))).
Proof.
  unfold py_repr. destruct (heap w !! r) as [x|] eqn:Hx.
  2: { intros [= <- <-]. by left. }
  destruct (FancyRepr.get___repr__ w (i_class x)) eqn:Hg;
    try (intros [= <- <-]; by left).
  unfold __ccl_repr__, get__repr. rewrite Hx.
  destruct (i_dict x !! "_repr") as [v|] eqn:Hd.
  { destruct v; intros [= <- <-]; by left. }
  destruct (class_getattr c__repr w (i_class x)) as [m|].
  2: { intros [= <- <-]. by left. }
  destruct (call_repr m w r x) as [s|e] eqn:Hcall.
  2: { intros [= <- <-]. by left. }
  intros [= <- <-]. right. exists x, s.
  unfold dict_write. by rewrite Hx.
Qed.

(** Reading a representation does not change what a later read sees, on
    the same instance or on another. *)
Lemma py_repr_after (w : world) (r : addr) (o : outcome string) (w1 : world)
    (r2 : addr) :
  repr_of w r = (o, w1) -> fst (repr_of w1 r2) = fst (repr_of w r2).
Proof.
  intros H. destruct (py_repr_effect _ _ _ _ H)
    as [->|(x & s & Hx & -> & Hg & Hd & ->)]; [done|].
  destruct (decide (r2 = r)) as [->|Hne].
  - rewrite H. simpl. unfold py_repr. rewrite heap_store.
    unfold FancyRepr.get___repr__ in *.
    rewrite (class_getattr_classes _ _ w) by done. simpl.
    destruct (class_getattr c___repr__ w (i_class x)) as [[| | | |f]|];
      try discriminate Hg.
    unfold __ccl_repr__, get__repr. rewrite heap_store. simpl.
    by rewrite lookup_insert_eq.
  - apply py_repr_local; [done|]. by apply heap_store_ne.
Qed.

(** A cached hash is what [hash] returns, and the store stays as it is. *)
Lemma py_hash_cached (w : world) (r : addr) (x : ccl_object) (h : Z) :
  heap w !! r = Some x -> i_dict x !! "_hash" = Some (VInt h) ->
  hash_of w r = (Return h, w).
Proof.
  intros Hx Hh. unfold py_hash, get__hash. by rewrite Hx, Hh.
Qed.

(** Without a cached hash, [hash] is the string hash of [repr]. *)
Lemma py_hash_fresh (w : world) (r : addr) (x : ccl_object) (s : string) :
  heap w !! r = Some x -> i_dict x !! "_hash" = None ->
  fst (repr_of w r) = Return s ->
  fst (hash_of w r) = Return (str_hash s).
Proof.
  intros Hx Hh Hr. unfold py_hash, get__hash. rewrite Hx, Hh.
  destruct (repr_of w r) as [o w1]. simpl in Hr. by subst o.
Qed.


Lemma class_getattr_chain {A} (sel : class_obj -> option A) (w : world)
    (c : class_id) (co : class_obj) :
  classes w !! c = Some co ->
  class_getattr sel w c
  = first_some (fun b => classes w !! b ≫= sel) (c :: c_bases co).
Proof. intros H. unfold class_getattr. simpl. by rewrite H. Qed.

Lemma first_some_skip {A B} (f : A -> option B) (pre l : list A) :
  Forall (fun a => f a = None) pre -> first_some f (pre ++ l) = first_some f l.
Proof.
  induction pre as [|a pre IH]; intros H; simpl; [done|].
  apply Forall_cons in H as [Ha H]. rewrite Ha. by apply IH.
Qed.

(** Attribute lookup from [c] in a store [w'] that has the bases of [w]
    and the classes before [cl] unchanged ends at [cl]. *)
Lemma class_getattr_inherited {A} (sel : class_obj -> option A)
    (w w' : world) (c cl : class_id) (a : A) :
  inherits_repr_from w c cl ->
  same_shape (classes w') (classes w) ->
  (forall b, ~ In b (map fst (fancy_classes w)) -> classes w' !! b = classes w !! b) ->
  (forall b, classes w !! b ≫= c___repr__ = None ->
             classes w !! b ≫= c__repr = None -> classes w !! b ≫= sel = None) ->
  classes w' !! cl ≫= sel = Some a ->
  class_getattr sel w' c = Some a.
Proof.
  intros (co & pre & post & Hco & Hchain & Hpre) Hs Hother Hsel Hcl.
  pose proof (Hs c) as Hc. rewrite Hco in Hc.
  destruct (classes w' !! c) as [co'|] eqn:Hco'; [|done].
  cbn in Hc. injection Hc as Hb _ _.
  rewrite (class_getattr_chain sel w' c co' Hco'), Hb, Hchain.
  rewrite first_some_skip.
  - simpl. by rewrite Hcl.
  - eapply Forall_impl; [exact Hpre|]. intros b (Hn & H1 & H2). simpl.
    rewrite (Hother b Hn). by apply Hsel.
Qed.

Lemma get___repr___disable (w : world) (c cl : class_id) (m : repr_fun)
    (co : class_obj) :
  In (cl, m) (fancy_classes w) -> classes w !! cl = Some co ->
  inherits_repr_from w c cl ->
  FancyRepr.get___repr__ (FancyRepr.disable w) c = object_repr_f.
Proof.
  intros Hin Hco Hinh. unfold FancyRepr.get___repr__.
  rewrite (class_getattr_inherited c___repr__ w (FancyRepr.disable w) c cl
             object_repr_f); try done.
  - apply shape_disable.
  - intros b Hb. rewrite disable_unfold. simpl. by apply disable_fold_other.
  - pose proof (classes_disable w cl m Hin) as H. rewrite Hco in H.
    destruct (classes (FancyRepr.disable w) !! cl) as [co'|]; [|done].
    cbn in H. by injection H as H.
Qed.

Lemma get___repr___enable (w : world) (c cl : class_id) (m : repr_fun)
    (co : class_obj) :
  NoDup (map fst (fancy_classes w)) ->
  In (cl, m) (fancy_classes w) -> classes w !! cl = Some co ->
  inherits_repr_from w c cl ->
  FancyRepr.get___repr__ (FancyRepr.enable w) c = ccl_repr_f
  /\ class_getattr c__repr (FancyRepr.enable w) c = Some m.
Proof.
  intros Hnd Hin Hco Hinh.
  pose proof (classes_enable w cl m Hnd Hin) as H. rewrite Hco in H.
  assert (Hother : forall b, ~ In b (map fst (fancy_classes w)) ->
            classes (FancyRepr.enable w) !! b = classes w !! b).
  { intros b Hb. rewrite enable_unfold. simpl. by apply enable_fold_other. }
  split.
  - unfold FancyRepr.get___repr__.
    rewrite (class_getattr_inherited c___repr__ w (FancyRepr.enable w) c cl
               ccl_repr_f); try done.
    + apply shape_enable.
    + by rewrite H.
  - apply (class_getattr_inherited c__repr w (FancyRepr.enable w) c cl m);
      try done.
    + apply shape_enable.
    + by rewrite H.
Qed.

(** C6 (as amended).  For an instance [x] of a class that is in the
    registry with the method [m], or of a subclass that takes its
    representation from it: after [disable], [repr(x)] is
    [object.__repr__(x)] and the store is left as it is (nothing is cached);
    it then differs from the custom representation exactly when [m] itself
    does not produce that default string.  After [enable], [repr(x)] is the
    cached [_repr] when the instance has one, and otherwise [m] is run on the
    instance and its result is returned and cached. *)
Theorem fancy_repr_toggle (w : world) (cl : class_id) (m : repr_fun)
    (co : class_obj) (r : addr) (x : ccl_object) :
  NoDup (map fst (fancy_classes w)) ->
  In (cl, m) (fancy_classes w) ->
  classes w !! cl = Some co ->
  heap w !! r = Some x ->
  inherits_repr_from w (i_class x) cl ->
  repr_of (FancyRepr.disable w) r
    = (Return (object___repr__ r x), FancyRepr.disable w)
  /\ (fst (repr_of (FancyRepr.disable w) r) <> call_repr m w r x
      <-> call_repr m w r x <> Return (object___repr__ r x))
  /\ repr_of (FancyRepr.enable w) r
     = match i_dict x !! "_repr" with
       | Some (VStr s) => (Return s, FancyRepr.enable w)
       | Some _ => (Raise TypeError, FancyRepr.enable w)
       | None =>
           match call_repr m w r x with
           | Return s =>
               (Return s, dict_write (FancyRepr.enable w) r "_repr" (VStr s))
           | Raise e => (Raise e, FancyRepr.enable w)
           end
       end.
Proof.
  intros Hnd Hin Hco Hx Hcl.
  assert (Hdis : repr_of (FancyRepr.disable w) r
                 = (Return (object___repr__ r x), FancyRepr.disable w)).
  { unfold py_repr. rewrite heap_disable, Hx.
    by rewrite (get___repr___disable w (i_class x) cl m co Hin Hco Hcl). }
  split; [exact Hdis|]. split.
  - rewrite Hdis. simpl. split; intros H E; apply H; congruence.
  - destruct (get___repr___enable w (i_class x) cl m co Hnd Hin Hco Hcl) as [Hg Hc].
    unfold py_repr. rewrite heap_enable, Hx, Hg.
    unfold __ccl_repr__, get__repr. rewrite heap_enable, Hx.
    destruct (i_dict x !! "_repr") as [[]|]; try done.
    rewrite Hc.
    rewrite (call_repr_fun_shape m (FancyRepr.enable w) w) by apply shape_enable.
    by destruct (call_repr m w r x).
Qed.

(** C10.  Toggling the registry writes no instance: a hash that is cached
    stays cached, and [hash(x)] returns it after [disable] and after
    [enable] alike, leaving the store alone.  Hence, for an instance of a
    registered class (or of a subclass that takes its representation from
    it) whose hash was cached together with its representation [s],
    [hash(x)] after [disable] is still the hash of [s] while [repr(x)] is the
    default string: the two disagree whenever the string hash tells these two
    strings apart.  The exit of a mutating scope then removes both
    caches, and the next [hash(x)] is the hash of the current [repr(x)]. *)
Theorem toggle_keeps_cached_hash (w : world) (r : addr) (x : ccl_object) (h : Z) :
  heap w !! r = Some x ->
  i_dict x !! "_hash" = Some (VInt h) ->
  heap (FancyRepr.disable w) = heap w
  /\ heap (FancyRepr.enable w) = heap w
  /\ hash_of (FancyRepr.disable w) r = (Return h, FancyRepr.disable w)
  /\ hash_of (FancyRepr.enable w) r = (Return h, FancyRepr.enable w)
  /\ (forall cl m co s,
        In (cl, m) (fancy_classes w) -> classes w !! cl = Some co ->
        inherits_repr_from w (i_class x) cl ->
        i_dict x !! "_repr" = Some (VStr s) -> h = str_hash s ->
        let wd := FancyRepr.disable w in
        fst (repr_of wd r) = Return (object___repr__ r x)
        /\ (str_hash s <> str_hash (object___repr__ r x) ->
            fst (hash_of wd r) <> Return (str_hash (object___repr__ r x)))
        /\ (forall i,
              _object_lock x = ObjectLock.mk false (Some i) ->
              let we := UnlockInstance.__exit__
                          (UnlockInstance.__init__ i wd (VRef r) true) wd in
              fst (hash_of we r) = Return (str_hash (object___repr__ r x))
              /\ fst (repr_of we r) = Return (object___repr__ r x))).
Proof.
  intros Hx Hh.
  assert (Hd : hash_of (FancyRepr.disable w) r = (Return h, FancyRepr.disable w)).
  { apply (py_hash_cached _ _ x); [by rewrite heap_disable | done]. }
  split; [apply heap_disable|]. split; [apply heap_enable|].
  split; [exact Hd|]. split.
  { apply (py_hash_cached _ _ x); [by rewrite heap_enable | done]. }
  intros cl m co s Hin Hco Hcl Hr -> wd.
  assert (Hxd : heap wd !! r = Some x) by (unfold wd; by rewrite heap_disable).
  assert (Hg : forall y, i_class y = i_class x ->
                 FancyRepr.get___repr__ wd (i_class y) = object_repr_f).
  { intros y ->. apply (get___repr___disable w (i_class x) cl m co Hin Hco Hcl). }
  split; [|split].
  - unfold py_repr. rewrite Hxd. by rewrite (Hg x eq_refl).
  - intros Hne. unfold wd. rewrite Hd. simpl. congruence.
  - intros i Hl we.
    assert (Hwe : we = store wd r (Instance (i_class x) (ObjectLock.mk true None)
                                     (UnlockInstance.reset_repr (i_dict x)))).
    { unfold we. rewrite (init_on_instance wd r x Hxd).
      rewrite (exit_owner wd r x Hxd); [done|done|done|by rewrite Hl]. }
    destruct (reset_repr_present _ _ Hr) as (Hnr & Hnh & _).
    assert (Hre : fst (repr_of we r) = Return (object___repr__ r x)).
    { unfold py_repr. rewrite Hwe, heap_store. simpl.
      unfold FancyRepr.get___repr__.
      rewrite (class_getattr_classes _ _ wd) by done.
      fold (FancyRepr.get___repr__ wd (i_class x)). by rewrite (Hg x eq_refl). }
    split; [|exact Hre].
    rewrite (py_hash_fresh we r (Instance (i_class x) (ObjectLock.mk true None)
                                   (UnlockInstance.reset_repr (i_dict x)))
                           (object___repr__ r x)); try done.
    by rewrite Hwe, heap_store.
Qed.


Lemma py_hash_current (w : world) (r : addr) (x : ccl_object) (s : string) :
  heap w !! r = Some x -> hash_cache_current w r ->
  fst (repr_of w r) = Return s ->
  fst (hash_of w r) = Return (str_hash s).
Proof.
  intros Hx Hc Hr. destruct (i_dict x !! "_hash") as [v|] eqn:Hh.
  - destruct (Hc x v Hx Hh) as (s' & Hs' & ->).
    rewrite (py_hash_cached w r x (str_hash s') Hx Hh). simpl. congruence.
  - by apply (py_hash_fresh w r x).
Qed.

(** C1 (as amended).  For two instances of one class below
    [CCLAutoreprObject] that declares [__repr_attrs__] and no
    [__eq_attrs__], whose representations are [sx] and [sy]: [x == y]
    returns whether [sx] and [sy] are the same string; and when the cached
    hashes, if any, were computed from these representations, [hash(x)] and
    [hash(y)] are the string hashes of [sx] and [sy], so equal
    representations give equal hashes. *)
Theorem eq_repr_hash (n : nat) (w : world) (rx ry : addr) (x y : ccl_object)
    (co : class_obj) (attrs : list string) (sx sy : string) :
  heap w !! rx = Some x ->
  heap w !! ry = Some y ->
  i_class x = i_class y ->
  classes w !! i_class x = Some co ->
  In "CCLAutoreprObject" (c_bases co) ->
  class_getattr c___repr_attrs__ w (i_class x) = Some attrs ->
  class_getattr c___eq_attrs__ w (i_class x) = None ->
  fst (repr_of w rx) = Return sx ->
  fst (repr_of w ry) = Return sy ->
  exists b,
    fst (py_eq value_repr (S n) w (VRef rx) (VRef ry)) = Return b
    /\ (b = true <-> sx = sy)
    /\ (hash_cache_current w rx -> hash_cache_current w ry ->
        fst (hash_of w rx) = Return (str_hash sx)
        /\ fst (hash_of w ry) = Return (str_hash sy)
        /\ (sx = sy -> fst (hash_of w rx) = fst (hash_of w ry))).
Proof.
  intros Hx Hy Hcl Hco Hbase Hattrs Heq Hsx Hsy.
  exists (String.eqb sx sy). split; [|split].
  - simpl. unfold CCLObject___eq__. rewrite Hx. simpl. rewrite Hy. simpl.
    rewrite bool_decide_eq_true_2 by congruence. simpl. rewrite Heq.
    destruct (repr_of w rx) as [o1 w1] eqn:E1. simpl in Hsx. subst o1.
    pose proof (py_repr_after _ _ _ _ ry E1) as Hafter.
    destruct (repr_of w1 ry) as [o2 w2]. simpl in Hafter.
    rewrite Hsy in Hafter. by subst o2.
  - destruct (String.eqb_spec sx sy); split; congruence.
  - intros Hcx Hcy.
    rewrite (py_hash_current w rx x sx), (py_hash_current w ry y sy) by done.
    split; [done|]. split; [done|]. by intros ->.
Qed.

End Reprs.

(** ** Runs on the small client *)

Lemma Point_inherits (w : world) :
  classes w !! "Point" = Some Point_obj ->
  fancy_classes w = [("CCLAutoreprObject", autorepr_f)] ->
  inherits_repr_from w "Point" "CCLAutoreprObject".
Proof.
  intros Hc Hf. exists Point_obj, ["Point"], ["CCLObject"].
  split; [exact Hc|]. split; [reflexivity|].
  constructor; [|constructor]. rewrite Hf, Hc. split; [|by split].
  simpl. intros [H|[]]. discriminate H.
Qed.

Lemma registry_one_class (cl : class_id) (m : repr_fun) :
  NoDup (map fst [(cl, m)]).
Proof. apply NoDup_cons. split; [apply not_elem_of_nil | apply NoDup_nil_2]. Qed.

Lemma eq_repr_hash_witness :
  fst (py_eq example_repr 1 world_two_points (VRef 1) (VRef 2)) = Return true
  /\ fst (py_hash example_hash example_repr world_two_points 1)
     = fst (py_hash example_hash example_repr world_two_points 2).
Proof.
  assert (H1 : heap world_two_points !! 1 = Some (point true None 1 2))
    by (vm_compute; reflexivity).
  assert (H2 : heap world_two_points !! 2 = Some (point true None 1 2))
    by (vm_compute; reflexivity).
  assert (H3 : classes world_two_points !! "Point" = Some Point_obj)
    by (vm_compute; reflexivity).
  assert (H4 : In "CCLAutoreprObject" (c_bases Point_obj)) by (simpl; by left).
  assert (H5 : class_getattr c___repr_attrs__ world_two_points "Point" = Some ["a"; "b"])
    by (vm_compute; reflexivity).
  assert (H6 : class_getattr c___eq_attrs__ world_two_points "Point" = None)
    by (vm_compute; reflexivity).
  assert (H7 : fst (py_repr example_repr world_two_points 1) = Return (Point_repr "1" "2"))
    by (vm_compute; reflexivity).
  assert (H8 : fst (py_repr example_repr world_two_points 2) = Return (Point_repr "1" "2"))
    by (vm_compute; reflexivity).
  destruct (eq_repr_hash example_hash example_repr 0 world_two_points 1 2
              (point true None 1 2) (point true None 1 2) Point_obj ["a"; "b"]
              (Point_repr "1" "2") (Point_repr "1" "2")
              H1 H2 eq_refl H3 H4 H5 H6 H7 H8)
    as (b & Hb & Hiff & Hhash).
  split.
  - rewrite Hb. f_equal. by apply Hiff.
  - apply Hhash; [| |reflexivity].
    + intros x v Hx Hv. rewrite H1 in Hx. injection Hx as <-.
      vm_compute in Hv. discriminate Hv.
    + intros x v Hx Hv. rewrite H2 in Hx. injection Hx as <-.
      vm_compute in Hv. discriminate Hv.
Defined.

(** C1, as stated, fails.  [p1] and [p2] are two instances of [Point] with
    the same attribute values; their hashes are read, then the registry is
    disabled.  The representations are now the two default strings, which
    differ, and [p1 == p2] is [False], while [hash(p1)] and [hash(p2)] are
    still the equal cached numbers. *)
Lemma eq_repr_hash_counterexample :
  ~ (forall (str_hash : string -> Z) (value_repr : value -> string) (w : world)
            (rx ry : addr) (x y : ccl_object) (co : class_obj)
            (attrs : list string) (b : bool) (sx sy : string) (hx hy : Z),
       heap w !! rx = Some x -> heap w !! ry = Some y ->
       i_class x = i_class y ->
       classes w !! i_class x = Some co ->
       In "CCLAutoreprObject" (c_bases co) ->
       class_getattr c___repr_attrs__ w (i_class x) = Some attrs ->
       class_getattr c___eq_attrs__ w (i_class x) = None ->
       fst (py_eq value_repr 1 w (VRef rx) (VRef ry)) = Return b ->
       fst (py_repr value_repr w rx) = Return sx ->
       fst (py_repr value_repr w ry) = Return sy ->
       fst (py_hash str_hash value_repr w rx) = Return hx ->
       fst (py_hash str_hash value_repr w ry) = Return hy ->
       (b = true <-> sx = sy) /\ (sx = sy <-> hx = hy)).
Proof.
  intros H.
  pose (d := <["_hash" := VInt 10043140512527525635]>
               (<["_repr" := VStr (Point_repr "1" "2")]>
                  (<["b" := VInt 2]> (<["a" := VInt 1]> (∅ : gmap string value))))).
  assert (H1 : heap world_stale !! 1 = Some (Instance "Point" (ObjectLock.mk true None) d))
    by (vm_compute; reflexivity).
  assert (H2 : heap world_stale !! 2 = Some (Instance "Point" (ObjectLock.mk true None) d))
    by (vm_compute; reflexivity).
  assert (H3 : classes world_stale !! "Point" = Some Point_obj)
    by (vm_compute; reflexivity).
  assert (H4 : In "CCLAutoreprObject" (c_bases Point_obj)) by (simpl; by left).
  assert (H5 : class_getattr c___repr_attrs__ world_stale "Point" = Some ["a"; "b"])
    by (vm_compute; reflexivity).
  assert (H6 : class_getattr c___eq_attrs__ world_stale "Point" = None)
    by (vm_compute; reflexivity).
  assert (H7 : fst (py_eq example_repr 1 world_stale (VRef 1) (VRef 2)) = Return false)
    by (vm_compute; reflexivity).
  assert (H8 : fst (py_repr example_repr world_stale 1) = Return "<Point object at 0x1>")
    by (vm_compute; reflexivity).
  assert (H9 : fst (py_repr example_repr world_stale 2) = Return "<Point object at 0x2>")
    by (vm_compute; reflexivity).
  assert (H10 : fst (py_hash example_hash example_repr world_stale 1)
                = Return 10043140512527525635) by (vm_compute; reflexivity).
  assert (H11 : fst (py_hash example_hash example_repr world_stale 2)
                = Return 10043140512527525635) by (vm_compute; reflexivity).
  destruct (H example_hash example_repr world_stale 1 2 _ _ Point_obj ["a"; "b"]
              false _ _ _ _ H1 H2 eq_refl H3 H4 H5 H6 H7 H8 H9 H10 H11)
    as [_ [_ Hback]].
  specialize (Hback eq_refl). discriminate Hback.
Qed.

Lemma eq_other_type_false_witness :
  py_eq example_repr 1 world_mixed (VRef 1) (VRef 3) = (Return false, world_mixed)
  /\ py_eq example_repr 1 world_mixed (VRef 1) (VInt 1) = (Return false, world_mixed).
Proof.
  assert (H1 : heap world_mixed !! 1 = Some (point true None 1 2))
    by (vm_compute; reflexivity).
  split.
  - apply (eq_other_type_false example_repr (py_eq example_repr 0) world_mixed 1
             (point true None 1 2) (VRef 3) H1).
    vm_compute. discriminate.
  - apply (eq_other_type_false example_repr (py_eq example_repr 0) world_mixed 1
             (point true None 1 2) (VInt 1) H1).
    vm_compute. discriminate.
Defined.

Lemma fancy_repr_toggle_witness :
  py_repr example_repr (FancyRepr.disable world_hashed) 1
    = (Return "<Point object at 0x1>", FancyRepr.disable world_hashed)
  /\ py_repr example_repr (FancyRepr.enable (FancyRepr.disable world_hashed)) 1
     = (Return (Point_repr "1" "2"), FancyRepr.enable (FancyRepr.disable world_hashed)).
Proof.
  pose (d := <["_hash" := VInt 10043140512527525635]>
               (<["_repr" := VStr (Point_repr "1" "2")]>
                  (<["b" := VInt 2]> (<["a" := VInt 1]> (∅ : gmap string value))))).
  pose (x := Instance "Point" (ObjectLock.mk true None) d).
  pose (co := ClassObj ["CCLObject"] (Some ccl_repr_f) (Some autorepr_f) None None).
  pose (co' := ClassObj ["CCLObject"] (Some object_repr_f) (Some autorepr_f) None None).
  assert (Hf : fancy_classes world_hashed = [("CCLAutoreprObject", autorepr_f)])
    by (vm_compute; reflexivity).
  assert (Hf' : fancy_classes (FancyRepr.disable world_hashed)
                = [("CCLAutoreprObject", autorepr_f)]) by (vm_compute; reflexivity).
  assert (Hx : heap world_hashed !! 1 = Some x) by (vm_compute; reflexivity).
  assert (Hx' : heap (FancyRepr.disable world_hashed) !! 1 = Some x)
    by (vm_compute; reflexivity).
  assert (Hco : classes world_hashed !! "CCLAutoreprObject" = Some co)
    by (vm_compute; reflexivity).
  assert (Hco' : classes (FancyRepr.disable world_hashed) !! "CCLAutoreprObject" = Some co')
    by (vm_compute; reflexivity).
  assert (Hp : classes world_hashed !! "Point" = Some Point_obj)
    by (vm_compute; reflexivity).
  assert (Hp' : classes (FancyRepr.disable world_hashed) !! "Point" = Some Point_obj)
    by (vm_compute; reflexivity).
  split.
  - refine (proj1 (fancy_repr_toggle example_repr world_hashed "CCLAutoreprObject"
                     autorepr_f co 1 x _ _ Hco Hx (Point_inherits _ Hp Hf))).
    + rewrite Hf. apply registry_one_class.
    + rewrite Hf. by left.
  - refine (proj2 (proj2 (fancy_repr_toggle example_repr (FancyRepr.disable world_hashed)
                     "CCLAutoreprObject" autorepr_f co' 1 x _ _ Hco' Hx'
                     (Point_inherits _ Hp' Hf')))).
    + rewrite Hf'. apply registry_one_class.
    + rewrite Hf'. by left.
Defined.

(** C6, as stated, fails on [CCLAutoreprObject] itself, which is in the
    registry: without [__repr_attrs__] its own [__repr__] returns
    [object.__repr__(self)], so after [disable] the representation of an
    instance is the same string as its custom representation. *)
Lemma fancy_repr_toggle_counterexample :
  ~ (forall (value_repr : value -> string) (w : world) (cl : class_id)
            (m : repr_fun) (co : class_obj) (r : addr) (x : ccl_object),
       NoDup (map fst (fancy_classes w)) ->
       In (cl, m) (fancy_classes w) ->
       classes w !! cl = Some co ->
       heap w !! r = Some x ->
       i_class x = cl ->
       fst (py_repr value_repr (FancyRepr.disable w) r) <> call_repr_fun value_repr m w r x).
Proof.
  intros H.
  assert (Hf : fancy_classes world_default = [("CCLAutoreprObject", autorepr_f)])
    by (vm_compute; reflexivity).
  apply (H example_repr world_default "CCLAutoreprObject" autorepr_f
           (ClassObj ["CCLObject"] (Some ccl_repr_f) (Some autorepr_f) None None)
           1 (Instance "CCLAutoreprObject" ObjectLock.new ∅)).
  - rewrite Hf. apply registry_one_class.
  - rewrite Hf. by left.
  - vm_compute. reflexivity.
  - vm_compute. reflexivity.
  - reflexivity.
  - vm_compute. reflexivity.
Qed.

Lemma toggle_keeps_cached_hash_witness :
  py_hash example_hash example_repr (FancyRepr.disable world_hashed) 1
    = (Return 10043140512527525635, FancyRepr.disable world_hashed)
  /\ fst (py_repr example_repr (FancyRepr.disable world_hashed) 1)
     = Return "<Point object at 0x1>"
  /\ fst (py_hash example_hash example_repr (FancyRepr.disable world_hashed) 1)
     <> Return (example_hash "<Point object at 0x1>").
Proof.
  pose (d := <["_hash" := VInt 10043140512527525635]>
               (<["_repr" := VStr (Point_repr "1" "2")]>
                  (<["b" := VInt 2]> (<["a" := VInt 1]> (∅ : gmap string value))))).
  pose (x := Instance "Point" (ObjectLock.mk true None) d).
  pose (co := ClassObj ["CCLObject"] (Some ccl_repr_f) (Some autorepr_f) None None).
  assert (Hf : fancy_classes world_hashed = [("CCLAutoreprObject", autorepr_f)])
    by (vm_compute; reflexivity).
  assert (Hx : heap world_hashed !! 1 = Some x) by (vm_compute; reflexivity).
  assert (Hh : i_dict x !! "_hash" = Some (VInt 10043140512527525635))
    by (vm_compute; reflexivity).
  assert (Hco : classes world_hashed !! "CCLAutoreprObject" = Some co)
    by (vm_compute; reflexivity).
  assert (Hp : classes world_hashed !! "Point" = Some Point_obj)
    by (vm_compute; reflexivity).
  assert (Hin : In ("CCLAutoreprObject", autorepr_f) (fancy_classes world_hashed))
    by (rewrite Hf; by left).
  assert (Hr : i_dict x !! "_repr" = Some (VStr (Point_repr "1" "2")))
    by (vm_compute; reflexivity).
  assert (Hs : 10043140512527525635 = example_hash (Point_repr "1" "2"))
    by (vm_compute; reflexivity).
  destruct (toggle_keeps_cached_hash example_hash example_repr world_hashed 1 x
              10043140512527525635 Hx Hh) as (_ & _ & Hd & _ & Hdiff).
  destruct (Hdiff "CCLAutoreprObject" autorepr_f co (Point_repr "1" "2")
              Hin Hco (Point_inherits _ Hp Hf) Hr Hs) as (Hrepr & Hne & _).
  split; [exact Hd|]. split; [exact Hrepr|].
  apply Hne. vm_compute. discriminate.
Defined.

(** ** Cache reset at scope exit *)

(** When the representation is cached, the exit of the mutating scope that
    holds the lock removes both caches and locks the instance. *)
Lemma exit_clears_caches (w : world) (r : addr) (x : ccl_object) (i : Z) (v : value) :
  heap w !! r = Some x ->
  _object_lock x = ObjectLock.mk false (Some i) ->
  i_dict x !! "_repr" = Some v ->
  exists x', heap (UnlockInstance.__exit__ (UnlockInstance.__init__ i w (VRef r) true) w) !! r
             = Some x'
    /\ _object_lock x' = ObjectLock.mk true None
    /\ i_dict x' !! "_repr" = None /\ i_dict x' !! "_hash" = None.
Proof.
  intros Hx Hl Hr. rewrite (init_on_instance w r x Hx).
  rewrite (exit_owner w r x Hx); [|done|done|by rewrite Hl].
  rewrite heap_store. eexists. split; [reflexivity|]. simpl.
  destruct (reset_repr_present _ _ Hr) as (H1 & H2 & _). by repeat split.
Qed.

(** When only the hash is cached, the same exit leaves it where it is. *)
Lemma exit_keeps_lone_hash (w : world) (r : addr) (x : ccl_object) (i : Z) (v : value) :
  heap w !! r = Some x ->
  _object_lock x = ObjectLock.mk false (Some i) ->
  i_dict x !! "_repr" = None ->
  i_dict x !! "_hash" = Some v ->
  exists x', heap (UnlockInstance.__exit__ (UnlockInstance.__init__ i w (VRef r) true) w) !! r
             = Some x'
    /\ _object_lock x' = ObjectLock.mk true None
    /\ i_dict x' !! "_hash" = Some v.
Proof.
  intros Hx Hl Hr Hh. rewrite (init_on_instance w r x Hx).
  rewrite (exit_owner w r x Hx); [|done|done|by rewrite Hl].
  rewrite heap_store. eexists. split; [reflexivity|]. simpl.
  by rewrite (reset_repr_absent _ Hr).
Qed.


(** C4 at its failing input, for any string hash and any rendering of
    values.
    [[
    FancyRepr.disable(); h = hash(p1); FancyRepr.enable()
    p1.update_parameters(5, 6)
    ]]
    The hash is cached while [repr] is the uncached default, so [_hash] is
    in the [__dict__] without [_repr].  The mutation is committed and the
    instance is locked again, but [delattr(_repr)] raises inside the [try]
    and [delattr(_hash)] never runs: the old hash is still cached and is what
    [hash(p1)] returns, while [repr(p1)] shows the new values. *)
Theorem mutating_exit_keeps_stale_hash (str_hash : string -> Z)
    (value_repr : value -> string) :
  let w1 := FancyRepr.disable world_two_points in
  let w2 := snd (py_hash str_hash value_repr w1 1) in
  let w3 := FancyRepr.enable w2 in
  let w4 := snd (f_call Point_update_wrapped [VRef 1; VInt 5; VInt 6] [] w3) in
  heap w3 !! 1
    = Some (Instance "Point" (ObjectLock.mk true None)
              (<["_hash" := VInt (str_hash "<Point object at 0x1>")]>
                 (<["b" := VInt 2]> (<["a" := VInt 1]> ∅))))
  /\ fst (f_call Point_update_wrapped [VRef 1; VInt 5; VInt 6] [] w3) = Return VNone
  /\ heap w4 !! 1
     = Some (Instance "Point" (ObjectLock.mk true None)
               (<["_hash" := VInt (str_hash "<Point object at 0x1>")]>
                  (<["b" := VInt 6]> (<["a" := VInt 5]> ∅))))
  /\ fst (py_hash str_hash value_repr w4 1)
     = Return (str_hash "<Point object at 0x1>")
  /\ fst (py_repr value_repr w4 1)
     = Return (Point_repr (value_repr (VInt 5)) (value_repr (VInt 6))).
Proof.
  repeat split; vm_compute; reflexivity.
Qed.

(** ** Argument binding *)

Lemma assoc_app_l {A} (k : string) (l l' : list (string * A)) (a : A) :
  assoc k l = Some a -> assoc k (l ++ l') = Some a.
Proof.
  induction l as [|[k' a'] l IH]; simpl; [done|].
  destruct (String.eqb k k'); [done | exact IH].
Qed.

Lemma bind_kwargs_keeps (ps : list param) (kwargs bound b2 : list (string * value))
    (k : string) (a : value) :
  bind_kwargs ps bound kwargs = Return b2 ->
  assoc k bound = Some a -> assoc k b2 = Some a.
Proof.
  revert bound. induction kwargs as [|[k' v] kwargs IH]; intros bound; simpl.
  - by intros [= <-].
  - destruct (is_some (assoc k' (map (fun p => (p_name p, p)) ps))
              && negb (is_some (assoc k' bound))); [|discriminate].
    intros H Ha. apply (IH _ H). by apply assoc_app_l.
Qed.

(** The first positional argument is bound to the first parameter. *)
Lemma bind_first (p : param) (ps : list param) (a : value) (args : list value)
    (kwargs bound : list (string * value)) :
  bind (p :: ps) (a :: args) kwargs = Return bound ->
  assoc (p_name p) bound = Some a.
Proof.
  unfold bind. simpl. destruct (p_kind p); [|discriminate].
  destruct (bind_args ps args) as [b|]; [|discriminate].
  destruct (bind_kwargs (p :: ps) ((p_name p, a) :: b) kwargs) as [b2|] eqn:Hk;
    [|discriminate].
  assert (Ha : assoc (p_name p) b2 = Some a).
  { apply (bind_kwargs_keeps _ _ _ _ _ _ Hk). simpl. by rewrite String.eqb_refl. }
  rewrite Ha. simpl.
  destruct (_ && _); [|discriminate]. intros [= <-].
  simpl. by rewrite String.eqb_refl.
Qed.

(** ** Construction *)

Lemma unlock_instance_func_inv (func g : pyfunc) (name : option string)
    (mutate : bool) :
  unlock_instance_func func name mutate = Return g ->
  exists n, target_name func name = Some n
    /\ n ∈ map p_name (signature func)
    /\ g = PyFunc (f___name__ func) (f_params func) (Some (signature func))
             (wrapper (PyFunc (f___name__ func) (f_params func)
                              (Some (signature func)) (f_call func))
                      n mutate).
Proof.
  unfold unlock_instance_func, target_name.
  destruct name as [n|].
  - destruct (decide (n ∈ map p_name (signature func))) as [Hin|Hin].
    + rewrite bool_decide_eq_true_2 by done. simpl. intros [= <-]. by exists n.
    + rewrite bool_decide_eq_false_2 by done. done.
  - destruct (map p_name (signature func)) as [|n names] eqn:E; [done|].
    rewrite bool_decide_eq_true_2 by apply list_elem_of_here. simpl.
    intros [= <-]. exists n. split; [done|]. split; [apply list_elem_of_here | done].
Qed.

Lemma wrapper_call (func : pyfunc) (n : string) (mutate : bool)
    (args : list value) (kwargs bound : list (string * value)) (w : world)
    (inst : value) :
  bind (signature func) args kwargs = Return bound ->
  assoc n bound = Some inst ->
  wrapper func n mutate args kwargs w
  = UnlockInstance.with_ (UnlockInstance.__init__ (manager_id w inst) w inst mutate)
      (f_call func args kwargs) w.
Proof. intros H1 H2. unfold wrapper. by rewrite H1, H2. Qed.

(** C2 (as amended).  Let [g] be what [__init_subclass__] puts in place of
    a constructor [f] (the wrapper with [mutate=False]).  When the arguments
    bind, and the body of [f], run on the new instance inside the scope,
    returns and leaves the lock of the instance alone, calling the class
    returns the new instance locked, with the attributes the body gave it;
    and on a locked instance every attribute assignment raises
    [AttributeError] and changes nothing. *)
Theorem construct_locks (cls : class_id) (f g : pyfunc) (r : addr)
    (args : list value) (kwargs bound : list (string * value)) (w w2 : world)
    (v0 : value) :
  Funlock (Some f) false = Return (Some g) ->
  bind (signature f) (VRef r :: args) kwargs = Return bound ->
  f_call f (VRef r :: args) kwargs
         (store w r (Instance cls (ObjectLock.mk false (Some 0)) ∅))
    = (Return v0, w2) ->
  _object_lock <$> heap w2 !! r = Some (ObjectLock.mk false (Some 0)) ->
  exists w',
    construct cls (Some g) r args kwargs w = (Return (VRef r), w')
    /\ _object_lock <$> heap w' !! r = Some (ObjectLock.mk true None)
    /\ i_dict <$> heap w' !! r = i_dict <$> heap w2 !! r
    /\ forall name val, __setattr__ w' r name val = (Raise AttributeError, w').
Proof.
  intros Hg Hbind Hbody Hlock.
  assert (Hg' : unlock_instance_func f None false = Return g).
  { unfold Funlock in Hg. simpl in Hg.
    destruct (unlock_instance_func f None false) as [g0|e];
      [by injection Hg as -> | discriminate Hg]. }
  destruct (unlock_instance_func_inv _ _ _ _ Hg') as (n & Hn & _ & ->).
  simpl in Hn. destruct (signature f) as [|p ps] eqn:Hsig; [done|].
  simpl in Hn. injection Hn as <-.
  pose proof (bind_first _ _ _ _ _ _ Hbind) as Hself.
  destruct (heap w2 !! r) as [x2|] eqn:Hx2; [|done].
  cbn in Hlock. injection Hlock as Hlock.
  set (x0 := Instance cls ObjectLock.new ∅).
  assert (Hx0 : heap (__new__ cls r w) !! r = Some x0) by apply heap_store.
  assert (Henter : UnlockInstance.__enter__
                     (UnlockInstance.__init__ 0 (__new__ cls r w) (VRef r) false)
                     (__new__ cls r w)
                   = store w r (Instance cls (ObjectLock.mk false (Some 0)) ∅)).
  { rewrite (init_on_instance _ r x0 Hx0).
    rewrite (enter_free _ r x0 Hx0) by done.
    unfold __new__, store, set_heap. simpl. by rewrite insert_insert_eq. }
  exists (store w2 r (Instance (i_class x2) (ObjectLock.mk true None) (i_dict x2))).
  split; [|split; [|split]].
  - unfold construct. cbn [f_call].
    rewrite (wrapper_call _ _ _ _ _ bound _ (VRef r)); [|exact Hbind|exact Hself].
    cbn [f_call]. unfold manager_id. rewrite Hx0. cbn [ObjectLock._lock_id ObjectLock.new _object_lock x0].
    unfold UnlockInstance.with_. rewrite Henter, Hbody.
    rewrite (init_on_instance _ r x0 Hx0).
    rewrite (exit_owner w2 r x2 Hx2); [done|done|done|by rewrite Hlock].
  - by rewrite heap_store.
  - by rewrite heap_store.
  - intros name val. unfold __setattr__. by rewrite heap_store.
Qed.


Lemma construct_locks_witness :
  exists w',
    construct "Point" (Some Point_init_wrapped) 1 [VInt 1; VInt 2] [] world_Point
      = (Return (VRef 1), w')
    /\ _object_lock <$> heap w' !! 1 = Some (ObjectLock.mk true None)
    /\ i_dict <$> heap w' !! 1 = Some (<["b" := VInt 2]> (<["a" := VInt 1]> ∅))
    /\ __setattr__ w' 1 "a" (VInt 5) = (Raise AttributeError, w').
Proof.
  pose (w1 := store world_Point 1 (Instance "Point" (ObjectLock.mk false (Some 0)) ∅)).
  pose (res := f_call Point___init__ [VRef 1; VInt 1; VInt 2] [] w1).
  assert (Hres : res = (Return VNone, snd res)).
  { assert (H : fst res = Return VNone) by (vm_compute; reflexivity).
    rewrite <- H. by destruct res. }
  destruct (construct_locks "Point" Point___init__ Point_init_wrapped 1
              [VInt 1; VInt 2] []
              [("self", VRef 1); ("a", VInt 1); ("b", VInt 2)] world_Point
              (snd res) VNone)
    as (w' & Hc & Hl & Hd & Hset).
  - reflexivity.
  - vm_compute. reflexivity.
  - exact Hres.
  - vm_compute. reflexivity.
  - exists w'. split; [exact Hc|]. split; [exact Hl|]. split; [|apply Hset].
    rewrite Hd. vm_compute. reflexivity.
Defined.

(** C2, as stated, fails for a class without a constructor of its own, such
    as [MyType] of the tests: [Funlock] finds no [__init__] in the class body
    and wraps nothing, [object.__init__] runs, and the instance comes back
    with the lock it was created with, unlocked; an attribute assignment
    outside of any scope then succeeds. *)
Lemma construct_without_init_counterexample :
  fst (define_class "MyType" ["CCLObject"] None None None None None world0)
    = Return (None, None)
  /\ fst (construct "MyType" None 1 [] [] world_MyType) = Return (VRef 1)
  /\ _object_lock <$> heap (snd (construct "MyType" None 1 [] [] world_MyType)) !! 1
     = Some (ObjectLock.mk false None)
  /\ fst (__setattr__ (snd (construct "MyType" None 1 [] [] world_MyType)) 1
                      "test" (VInt 1)) = Return tt
  /\ i_dict <$> heap (snd (__setattr__ (snd (construct "MyType" None 1 [] [] world_MyType))
                                       1 "test" (VInt 1))) !! 1
     = Some {[ "test" := VInt 1 ]}.
Proof.
  repeat split; vm_compute; reflexivity.
Qed.

(** ** The wrapper *)

(** C9 (as amended).  Let [g] be the wrapper of [func] for the parameter
    [n].  When the arguments bind and give [n] a value [inst], a call of [g]
    returns (or raises) exactly what [func] returns (or raises) on the same
    arguments when it is run inside the scope, that is, in the store in which
    [inst] has been unlocked; the store after the call is the one [func]
    left, after the exit of the scope.  When [inst] is not an instance of
    [CCLObject], the call of [g] is the call of [func], result and store; and
    when [inst] is already inside an active scope, the result is the one of
    [func] on the store of the call. *)
Theorem wrapper_runs_in_scope (func g : pyfunc) (name : option string)
    (mutate : bool) (n : string) (args : list value)
    (kwargs bound : list (string * value)) (w : world) (inst : value) :
  unlock_instance_func func name mutate = Return g ->
  target_name func name = Some n ->
  bind (signature func) args kwargs = Return bound ->
  assoc n bound = Some inst ->
  let S := UnlockInstance.__init__ (manager_id w inst) w inst mutate in
  let w1 := UnlockInstance.__enter__ S w in
  f_call g args kwargs w
    = (fst (f_call func args kwargs w1),
       UnlockInstance.__exit__ S (snd (f_call func args kwargs w1)))
  /\ (isinstance_CCLObject w inst = false ->
      f_call g args kwargs w = f_call func args kwargs w)
  /\ (forall r x, inst = VRef r -> heap w !! r = Some x ->
        ObjectLock.active (_object_lock x) = true ->
        fst (f_call g args kwargs w) = fst (f_call func args kwargs w)).
Proof.
  intros Hg Hn Hbind Hinst S w1.
  destruct (unlock_instance_func_inv _ _ _ _ Hg) as (n' & Hn' & _ & ->).
  assert (n' = n) as -> by congruence.
  assert (Hcall : f_call (PyFunc (f___name__ func) (f_params func)
                            (Some (signature func))
                            (wrapper (PyFunc (f___name__ func) (f_params func)
                                        (Some (signature func)) (f_call func))
                                     n mutate)) args kwargs w
                  = (fst (f_call func args kwargs w1),
                     UnlockInstance.__exit__ S (snd (f_call func args kwargs w1)))).
  { cbn [f_call].
    rewrite (wrapper_call _ _ _ _ _ bound _ inst); [|exact Hbind|exact Hinst].
    cbn [f_call]. unfold UnlockInstance.with_. fold S. fold w1.
    by destruct (f_call func args kwargs w1). }
  split; [exact Hcall|]. split.
  - intros Hno. rewrite Hcall. unfold w1, S, UnlockInstance.__init__.
    rewrite Hno. unfold UnlockInstance.__enter__, UnlockInstance.__exit__. simpl.
    by destruct (f_call func args kwargs w).
  - intros r x -> Hx Ha. rewrite Hcall. simpl. unfold w1, S.
    rewrite (init_on_instance w r x Hx).
    by rewrite (enter_active w r x Hx).
Qed.

(** [Point.update_parameters] called on the locked [p1] raises at the first
    assignment; through the wrapper it returns [None]. *)
Lemma wrapper_runs_in_scope_witness :
  fst (f_call Point_update_wrapped [VRef 1; VInt 5; VInt 6] [] world_two_points)
    = Return VNone
  /\ f_call Point_update_wrapped [VInt 0; VInt 5; VInt 6] [] world_two_points
     = f_call Point_update_parameters [VInt 0; VInt 5; VInt 6] [] world_two_points.
Proof.
  split.
  - destruct (wrapper_runs_in_scope Point_update_parameters Point_update_wrapped
                None true "self" [VRef 1; VInt 5; VInt 6] []
                [("self", VRef 1); ("a", VInt 5); ("b", VInt 6)]
                world_two_points (VRef 1)) as (H & _).
    + reflexivity.
    + reflexivity.
    + vm_compute. reflexivity.
    + reflexivity.
    + rewrite H. vm_compute. reflexivity.
  - destruct (wrapper_runs_in_scope Point_update_parameters Point_update_wrapped
                None true "self" [VInt 0; VInt 5; VInt 6] []
                [("self", VInt 0); ("a", VInt 5); ("b", VInt 6)]
                world_two_points (VInt 0)) as (_ & H & _).
    + reflexivity.
    + reflexivity.
    + vm_compute. reflexivity.
    + reflexivity.
    + by apply H.
Defined.

(** C9, as stated, fails: on the locked [p1] the function
    [Point.update_parameters] raises [AttributeError], and its wrapper
    returns [None]. *)
Lemma wrapper_transparent_counterexample :
  ~ (forall (func g : pyfunc) (name : option string) (mutate : bool)
            (args : list value) (kwargs bound : list (string * value)) (w : world),
       unlock_instance_func func name mutate = Return g ->
       bind (signature func) args kwargs = Return bound ->
       fst (f_call g args kwargs w) = fst (f_call func args kwargs w)).
Proof.
  intros H.
  specialize (H Point_update_parameters Point_update_wrapped None true
                [VRef 1; VInt 5; VInt 6] []
                [("self", VRef 1); ("a", VInt 5); ("b", VInt 6)]
                world_two_points eq_refl).
  assert (Hb : bind (signature Point_update_parameters) [VRef 1; VInt 5; VInt 6] []
               = Return [("self", VRef 1); ("a", VInt 5); ("b", VInt 6)])
    by (vm_compute; reflexivity).
  specialize (H Hb).
  assert (H1 : fst (f_call Point_update_wrapped [VRef 1; VInt 5; VInt 6] [] world_two_points)
               = Return VNone) by (vm_compute; reflexivity).
  assert (H2 : fst (f_call Point_update_parameters [VRef 1; VInt 5; VInt 6] [] world_two_points)
               = Raise AttributeError) by (vm_compute; reflexivity).
  rewrite H1, H2 in H. discriminate H.
Qed.


(** A parameter that has a default and is left out of the call is not
    among the bound arguments: the wrapper raises [KeyError] before the
    function is called, and the function alone returns. *)
Lemma wrapper_default_target :
  exists g, unlock_instance_func with_default (Some "cosmo") true = Return g
    /\ fst (f_call g [VInt 1] [] world0) = Raise KeyError
    /\ fst (f_call with_default [VInt 1] [] world0) = Return (VInt 1).
Proof.
  eexists. split; [reflexivity|]. split; vm_compute; reflexivity.
Qed.

(** ** Threads *)

(** A thread that runs alone goes through [__enter__] and [__exit__] as
    defined above. *)
Lemma single_thread_enter (w : world) (self : UnlockInstance.t) :
  exists k b,
    Threads.run (replicate k 0%nat)
                (Threads.Machine w [Threads.Thread self Threads.BeforeEnter false] ∅)
    = Some (Threads.Machine (UnlockInstance.__enter__ self w)
                            [Threads.Thread self Threads.Body b] ∅).
Proof.
  unfold UnlockInstance.__enter__.
  destruct (UnlockInstance.check_instance self) eqn:Hc; simpl.
  2: { exists 1%nat, false. simpl. unfold Threads.step. simpl. by rewrite Hc. }
  destruct (UnlockInstance.the_lock self w) as [[r x]|] eqn:Hl.
  2: { exists 2%nat, false. simpl. unfold Threads.step at 1. simpl. rewrite Hc. simpl.
       unfold Threads.acquire. simpl. rewrite lookup_empty.
       unfold Threads.step. simpl. rewrite Hl. unfold Threads.update, Threads.release. simpl.
       by rewrite delete_insert_eq, delete_empty. }
  destruct (ObjectLock.active (_object_lock x)) eqn:Ha.
  - exists 2%nat, false. simpl. unfold Threads.step at 1. simpl. rewrite Hc. simpl.
    unfold Threads.acquire. simpl. rewrite lookup_empty.
    unfold Threads.step. simpl. rewrite Hl, Ha. unfold Threads.update, Threads.release. simpl.
    by rewrite delete_insert_eq, delete_empty.
  - exists 3%nat, true. simpl. unfold Threads.step at 1. simpl. rewrite Hc. simpl.
    unfold Threads.acquire. simpl. rewrite lookup_empty.
    unfold Threads.step at 1. simpl. rewrite Hl, Ha. 
    unfold Threads.step. simpl. rewrite Hl. unfold Threads.update, Threads.release. simpl.
    by rewrite delete_insert_eq, delete_empty.
Qed.

Lemma single_thread_exit (w : world) (self : UnlockInstance.t) (b : bool) :
  exists k,
    Threads.run (replicate k 0%nat)
                (Threads.Machine w [Threads.Thread self Threads.Body b] ∅)
    = Some (Threads.Machine (UnlockInstance.__exit__ self w)
                            [Threads.Thread self Threads.Finished false] ∅).
Proof.
  unfold UnlockInstance.__exit__.
  destruct (UnlockInstance.check_instance self) eqn:Hc; simpl.
  2: { exists 1%nat. simpl. unfold Threads.step. simpl. by rewrite Hc. }
  destruct (UnlockInstance.the_lock self w) as [[r x]|] eqn:Hl.
  2: { exists 1%nat. simpl. unfold Threads.step. simpl. by rewrite Hc, Hl. }
  destruct (bool_decide (Some (UnlockInstance.id self)
                         = ObjectLock._lock_id (_object_lock x))) eqn:Hid; simpl.
  - exists 3%nat. simpl. unfold Threads.step at 1. simpl. rewrite Hc, Hl, Hid. simpl.
    unfold Threads.step at 1. simpl.
    unfold Threads.acquire. simpl. rewrite lookup_empty.
    unfold Threads.step. simpl. rewrite Hl.
    unfold Threads.update, Threads.release. simpl.
    by rewrite delete_insert_eq, delete_empty.
  - exists 1%nat. simpl. unfold Threads.step. simpl. by rewrite Hc, Hl, Hid.
Qed.

(** C8 at its failing input.  Two threads run
    [with UnlockInstance(p1): ...] on the locked [p1], each with its own
    manager (ids 10 and 11), and alternate step by step.  Each acquires the
    lock of its own manager, so both are inside the critical section of
    [__enter__] together; both read [active] as False; both unlock.  Two
    mutation windows are open at once.  When the second thread then leaves
    its scope, the instance is locked under the first thread, whose window is
    still open: its next assignment raises.  When instead the first thread
    leaves first, its exit compares its id with the stored one, which is the
    id of the second manager, and returns: no cache is reset for what the
    first thread has written. *)
Theorem threads_two_windows :
  let m0 := Threads.spawn world_two_points (VRef 1) [10; 11] in
  (exists m, Threads.run [0; 1]%nat m0 = Some m
     /\ map Threads.at_ (Threads.m_threads m)
        = [Threads.EnterHolding; Threads.EnterHolding]
     /\ Threads.m_rlocks m = {[ 10 := 0%nat; 11 := 1%nat ]})
  /\ (exists m, Threads.run [0; 1; 0; 1; 0; 1]%nat m0 = Some m
        /\ map Threads.at_ (Threads.m_threads m) = [Threads.Body; Threads.Body]
        /\ Threads.windows m = 2%nat
        /\ _object_lock <$> heap (Threads.m_world m) !! 1
           = Some (ObjectLock.mk false (Some 11)))
  /\ (exists m, Threads.run [0; 1; 0; 1; 0; 1; 1; 1; 1]%nat m0 = Some m
        /\ map Threads.at_ (Threads.m_threads m) = [Threads.Body; Threads.Finished]
        /\ map Threads.window (Threads.m_threads m) = [true; false]
        /\ _object_lock <$> heap (Threads.m_world m) !! 1
           = Some (ObjectLock.mk true None)
        /\ fst (__setattr__ (Threads.m_world m) 1 "a" (VInt 5)) = Raise AttributeError)
  /\ (exists m, Threads.run [0; 1; 0; 1; 0; 1; 0]%nat m0 = Some m
        /\ map Threads.at_ (Threads.m_threads m) = [Threads.Finished; Threads.Body]
        /\ _object_lock <$> heap (Threads.m_world m) !! 1
           = Some (ObjectLock.mk false (Some 11))).
Proof.
  split; [|split; [|split]]; eexists; (split; [vm_compute; reflexivity|]);
    repeat split; vm_compute; reflexivity.
Qed.

(** ** Equal hashes without equal representations *)

Lemma unary_inj (n m : nat) : unary n = unary m -> n = m.
Proof.
  revert m. induction n as [|n IH]; intros [|m]; simpl; try done.
  intros [= H]. f_equal. by apply IH.
Qed.

Lemma append_empty (s : string) : s +:+ EmptyString = s.
Proof.
  induction s as [|c s IH]; [done|].
  change (String c (s +:+ EmptyString) = String c s). by rewrite IH.
Qed.

Lemma append_inv_head (s t1 t2 : string) : s +:+ t1 = s +:+ t2 -> t1 = t2.
Proof.
  induction s as [|c s IH]; [done|].
  change (String c (s +:+ t1) = String c (s +:+ t2) -> t1 = t2).
  intros [= H]. by apply IH.
Qed.

(** No function from the numbers to the numbers below [N] is injective. *)
Lemma bounded_not_injective (N : nat) (g : nat -> nat) :
  (forall i, (g i < N)%nat) -> ~ (forall i j, g i = g j -> i = j).
Proof.
  intros Hb Hinj.
  assert (Hnd : List.NoDup (List.map g (List.seq 0 (S N)))).
  { apply Finite.Injective_map_NoDup; [exact Hinj | apply List.seq_NoDup]. }
  assert (Hincl : List.incl (List.map g (List.seq 0 (S N))) (List.seq 0 N)).
  { intros y Hy. apply List.in_map_iff in Hy as (i & <- & _).
    apply List.in_seq. specialize (Hb i). lia. }
  pose proof (List.NoDup_incl_length Hnd Hincl) as Hlen.
  rewrite List.length_map, !List.length_seq in Hlen. lia.
Qed.

(** A string hash with 64-bit values, as Python's, sends two different
    strings to the same number. *)
Lemma str_hash_collides (h : string -> Z) :
  (forall s, - 2 ^ 63 <= h s < 2 ^ 63) ->
  ~ (forall s1 s2, h s1 = h s2 -> s1 = s2).
Proof.
  intros Hb Hinj.
  apply (bounded_not_injective (Z.to_nat (2 ^ 64))
           (fun n => Z.to_nat (h (unary n) + 2 ^ 63))).
  - intros i. specialize (Hb (unary i)). lia.
  - intros i j Hij. apply unary_inj, Hinj.
    pose proof (Hb (unary i)). pose proof (Hb (unary j)). lia.
Qed.

(** Whatever the string hash, as long as its values fit in 64 bits and
    the rendering of string attributes tells strings apart: it cannot be that
    any two instances of [Single], freshly built and never toggled, that have
    equal hashes have equal representations. *)
Lemma equal_hash_unequal_repr (str_hash : string -> Z)
    (value_repr : value -> string) :
  (forall s, - 2 ^ 63 <= str_hash s < 2 ^ 63) ->
  (forall a1 a2, value_repr (VStr a1) = value_repr (VStr a2) -> a1 = a2) ->
  ~ (forall a1 a2,
       fst (py_hash str_hash value_repr (world_singles a1 a2) 1)
       = fst (py_hash str_hash value_repr (world_singles a1 a2) 2) ->
       fst (py_repr value_repr (world_singles a1 a2) 1)
       = fst (py_repr value_repr (world_singles a1 a2) 2)).
Proof.
  intros Hb Hinj Hclaim.
  apply (str_hash_collides (fun a => str_hash (Single_repr (value_repr (VStr a))))).
  - intros a. apply Hb.
  - intros a1 a2 Heq. apply Hinj.
    assert (H1 : fst (py_hash str_hash value_repr (world_singles a1 a2) 1)
                 = Return (str_hash (Single_repr (value_repr (VStr a1)))))
      by (vm_compute; reflexivity).
    assert (H2 : fst (py_hash str_hash value_repr (world_singles a1 a2) 2)
                 = Return (str_hash (Single_repr (value_repr (VStr a2)))))
      by (vm_compute; reflexivity).
    assert (R1 : fst (py_repr value_repr (world_singles a1 a2) 1)
                 = Return (Single_repr (value_repr (VStr a1))))
      by (vm_compute; reflexivity).
    assert (R2 : fst (py_repr value_repr (world_singles a1 a2) 2)
                 = Return (Single_repr (value_repr (VStr a2))))
      by (vm_compute; reflexivity).
    specialize (Hclaim a1 a2). rewrite H1, H2, R1, R2 in Hclaim.
    assert (Hr : Return (A := string) (Single_repr (value_repr (VStr a1)))
                 = Return (Single_repr (value_repr (VStr a2))))
      by (apply Hclaim; simpl in Heq; by rewrite Heq).
    injection Hr as Hr. unfold Single_repr in Hr.
    repeat apply append_inv_head in Hr. by rewrite !append_empty in Hr.
Qed.

(** Two equal points, hashed, then [disable], for any string hash and any
    rendering of values: different representations, unequal points, equal
    hashes. *)
Lemma stale_hash_any_builtins (str_hash : string -> Z)
    (value_repr : value -> string) :
  let w := FancyRepr.disable
             (snd (py_hash str_hash value_repr
                     (snd (py_hash str_hash value_repr world_two_points 1)) 2)) in
  fst (py_repr value_repr w 1) = Return "<Point object at 0x1>"
  /\ fst (py_repr value_repr w 2) = Return "<Point object at 0x2>"
  /\ fst (py_eq value_repr 1 w (VRef 1) (VRef 2)) = Return false
  /\ fst (py_hash str_hash value_repr w 1)
     = Return (str_hash (Point_repr (value_repr (VInt 1)) (value_repr (VInt 2))))
  /\ fst (py_hash str_hash value_repr w 2)
     = Return (str_hash (Point_repr (value_repr (VInt 1)) (value_repr (VInt 2)))).
Proof. repeat split; vm_compute; reflexivity. Qed.

(** The constructor that [__init_subclass__] leaves in [vars(cls)] is the
    result of [Funlock] with [mutate=False]. *)
Lemma define_class_init (cls : class_id) (bases : list class_id)
    (body_repr : option repr_fun) (repr_attrs eq_attrs : option (list string))
    (body_init body_update init upd : option pyfunc) (w w' : world) :
  define_class cls bases body_repr repr_attrs eq_attrs body_init body_update w
    = (Return (init, upd), w') ->
  Funlock body_init false = Return init /\ Funlock body_update true = Return upd.
Proof.
  unfold define_class, __init_subclass__.
  destruct (Funlock body_init false) as [i|]; [|discriminate].
  destruct (Funlock body_update true) as [u|]; [|discriminate].
  by intros [= -> -> _].
Qed.

(** ** What bodies built from assignments do to locks *)

(** An attribute assignment never touches a lock. *)
Lemma setattr_keeps_locks (w : world) (r r' : addr) (name : string) (v : value) :
  _object_lock <$> heap (snd (__setattr__ w r name v)) !! r'
  = _object_lock <$> heap w !! r'.
Proof.
  unfold __setattr__. destruct (heap w !! r) as [x|] eqn:Hx; [|done].
  destruct (ObjectLock.locked (_object_lock x)); [done|]. simpl.
  destruct (decide (r = r')) as [<-|Hne].
  - by rewrite lookup_insert_eq, Hx.
  - by rewrite lookup_insert_ne.
Qed.

(** The manager that a wrapper creates on an instance inside an active
    scope has another id than the manager of that scope, so the nested
    scope is a no-op. *)
Lemma manager_id_differs (w : world) (r : addr) (x : ccl_object) (i : Z) :
  heap w !! r = Some x ->
  ObjectLock._lock_id (_object_lock x) = Some i ->
  manager_id w (VRef r) <> i.
Proof. intros Hx Hi. unfold manager_id. rewrite Hx, Hi. lia. Qed.

(** ** A function without parameters *)

(** With no name given and no parameter to fall back on, [names[0]] raises
    [IndexError] when the decorator is applied. *)
Lemma unlock_instance_no_parameters (func : pyfunc) (mutate : bool) :
  signature func = [] ->
  unlock_instance_func func None mutate = Raise IndexError.
Proof. intros H. unfold unlock_instance_func. by rewrite H. Qed.

(** * Further properties *)

(** ** The lock invariant *)

Lemma locks_ok_store (w : world) (r : addr) (x : ccl_object) :
  locks_ok w -> lock_ok (_object_lock x) -> locks_ok (store w r x).
Proof.
  intros Hw Hx r' x'. unfold store; simpl.
  destruct (decide (r = r')) as [<-|Hne].
  - rewrite lookup_insert_eq. by intros [= <-].
  - rewrite lookup_insert_ne by done. apply Hw.
Qed.

Lemma locks_ok_same (w1 w2 : world) :
  same_locks w1 w2 -> locks_ok w2 -> locks_ok w1.
Proof.
  intros Hs Hw r x Hx. specialize (Hs r). rewrite Hx in Hs.
  destruct (heap w2 !! r) as [x2|] eqn:Hx2; [|done].
  cbn in Hs. injection Hs as Hs. rewrite Hs. by apply (Hw r x2).
Qed.

Lemma same_locks_refl (w : world) : same_locks w w.
Proof. by intros r. Qed.

Lemma same_locks_trans (w1 w2 w3 : world) :
  same_locks w1 w2 -> same_locks w2 w3 -> same_locks w1 w3.
Proof. intros H1 H2 r. by rewrite H1. Qed.

(** Writing into the [__dict__] of an instance leaves every lock alone. *)
Lemma same_locks_dict (w : world) (r : addr) (x : ccl_object)
    (d : gmap string value) :
  heap w !! r = Some x -> same_locks (store w r (set_dict x d)) w.
Proof.
  intros Hx r'. unfold store; simpl. destruct (decide (r = r')) as [<-|Hne].
  - by rewrite lookup_insert_eq, Hx.
  - by rewrite lookup_insert_ne.
Qed.

Lemma same_locks_dict_write (w : world) (r : addr) (k : string) (v : value) :
  same_locks (dict_write w r k v) w.
Proof.
  unfold dict_write. destruct (heap w !! r) as [x|] eqn:Hx.
  - by apply same_locks_dict.
  - apply same_locks_refl.
Qed.

Section LocksRepr.

Variable str_hash : string -> Z.
Variable value_repr : value -> string.

Lemma same_locks_repr (w : world) (r : addr) :
  same_locks (snd (py_repr value_repr w r)) w.
Proof.
  destruct (py_repr value_repr w r) as [o w1] eqn:E.
  destruct (py_repr_effect _ _ _ _ _ E)
    as [->|(x & s & Hx & _ & _ & _ & ->)]; simpl.
  - apply same_locks_refl.
  - by apply same_locks_dict.
Qed.

Lemma same_locks_hash (w : world) (r : addr) :
  same_locks (snd (py_hash str_hash value_repr w r)) w.
Proof.
  unfold py_hash, get__hash. destruct (heap w !! r) as [x|] eqn:Hx;
    [|apply same_locks_refl].
  destruct (i_dict x !! "_hash") as [v|].
  { destruct v; apply same_locks_refl. }
  pose proof (same_locks_repr w r) as Hr.
  destruct (py_repr value_repr w r) as [[s|e] w1]; simpl in *; [|exact Hr].
  eapply same_locks_trans; [apply same_locks_dict_write | exact Hr].
Qed.

(** X1.  In every store that the operations of the module build, a locked
    lock holds no manager id: entering and leaving a scope, assigning an
    attribute, creating an instance, reading a representation or a hash and
    toggling the registry all keep this, and so does a [with] block, a
    wrapped call and a construction whose body keeps it. *)
Theorem locks_ok_preserved (w : world) (self : UnlockInstance.t) (r : addr)
    (name : string) (v : value) (cls : class_id) :
  locks_ok w ->
  locks_ok (UnlockInstance.__enter__ self w)
  /\ locks_ok (UnlockInstance.__exit__ self w)
  /\ locks_ok (snd (__setattr__ w r name v))
  /\ locks_ok (__new__ cls r w)
  /\ locks_ok (snd (py_repr value_repr w r))
  /\ locks_ok (snd (py_hash str_hash value_repr w r))
  /\ locks_ok (FancyRepr.enable w)
  /\ locks_ok (FancyRepr.disable w)
  /\ (forall (A : Type) (body : world -> outcome A * world),
        (forall w0, locks_ok w0 -> locks_ok (snd (body w0))) ->
        locks_ok (snd (UnlockInstance.with_ self body w)))
  /\ (forall (func : pyfunc) (n : string) (mutate : bool)
             (args : list value) (kwargs : list (string * value)),
        (forall w0, locks_ok w0 -> locks_ok (snd (f_call func args kwargs w0))) ->
        locks_ok (snd (wrapper func n mutate args kwargs w)))
  /\ (forall (init : pyfunc) (args : list value) (kwargs : list (string * value)),
        (forall a w0, locks_ok w0 -> locks_ok (snd (f_call init a kwargs w0))) ->
        locks_ok (snd (construct cls (Some init) r args kwargs w))).
Proof.
  intros Hw.
  assert (Henter : forall S w0, locks_ok w0 -> locks_ok (UnlockInstance.__enter__ S w0)).
  { intros S w0 H0. unfold UnlockInstance.__enter__.
    destruct (negb (UnlockInstance.check_instance S)); [done|].
    destruct (UnlockInstance.the_lock S w0) as [[r0 x0]|]; [|done].
    destruct (ObjectLock.active (_object_lock x0)); [done|].
    apply locks_ok_store; [done|]. by intros H. }
  assert (Hexit : forall S w0, locks_ok w0 -> locks_ok (UnlockInstance.__exit__ S w0)).
  { intros S w0 H0. unfold UnlockInstance.__exit__.
    destruct (negb (UnlockInstance.check_instance S)); [done|].
    destruct (UnlockInstance.the_lock S w0) as [[r0 x0]|]; [|done].
    destruct (negb _); [done|]. apply locks_ok_store; [done|]. by intros _. }
  assert (Hwith : forall (A : Type) S (body : world -> outcome A * world) w0,
            (forall w1, locks_ok w1 -> locks_ok (snd (body w1))) ->
            locks_ok w0 -> locks_ok (snd (UnlockInstance.with_ S body w0))).
  { intros A S body w0 Hb H0. unfold UnlockInstance.with_.
    pose proof (Hb _ (Henter S w0 H0)) as H1.
    destruct (body (UnlockInstance.__enter__ S w0)) as [res w2]. simpl in *.
    by apply Hexit. }
  assert (Hnew : locks_ok (__new__ cls r w)).
  { apply locks_ok_store; [done|]. by intros H. }
  assert (Hwrap : forall func n mutate args kwargs w0,
            (forall w1, locks_ok w1 -> locks_ok (snd (f_call func args kwargs w1))) ->
            locks_ok w0 -> locks_ok (snd (wrapper func n mutate args kwargs w0))).
  { intros func n mutate args kwargs w0 Hb H0. unfold wrapper.
    destruct (bind (signature func) args kwargs) as [bound|]; [|done].
    destruct (assoc n bound) as [inst|]; [|done]. by apply Hwith. }
  repeat split; try done.
  - by apply Henter.
  - by apply Hexit.
  - eapply locks_ok_same; [|exact Hw]. intros r'. apply setattr_keeps_locks.
  - eapply locks_ok_same; [apply same_locks_repr | exact Hw].
  - eapply locks_ok_same; [apply same_locks_hash | exact Hw].
  - intros r' x'. rewrite heap_enable. apply Hw.
  - intros r' x'. rewrite heap_disable. apply Hw.
  - intros A body Hb. by apply Hwith.
  - intros func n mutate args kwargs Hb. by apply Hwrap.
  - intros init args kwargs Hb. unfold construct.
    pose proof (Hb (VRef r :: args) _ Hnew) as H1.
    by destruct (f_call init (VRef r :: args) kwargs (__new__ cls r w)) as [[?|?] w2].
Qed.

End LocksRepr.

Lemma locks_okb_sound (w : world) : locks_okb w = true -> locks_ok w.
Proof.
  unfold locks_okb. rewrite forallb_forall. intros H r x Hx Hl.
  apply elem_of_map_to_list, list_elem_of_In in Hx.
  specialize (H _ Hx). simpl in H. unfold ObjectLock.active in H.
  rewrite Hl in H. simpl in H. by destruct (ObjectLock._lock_id _).
Qed.

Lemma locks_ok_preserved_witness :
  locks_ok (snd (__setattr__ (FancyRepr.disable world_in_scope) 1 "a" (VInt 7))).
Proof.
  refine (proj1 (proj2 (proj2
    (locks_ok_preserved example_hash example_repr (FancyRepr.disable world_in_scope)
       (UnlockInstance.__init__ 10 world_two_points (VRef 1) true)
       1 "a" (VInt 7) "Point" _)))).
  apply locks_okb_sound. vm_compute. reflexivity.
Defined.

(** ** Whole scopes *)

Lemma store_store (w : world) (r : addr) (x y : ccl_object) :
  store (store w r x) r y = store w r y.
Proof. unfold store, set_heap; simpl. by rewrite insert_insert_eq. Qed.


(** X2.  A scope with an empty body on a locked instance is a round trip:
    [__exit__] after [__enter__] gives back the store, except that a
    mutating manager has reset the caches; with [mutate=False], or with no
    cached representation, the store is exactly the one before. *)
Theorem scope_round_trip (w : world) (r : addr) (x : ccl_object) (i : Z)
    (mut : bool) :
  heap w !! r = Some x ->
  _object_lock x = ObjectLock.mk true None ->
  let S := UnlockInstance.__init__ i w (VRef r) mut in
  UnlockInstance.__exit__ S (UnlockInstance.__enter__ S w)
    = store w r (set_dict x (if mut then UnlockInstance.reset_repr (i_dict x)
                             else i_dict x))
  /\ (mut = false \/ i_dict x !! "_repr" = None ->
      UnlockInstance.with_ S (fun w0 => (Return tt, w0)) w = (Return tt, w)).
Proof.
  intros Hx Hl S. subst S. rewrite (init_on_instance w r x Hx).
  assert (E : UnlockInstance.__exit__ (UnlockInstance.mk (VRef r) mut i true (Some r))
                (UnlockInstance.__enter__
                   (UnlockInstance.mk (VRef r) mut i true (Some r)) w)
              = store w r (set_dict x (if mut then UnlockInstance.reset_repr (i_dict x)
                                       else i_dict x))).
  { rewrite (enter_free w r x Hx) by (done || by rewrite Hl). simpl.
    erewrite exit_owner; [|apply heap_store|done|done|done].
    rewrite store_store. simpl. unfold set_dict. by rewrite Hl. }
  split; [exact E|].
  intros Hc. unfold UnlockInstance.with_. rewrite E. f_equal.
  apply store_same. rewrite Hx. f_equal.
  destruct x as [c l d]; unfold set_dict; simpl in *. f_equal.
  destruct Hc as [->|Hc]; [done|]. destruct mut; [|done].
  unfold UnlockInstance.reset_repr. by rewrite Hc.
Qed.

Lemma scope_round_trip_witness :
  UnlockInstance.with_ (UnlockInstance.__init__ 10 world_two_points (VRef 1) false)
    (fun w0 => (Return tt, w0)) world_two_points
  = (Return tt, world_two_points).
Proof.
  apply (scope_round_trip world_two_points 1 (point true None 1 2) 10 false).
  - vm_compute. reflexivity.
  - reflexivity.
  - by left.
Defined.



(** ** Wrapped methods *)



Section Updates.

Variable value_repr : value -> string.

(** Without a cached [_repr], [repr] computes the representation from the
    instance as it is. *)
Lemma py_repr_uncached (w : world) (r : addr) (x : ccl_object) :
  heap w !! r = Some x -> i_dict x !! "_repr" = None ->
  fst (py_repr value_repr w r) = compute_repr value_repr w r x.
Proof.
  intros Hx Hd. unfold py_repr, compute_repr. rewrite Hx.
  destruct (FancyRepr.get___repr__ w (i_class x)); try done.
  unfold __ccl_repr__, get__repr. rewrite Hx, Hd.
  destruct (class_getattr c__repr w (i_class x)) as [m|]; [|done].
  by destruct (call_repr_fun value_repr m w r x).
Qed.


End Updates.


(** ** Attributes *)



(** ** The caches *)

Section Caches.

Variable str_hash : string -> Z.
Variable value_repr : value -> string.

(** What [repr] leaves behind when the [__repr__] of the type is
    [__ccl_repr__] and a string comes back: the string is in the [_repr]
    cache. *)
Lemma py_repr_ccl (w : world) (r : addr) (x : ccl_object) (s : string)
    (w1 : world) :
  heap w !! r = Some x ->
  FancyRepr.get___repr__ w (i_class x) = ccl_repr_f ->
  py_repr value_repr w r = (Return s, w1) ->
  w1 = store w r (set_dict x (<["_repr" := VStr s]> (i_dict x)))
  /\ (i_dict x !! "_repr" = None \/ i_dict x !! "_repr" = Some (VStr s)).
Proof.
  intros Hx Hg. unfold py_repr. rewrite Hx, Hg.
  unfold __ccl_repr__, get__repr. rewrite Hx.
  destruct (i_dict x !! "_repr") as [v|] eqn:Hd.
  - destruct v; try discriminate. intros [= -> <-]. split; [|by right].
    symmetry. apply store_same. rewrite Hx. f_equal.
    destruct x as [c l d]; unfold set_dict; simpl in *. f_equal.
    symmetry. by apply insert_id.
  - destruct (class_getattr c__repr w (i_class x)) as [m|]; [|discriminate].
    destruct (call_repr_fun value_repr m w r x) as [s'|e]; [|discriminate].
    intros [= -> <-]. split; [|by left]. unfold dict_write. by rewrite Hx.
Qed.

(** X6.  Reading a representation or a hash a second time returns the same
    result and leaves the store exactly as the first read left it. *)
Theorem repr_hash_idempotent (w : world) (r : addr) :
  py_repr value_repr (snd (py_repr value_repr w r)) r
    = (fst (py_repr value_repr w r), snd (py_repr value_repr w r))
  /\ py_hash str_hash value_repr (snd (py_hash str_hash value_repr w r)) r
    = (fst (py_hash str_hash value_repr w r), snd (py_hash str_hash value_repr w r)).
Proof.
  assert (Hrepr : forall w0 o w1, py_repr value_repr w0 r = (o, w1) ->
                    py_repr value_repr w1 r = (o, w1)).
  { intros w0 o w1 E. destruct (py_repr_effect _ _ _ _ _ E)
      as [->|(x & s & Hx & -> & Hg & Hd & ->)]; [done|].
    unfold py_repr. rewrite heap_store. simpl.
    unfold FancyRepr.get___repr__ in *.
    rewrite (class_getattr_classes _ _ w0) by done.
    destruct (class_getattr c___repr__ w0 (i_class x)) as [[| | | |f]|];
      try discriminate Hg.
    unfold __ccl_repr__, get__repr. rewrite heap_store. simpl.
    by rewrite lookup_insert_eq. }
  split.
  - destruct (py_repr value_repr w r) as [o w1] eqn:E. simpl. by apply (Hrepr w).
  - destruct (py_hash str_hash value_repr w r) as [o w1] eqn:E. simpl.
    destruct (heap w !! r) as [x|] eqn:Hx.
    2: { unfold py_hash, get__hash in E. rewrite Hx in E. injection E as <- <-.
         unfold py_hash, get__hash. by rewrite Hx. }
    destruct (i_dict x !! "_hash") as [v|] eqn:Hh.
    { unfold py_hash, get__hash in E. rewrite Hx, Hh in E.
      assert (Hw : w1 = w) by (destruct v; by injection E). subst w1.
      unfold py_hash, get__hash. rewrite Hx, Hh. exact E. }
    unfold py_hash, get__hash in E. rewrite Hx, Hh in E.
    destruct (py_repr value_repr w r) as [[s|e] w1'] eqn:Er;
      simpl in E; injection E as <- <-.
    + assert (Hx1 : exists x1, heap w1' !! r = Some x1).
      { destruct (py_repr_effect _ _ _ _ _ Er) as [->|(x0 & s0 & _ & _ & _ & _ & ->)].
        - by exists x.
        - eexists. apply heap_store. }
      destruct Hx1 as [x1 Hx1].
      unfold py_hash, get__hash, dict_write. rewrite Hx1, heap_store. simpl.
      by rewrite lookup_insert_eq.
    + assert (Hw : w1' = w).
      { by destruct (py_repr_effect _ _ _ _ _ Er) as [->|(x0 & s0 & _ & ? & _)]. }
      subst w1'. unfold py_hash, get__hash. by rewrite Hx, Hh, Er.
Qed.


Lemma caches_ok_store (w : world) (r : addr) (x x' : ccl_object) :
  caches_ok str_hash w -> heap w !! r = Some x ->
  (forall v, i_dict x' !! "_hash" = Some v ->
     exists s, i_dict x' !! "_repr" = Some (VStr s) /\ v = VInt (str_hash s)) ->
  caches_ok str_hash (store w r x').
Proof.
  intros Hw Hx Hx' r0 x0 v. unfold store; simpl.
  destruct (decide (r = r0)) as [<-|Hne].
  - rewrite lookup_insert_eq. intros [= <-]. apply Hx'.
  - rewrite lookup_insert_ne by done. apply Hw.
Qed.

Lemma caches_ok_heap (w1 w2 : world) :
  heap w1 = heap w2 -> caches_ok str_hash w2 -> caches_ok str_hash w1.
Proof. intros H Hw r x v. rewrite H. apply Hw. Qed.

(** X8.  The caches stay consistent: if in a store every cached [_hash]
    sits next to the cached [_repr] whose string hash it is, the same holds
    after a scope is entered or left, after an attribute other than the two
    caches is assigned, after an instance is created, after a representation
    is read, after the registry is toggled, and after a hash is read on an
    instance whose type has [__ccl_repr__] as its [__repr__]. *)
Theorem caches_ok_preserved (w : world) (self : UnlockInstance.t) (r : addr)
    (name : string) (v : value) (cls : class_id) :
  caches_ok str_hash w ->
  caches_ok str_hash (UnlockInstance.__enter__ self w)
  /\ caches_ok str_hash (UnlockInstance.__exit__ self w)
  /\ (name <> "_repr" -> name <> "_hash" ->
      caches_ok str_hash (snd (__setattr__ w r name v)))
  /\ caches_ok str_hash (__new__ cls r w)
  /\ caches_ok str_hash (snd (py_repr value_repr w r))
  /\ ((forall x, heap w !! r = Some x ->
         FancyRepr.get___repr__ w (i_class x) = ccl_repr_f) ->
      caches_ok str_hash (snd (py_hash str_hash value_repr w r)))
  /\ caches_ok str_hash (FancyRepr.enable w)
  /\ caches_ok str_hash (FancyRepr.disable w).
Proof.
  intros Hw. repeat split.
  - unfold UnlockInstance.__enter__.
    destruct (negb (UnlockInstance.check_instance self)); [done|].
    unfold UnlockInstance.the_lock.
    destruct (UnlockInstance.object_lock self) as [r0|]; [|done].
    destruct (heap w !! r0) as [x0|] eqn:Hx0; [|done].
    destruct (ObjectLock.active (_object_lock x0)); [done|].
    apply (caches_ok_store w r0 x0); [done|done|]. simpl. intros v0. by apply (Hw r0).
  - unfold UnlockInstance.__exit__.
    destruct (negb (UnlockInstance.check_instance self)); [done|].
    unfold UnlockInstance.the_lock.
    destruct (UnlockInstance.object_lock self) as [r0|]; [|done].
    destruct (heap w !! r0) as [x0|] eqn:Hx0; [|done].
    destruct (negb _); [done|].
    apply (caches_ok_store w r0 x0); [done|done|].
    destruct (UnlockInstance.mutate self); simpl; [|intros v0; by apply (Hw r0)].
    intros v0. destruct (i_dict x0 !! "_repr") as [v1|] eqn:Hd.
    + destruct (reset_repr_present _ _ Hd) as (_ & Hh & _). by rewrite Hh.
    + rewrite reset_repr_absent by done. by apply (Hw r0).
  - intros H1 H2. unfold __setattr__.
    destruct (heap w !! r) as [x|] eqn:Hx; [|done].
    destruct (ObjectLock.locked (_object_lock x)); [done|]. simpl.
    apply (caches_ok_store w r x); [done|done|]. simpl. intros v0.
    rewrite !lookup_insert_ne by done. by apply (Hw r).
  - intros r0 x0 v0. unfold __new__, store; simpl.
    destruct (decide (r = r0)) as [<-|Hne].
    + rewrite lookup_insert_eq. by intros [= <-].
    + rewrite lookup_insert_ne by done. apply Hw.
  - destruct (py_repr value_repr w r) as [o w1] eqn:E.
    destruct (py_repr_effect _ _ _ _ _ E)
      as [->|(x & s & Hx & _ & _ & Hd & ->)]; simpl; [done|].
    apply (caches_ok_store w r x); [done|done|]. simpl. intros v0.
    rewrite lookup_insert_ne by done. intros Hh.
    destruct (Hw r x v0 Hx Hh) as (s0 & Hs0 & _). by rewrite Hd in Hs0.
  - intros Hg. unfold py_hash, get__hash.
    destruct (heap w !! r) as [x|] eqn:Hx; [|done].
    destruct (i_dict x !! "_hash") as [v0|] eqn:Hh; [by destruct v0|].
    destruct (py_repr value_repr w r) as [[s|e] w1] eqn:E; simpl.
    + destruct (py_repr_ccl w r x s w1 Hx (Hg x eq_refl) E) as [-> Hd].
      unfold dict_write. rewrite heap_store, store_store. simpl.
      apply (caches_ok_store w r x); [done|done|]. simpl. intros v1.
      rewrite lookup_insert_eq. intros [= <-]. exists s.
      by rewrite lookup_insert_ne, lookup_insert_eq.
    + by destruct (py_repr_effect _ _ _ _ _ E) as [->|(x0 & s0 & _ & ? & _)].
  - eapply caches_ok_heap; [apply heap_enable | exact Hw].
  - eapply caches_ok_heap; [apply heap_disable | exact Hw].
Qed.

(** X9.  In a store with consistent caches, the exit of a mutating scope
    that holds the lock leaves neither a cached representation nor a cached
    hash on the instance. *)
Theorem mutating_exit_clears_consistent_caches (w : world) (r : addr)
    (x : ccl_object) (i : Z) :
  caches_ok str_hash w ->
  heap w !! r = Some x ->
  ObjectLock._lock_id (_object_lock x) = Some i ->
  let w' := UnlockInstance.__exit__ (UnlockInstance.__init__ i w (VRef r) true) w in
  exists x', heap w' !! r = Some x'
    /\ i_dict x' !! "_repr" = None /\ i_dict x' !! "_hash" = None
    /\ _object_lock x' = ObjectLock.mk true None
    /\ forall k, k <> "_repr" -> k <> "_hash" -> i_dict x' !! k = i_dict x !! k.
Proof.
  intros Hw Hx Hi w'. subst w'. rewrite (init_on_instance w r x Hx).
  rewrite (exit_owner w r x Hx) by done. rewrite heap_store. simpl.
  eexists. split; [done|]. simpl.
  destruct (i_dict x !! "_repr") as [v1|] eqn:Hd.
  - destruct (reset_repr_present _ _ Hd) as (H1 & H2 & H3). by repeat split.
  - rewrite reset_repr_absent by done. repeat split; try done.
    destruct (i_dict x !! "_hash") as [v0|] eqn:Hh; [|done].
    destruct (Hw r x v0 Hx Hh) as (s0 & Hs0 & _). by rewrite Hd in Hs0.
Qed.

End Caches.

Lemma caches_okb_sound (str_hash : string -> Z) (w : world) :
  caches_okb str_hash w = true -> caches_ok str_hash w.
Proof.
  unfold caches_okb. rewrite forallb_forall. intros H r x v Hx Hh.
  apply elem_of_map_to_list, list_elem_of_In in Hx.
  specialize (H _ Hx). simpl in H. rewrite Hh in H.
  destruct (i_dict x !! "_repr") as [[| | |s|]|]; try discriminate.
  destruct v; try discriminate. exists s. split; [done|].
  f_equal. by apply Z.eqb_eq.
Qed.



Lemma caches_ok_preserved_witness :
  caches_ok example_hash (snd (py_hash example_hash example_repr world_two_points 1)).
Proof.
  refine (proj1 (proj2 (proj2 (proj2 (proj2 (proj2
    (caches_ok_preserved example_hash example_repr world_two_points
       (UnlockInstance.__init__ 10 world_two_points (VRef 1) true)
       1 "a" (VInt 7) "Point" _)))))) _).
  - apply caches_okb_sound. vm_compute. reflexivity.
  - intros x Hx.
    assert (Hh : heap world_two_points !! 1 = Some (point true None 1 2))
      by (vm_compute; reflexivity).
    rewrite Hh in Hx. injection Hx as <-. vm_compute. reflexivity.
Defined.

Lemma mutating_exit_clears_consistent_caches_witness :
  exists x',
    heap (UnlockInstance.__exit__
            (UnlockInstance.__init__ 10 world_hashed_in_scope (VRef 1) true)
            world_hashed_in_scope) !! 1 = Some x'
    /\ i_dict x' !! "_repr" = None /\ i_dict x' !! "_hash" = None.
Proof.
  destruct (mutating_exit_clears_consistent_caches example_hash
              world_hashed_in_scope 1
              (Instance "Point" (ObjectLock.mk false (Some 10))
                 (point_dict_hashed 1 2 (Point_repr "1" "2"))) 10)
    as (x' & H1 & H2 & H3 & _).
  - apply caches_okb_sound. vm_compute. reflexivity.
  - vm_compute. reflexivity.
  - reflexivity.
  - exists x'. exact (conj H1 (conj H2 H3)).
Defined.

(** ** Laws of the registry *)

Lemma world_eq (w1 w2 : world) :
  classes w1 = classes w2 -> heap w1 = heap w2 ->
  fancy_enabled w1 = fancy_enabled w2 -> fancy_classes w1 = fancy_classes w2 ->
  w1 = w2.
Proof. destruct w1, w2; simpl; by intros -> -> -> ->. Qed.

Lemma fancy_classes_disable (w : world) :
  fancy_classes (FancyRepr.disable w) = fancy_classes w.
Proof. rewrite disable_unfold. simpl. apply disable_fold_frame. Qed.

Lemma fancy_classes_enable (w : world) :
  fancy_classes (FancyRepr.enable w) = fancy_classes w.
Proof. rewrite enable_unfold. simpl. apply enable_fold_frame. Qed.

Lemma disable_fold_lookup (l : list class_id) (w : world) (cl : class_id) :
  In cl l ->
  classes (fold_left disable_step l w) !! cl
  = FancyRepr.set___repr__ object_repr_f <$> classes w !! cl.
Proof.
  revert w. induction l as [|c l IH]; intros w Hin; simpl; [done|].
  destruct (In_dec String.string_dec cl l) as [Hl|Hl].
  - rewrite (IH _ Hl). unfold disable_step; simpl.
    destruct (decide (c = cl)) as [->|Hne].
    + rewrite lookup_alter_eq. by destruct (classes w !! cl).
    + by rewrite lookup_alter_ne.
  - destruct Hin as [->|Hin]; [|done].
    rewrite (disable_fold_other _ _ _ Hl). unfold disable_step; simpl.
    by rewrite lookup_alter_eq.
Qed.

Lemma classes_disable_in (w : world) (cl : class_id) :
  In cl (map fst (fancy_classes w)) ->
  classes (FancyRepr.disable w) !! cl
  = FancyRepr.set___repr__ object_repr_f <$> classes w !! cl.
Proof. intros H. rewrite disable_unfold. simpl. by apply disable_fold_lookup. Qed.

Lemma classes_disable_other (w : world) (cl : class_id) :
  ~ In cl (map fst (fancy_classes w)) ->
  classes (FancyRepr.disable w) !! cl = classes w !! cl.
Proof. intros H. rewrite disable_unfold. simpl. by apply disable_fold_other. Qed.

Lemma classes_enable_other (w : world) (cl : class_id) :
  ~ In cl (map fst (fancy_classes w)) ->
  classes (FancyRepr.enable w) !! cl = classes w !! cl.
Proof. intros H. rewrite enable_unfold. simpl. by apply enable_fold_other. Qed.

Lemma registered_method (l : list (class_id * repr_fun)) (cl : class_id) :
  In cl (map fst l) -> exists m, In (cl, m) l.
Proof.
  intros H. apply in_map_iff in H as ([c m] & <- & H). by exists m.
Qed.

(** X10.  With one entry per class in the registry, [disable] leaves
    nothing behind once [enable] runs again: [enable] after [disable] is
    [enable], and it gives back the very store in which [disable] was
    called when the registry was switched on there and every registered class
    carried its cached representation. *)
Theorem toggle_round_trip (w : world) :
  NoDup (map fst (fancy_classes w)) ->
  FancyRepr.enable (FancyRepr.disable w) = FancyRepr.enable w
  /\ (fancy_applied w -> FancyRepr.enable (FancyRepr.disable w) = w).
Proof.
  intros Hnd.
  assert (Hed : FancyRepr.enable (FancyRepr.disable w) = FancyRepr.enable w).
  { apply world_eq.
    - apply map_eq. intros cl.
      destruct (In_dec String.string_dec cl (map fst (fancy_classes w))) as [Hin|Hin].
      + destruct (registered_method _ _ Hin) as [m Hm].
        rewrite (classes_enable _ cl m)
          by (by rewrite fancy_classes_disable).
        rewrite (classes_enable w cl m) by done.
        rewrite classes_disable_in by done.
        by destruct (classes w !! cl) as [[]|].
      + rewrite classes_enable_other by (by rewrite fancy_classes_disable).
        rewrite classes_enable_other by done.
        by apply classes_disable_other.
    - by rewrite !heap_enable, heap_disable.
    - done.
    - by rewrite !fancy_classes_enable, fancy_classes_disable. }
  split; [exact Hed|].
  intros [Hen Hap]. rewrite Hed. apply world_eq.
  - apply map_eq. intros cl.
    destruct (In_dec String.string_dec cl (map fst (fancy_classes w))) as [Hin|Hin].
    + destruct (registered_method _ _ Hin) as [m Hm].
      rewrite (classes_enable w cl m) by done.
      destruct (classes w !! cl) as [co|] eqn:Hco; [|done].
      destruct (Hap cl m co Hm Hco) as [H1 H2].
      destruct co; simpl in *. by rewrite H1, H2.
    + by apply classes_enable_other.
  - apply heap_enable.
  - by rewrite Hen.
  - apply fancy_classes_enable.
Qed.

(** X11.  [disable] and [enable] are idempotent, and neither changes the
    registered classes and methods, the instances, or the classes that are
    not registered. *)
Theorem toggle_idempotent (w : world) :
  FancyRepr.disable (FancyRepr.disable w) = FancyRepr.disable w
  /\ (NoDup (map fst (fancy_classes w)) ->
      FancyRepr.enable (FancyRepr.enable w) = FancyRepr.enable w)
  /\ fancy_classes (FancyRepr.disable w) = fancy_classes w
  /\ fancy_classes (FancyRepr.enable w) = fancy_classes w
  /\ heap (FancyRepr.disable w) = heap w
  /\ heap (FancyRepr.enable w) = heap w
  /\ (forall cl, ~ In cl (map fst (fancy_classes w)) ->
        classes (FancyRepr.disable w) !! cl = classes w !! cl
        /\ classes (FancyRepr.enable w) !! cl = classes w !! cl).
Proof.
  split; [|split; [|split; [|split; [|split; [|split]]]]].
  - apply world_eq.
    + apply map_eq. intros cl.
      destruct (In_dec String.string_dec cl (map fst (fancy_classes w))) as [Hin|Hin].
      * rewrite classes_disable_in by (by rewrite fancy_classes_disable).
        rewrite classes_disable_in by done.
        by destruct (classes w !! cl) as [[]|].
      * by rewrite classes_disable_other by (by rewrite fancy_classes_disable).
    + by rewrite !heap_disable.
    + done.
    + by rewrite !fancy_classes_disable.
  - intros Hnd. apply world_eq.
    + apply map_eq. intros cl.
      destruct (In_dec String.string_dec cl (map fst (fancy_classes w))) as [Hin|Hin].
      * destruct (registered_method _ _ Hin) as [m Hm].
        rewrite (classes_enable _ cl m) by (by rewrite fancy_classes_enable).
        rewrite (classes_enable w cl m) by done.
        by destruct (classes w !! cl) as [[]|].
      * by rewrite classes_enable_other by (by rewrite fancy_classes_enable).
    + by rewrite !heap_enable.
    + done.
    + by rewrite !fancy_classes_enable.
  - apply fancy_classes_disable.
  - apply fancy_classes_enable.
  - apply heap_disable.
  - apply heap_enable.
  - intros cl Hcl. split; [by apply classes_disable_other | by apply classes_enable_other].
Qed.

Lemma toggle_round_trip_witness :
  FancyRepr.enable (FancyRepr.disable world_hashed) = world_hashed.
Proof.
  assert (Hf : fancy_classes world_hashed = [("CCLAutoreprObject", autorepr_f)])
    by (vm_compute; reflexivity).
  assert (Hc : classes world_hashed !! "CCLAutoreprObject"
               = Some (ClassObj ["CCLObject"] (Some ccl_repr_f) (Some autorepr_f)
                                None None)) by (vm_compute; reflexivity).
  assert (Hnd : NoDup (map fst (fancy_classes world_hashed))).
  { rewrite Hf. apply registry_one_class. }
  assert (Hen : fancy_enabled world_hashed = true) by (vm_compute; reflexivity).
  assert (Hap : fancy_applied world_hashed).
  { split; [exact Hen|].
    rewrite Hf. intros cl m co [[= <- <-]|[]] Hco.
    rewrite Hc in Hco. injection Hco as <-. split; reflexivity. }
  exact (proj2 (toggle_round_trip world_hashed Hnd) Hap).
Defined.

Lemma toggle_idempotent_witness :
  FancyRepr.enable (FancyRepr.enable world_stale) = FancyRepr.enable world_stale.
Proof.
  assert (Hf : fancy_classes world_stale = [("CCLAutoreprObject", autorepr_f)])
    by (vm_compute; reflexivity).
  assert (Hnd : NoDup (map fst (fancy_classes world_stale))).
  { rewrite Hf. apply registry_one_class. }
  exact (proj1 (proj2 (toggle_idempotent world_stale)) Hnd).
Defined.

Lemma first_some_ext {A B} (f g : A -> option B) (l : list A) :
  Forall (fun a => f a = g a) l -> first_some f l = first_some g l.
Proof.
  induction 1 as [|a l Ha _ IH]; simpl; [done|]. by rewrite Ha, IH.
Qed.

(** Attribute lookup from [c] sees the same thing in two stores that agree
    on [c] and on its bases. *)
Lemma class_getattr_agree {A} (sel : class_obj -> option A) (w1 w2 : world)
    (c : class_id) :
  classes w1 !! c = classes w2 !! c ->
  (forall co, classes w2 !! c = Some co ->
     Forall (fun b => classes w1 !! b = classes w2 !! b) (c_bases co)) ->
  class_getattr sel w1 c = class_getattr sel w2 c.
Proof.
  intros Hc Hb. unfold class_getattr. rewrite Hc.
  destruct (classes w2 !! c) as [co|] eqn:Hco; [|done].
  destruct (sel co); [done|]. apply first_some_ext.
  eapply Forall_impl; [exact (Hb co eq_refl)|]. intros b Hbb. simpl. by rewrite Hbb.
Qed.

Section Unregistered.

Variable str_hash : string -> Z.
Variable value_repr : value -> string.

(** [repr] depends on the store through the instance and three class
    attributes of its type. *)
Lemma py_repr_agree (w1 w2 : world) (r : addr) :
  heap w1 !! r = heap w2 !! r ->
  (forall x, heap w2 !! r = Some x ->
     class_getattr c___repr__ w1 (i_class x) = class_getattr c___repr__ w2 (i_class x)
     /\ class_getattr c__repr w1 (i_class x) = class_getattr c__repr w2 (i_class x)
     /\ class_getattr c___repr_attrs__ w1 (i_class x)
        = class_getattr c___repr_attrs__ w2 (i_class x)) ->
  fst (py_repr value_repr w1 r) = fst (py_repr value_repr w2 r).
Proof.
  intros Hh Hc. unfold py_repr. rewrite Hh.
  destruct (heap w2 !! r) as [x|] eqn:Hx; [|done].
  destruct (Hc x eq_refl) as (H1 & H2 & H3).
  assert (Hcall : forall m, call_repr_fun value_repr m w1 r x
                            = call_repr_fun value_repr m w2 r x).
  { intros m. destruct m; simpl; try done.
    unfold CCLAutoreprObject___repr__, build_string_from_attrs. by rewrite H3. }
  unfold FancyRepr.get___repr__. rewrite H1.
  destruct (class_getattr c___repr__ w2 (i_class x)) as [[| | | |f]|];
    cbv beta iota; rewrite ?Hcall; try done.
  unfold __ccl_repr__, get__repr. rewrite Hh, Hx.
  destruct (i_dict x !! "_repr") as [[]|]; try done.
  rewrite H2.
  destruct (class_getattr c__repr w2 (i_class x)) as [m|]; [|done].
  rewrite Hcall. by destruct (call_repr_fun value_repr m w2 r x).
Qed.

Lemma py_hash_agree (w1 w2 : world) (r : addr) :
  heap w1 !! r = heap w2 !! r ->
  fst (py_repr value_repr w1 r) = fst (py_repr value_repr w2 r) ->
  fst (py_hash str_hash value_repr w1 r) = fst (py_hash str_hash value_repr w2 r).
Proof.
  intros Hh Hr. unfold py_hash, get__hash. rewrite Hh.
  destruct (heap w2 !! r) as [x|]; [|done].
  destruct (i_dict x !! "_hash") as [[]|]; try done.
  destruct (py_repr value_repr w1 r) as [o1 w1'],
           (py_repr value_repr w2 r) as [o2 w2']. simpl in Hr. subst o2.
  by destruct o1.
Qed.

(** X12.  Toggling the registry changes nothing for an instance of a type
    that is not registered and inherits from no registered type: its
    representation and its hash are the same after [disable] and after
    [enable] as before. *)
Theorem toggle_unregistered (w : world) (r : addr) (x : ccl_object) :
  heap w !! r = Some x ->
  unregistered w (i_class x) ->
  fst (py_repr value_repr (FancyRepr.disable w) r) = fst (py_repr value_repr w r)
  /\ fst (py_repr value_repr (FancyRepr.enable w) r) = fst (py_repr value_repr w r)
  /\ fst (py_hash str_hash value_repr (FancyRepr.disable w) r)
     = fst (py_hash str_hash value_repr w r)
  /\ fst (py_hash str_hash value_repr (FancyRepr.enable w) r)
     = fst (py_hash str_hash value_repr w r).
Proof.
  intros Hx [Hc Hb].
  assert (Hd : forall A (sel : class_obj -> option A),
             class_getattr sel (FancyRepr.disable w) (i_class x)
             = class_getattr sel w (i_class x)).
  { intros A sel. apply class_getattr_agree; [by apply classes_disable_other|].
    intros co Hco. eapply Forall_impl; [exact (Hb co Hco)|].
    intros b Hn. by apply classes_disable_other. }
  assert (He : forall A (sel : class_obj -> option A),
             class_getattr sel (FancyRepr.enable w) (i_class x)
             = class_getattr sel w (i_class x)).
  { intros A sel. apply class_getattr_agree; [by apply classes_enable_other|].
    intros co Hco. eapply Forall_impl; [exact (Hb co Hco)|].
    intros b Hn. by apply classes_enable_other. }
  assert (H1 : fst (py_repr value_repr (FancyRepr.disable w) r)
               = fst (py_repr value_repr w r)).
  { apply py_repr_agree; [by rewrite heap_disable|].
    intros x0 Hx0. rewrite Hx in Hx0. injection Hx0 as <-. by rewrite !Hd. }
  assert (H2 : fst (py_repr value_repr (FancyRepr.enable w) r)
               = fst (py_repr value_repr w r)).
  { apply py_repr_agree; [by rewrite heap_enable|].
    intros x0 Hx0. rewrite Hx in Hx0. injection Hx0 as <-. by rewrite !He. }
  split; [exact H1|]. split; [exact H2|]. split.
  - apply py_hash_agree; [by rewrite heap_disable | exact H1].
  - apply py_hash_agree; [by rewrite heap_enable | exact H2].
Qed.

End Unregistered.

Lemma toggle_unregistered_witness :
  fst (py_repr example_repr (FancyRepr.disable world_two_mytypes) 3)
  = Return "<MyType object at 0x3>".
Proof.
  assert (Hf : fancy_classes world_two_mytypes = [("CCLAutoreprObject", autorepr_f)])
    by (vm_compute; reflexivity).
  assert (Hc : classes world_two_mytypes !! "MyType"
               = Some (ClassObj ["CCLObject"] None None None None))
    by (vm_compute; reflexivity).
  assert (Hx : heap world_two_mytypes !! 3 = Some (Instance "MyType" ObjectLock.new ∅))
    by (vm_compute; reflexivity).
  assert (Hu : unregistered world_two_mytypes "MyType").
  { split; rewrite Hf.
    - simpl. intros [H|[]]. discriminate H.
    - intros co Hco. rewrite Hc in Hco. injection Hco as <-. simpl.
      constructor; [|constructor]. intros [H|[]]. discriminate H. }
  pose proof (proj1 (toggle_unregistered example_hash example_repr world_two_mytypes 3
                       (Instance "MyType" ObjectLock.new ∅) Hx Hu)) as H.
  assert (Hr : fst (py_repr example_repr world_two_mytypes 3)
               = Return "<MyType object at 0x3>") by (vm_compute; reflexivity).
  exact (eq_trans H Hr).
Defined.

(** ** Defining classes *)

Lemma assoc_dict_set {A} (k : class_id) (a : A) (l : list (class_id * A)) :
  assoc k (FancyRepr.dict_set k a l) = Some a.
Proof.
  induction l as [|[k' a'] l IH]; simpl.
  - by rewrite String.eqb_refl.
  - destruct (String.eqb_spec k k') as [->|Hne]; simpl.
    + by rewrite String.eqb_refl.
    + destruct (String.eqb_spec k k') as [->|_]; [done | exact IH].
Qed.

Lemma assoc_dict_set_ne {A} (k k' : class_id) (a : A) (l : list (class_id * A)) :
  k' <> k -> assoc k' (FancyRepr.dict_set k a l) = assoc k' l.
Proof.
  intros Hne. induction l as [|[k0 a0] l IH]; simpl.
  - by destruct (String.eqb_spec k' k).
  - destruct (String.eqb_spec k k0) as [Heq|Hk]; simpl.
    + subst k0. by destruct (String.eqb_spec k' k).
    + by rewrite IH.
Qed.

(** X13.  A class whose body has a [__repr__] is registered with that
    method and gets [__ccl_repr__] in its place, with the method inside the
    cached [_repr]; nothing reads [FancyRepr._enabled] on the way, so this
    also happens while fancy representations are switched off, and the first
    [repr] of a new instance then runs the method of the body.  The registry
    keeps one entry per class, the other classes and the instances are
    untouched; a class without [__repr__] in its body is not registered. *)
Theorem define_class_registers (value_repr : value -> string) (w : world)
    (cls : class_id) (bases : list class_id) (m : repr_fun)
    (repr_attrs eq_attrs : option (list string))
    (body_init body_update : option pyfunc) (r : addr) :
  let w' := snd (define_class cls bases (Some m) repr_attrs eq_attrs
                              body_init body_update w) in
  let w0 := snd (define_class cls bases None repr_attrs eq_attrs
                              body_init body_update w) in
  classes w' !! cls
    = Some (ClassObj bases (Some ccl_repr_f) (Some m) repr_attrs eq_attrs)
  /\ assoc cls (fancy_classes w') = Some m
  /\ (forall c, c <> cls -> assoc c (fancy_classes w') = assoc c (fancy_classes w)
                           /\ classes w' !! c = classes w !! c)
  /\ fancy_enabled w' = fancy_enabled w
  /\ heap w' = heap w
  /\ (NoDup (map fst (fancy_classes w)) -> NoDup (map fst (fancy_classes w')))
  /\ fst (py_repr value_repr (__new__ cls r w') r)
     = call_repr_fun value_repr m (__new__ cls r w') r (Instance cls ObjectLock.new ∅)
  /\ fancy_classes w0 = fancy_classes w
  /\ classes w0 !! cls = Some (ClassObj bases None None repr_attrs eq_attrs).
Proof.
  intros w' w0.
  set (ws := set_classes w (<[cls := ClassObj bases (Some m) None repr_attrs eq_attrs]>
                              (classes w))).
  assert (Hw' : w' = FancyRepr.bind_and_replace cls m (FancyRepr.add cls ws)).
  { subst w'. unfold define_class, __init_subclass__. fold ws.
    assert (Hl : classes ws !! cls ≫= c___repr__ = Some m).
    { subst ws. simpl. by rewrite lookup_insert_eq. }
    rewrite Hl.
    assert (Hg : FancyRepr.get___repr__ ws cls = m).
    { unfold FancyRepr.get___repr__, class_getattr. subst ws. simpl.
      by rewrite lookup_insert_eq. }
    destruct (Funlock body_init false); [|done].
    by destruct (Funlock body_update true). }
  assert (Hg : FancyRepr.get___repr__ ws cls = m).
  { unfold FancyRepr.get___repr__, class_getattr. subst ws. simpl.
    by rewrite lookup_insert_eq. }
  assert (Hw0 : w0 = set_classes w (<[cls := ClassObj bases None None repr_attrs eq_attrs]>
                                      (classes w))).
  { subst w0. unfold define_class, __init_subclass__. simpl.
    rewrite lookup_insert_eq. simpl.
    destruct (Funlock body_init false); [|done].
    by destruct (Funlock body_update true). }
  assert (Hcls : classes w' !! cls
                 = Some (ClassObj bases (Some ccl_repr_f) (Some m) repr_attrs eq_attrs)).
  { rewrite Hw'. unfold FancyRepr.bind_and_replace, FancyRepr.add. simpl.
    rewrite lookup_alter_eq. subst ws. simpl. by rewrite lookup_insert_eq. }
  split; [exact Hcls|]. rewrite Hw'.
  split; [|split; [|split; [|split; [|split; [|split; [|split]]]]]].
  - simpl. rewrite Hg. apply assoc_dict_set.
  - intros c Hc. split.
    + simpl. by apply assoc_dict_set_ne.
    + simpl. rewrite lookup_alter_ne by done. subst ws. simpl.
      by rewrite lookup_insert_ne.
  - done.
  - done.
  - simpl. apply dict_set_keys.
  - rewrite <- Hw'.
    rewrite (py_repr_uncached value_repr _ r (Instance cls ObjectLock.new ∅));
      [|apply heap_store|done].
    unfold compute_repr, FancyRepr.get___repr__, class_getattr. simpl.
    rewrite Hcls. done.
  - by rewrite Hw0.
  - rewrite Hw0. simpl. by rewrite lookup_insert_eq.
Qed.

Lemma define_class_registers_witness :
  NoDup (map fst (fancy_classes
     (snd (define_class "Named" ["CCLObject"] (Some (user_repr_f (fun _ _ => Return "Named")))
             None None None None (FancyRepr.disable world0))))).
Proof.
  refine (proj1 (proj2 (proj2 (proj2 (proj2 (proj2
    (define_class_registers example_repr (FancyRepr.disable world0) "Named"
       ["CCLObject"] (user_repr_f (fun _ _ => Return "Named")) None None None None 1))))))
    _).
  assert (Hf : fancy_classes (FancyRepr.disable world0)
               = [("CCLAutoreprObject", autorepr_f)]) by (vm_compute; reflexivity).
  rewrite Hf. apply registry_one_class.
Defined.

(** ** Equality by identity *)

Lemma length_append (s t : string) :
  String.length (s +:+ t) = (String.length s + String.length t)%nat.
Proof.
  induction s as [|c s IH]; [done|].
  change (S (String.length (s +:+ t)) = S (String.length s + String.length t)).
  by rewrite IH.
Qed.

Lemma append_inv_tail (s1 s2 t : string) : s1 +:+ t = s2 +:+ t -> s1 = s2.
Proof.
  revert s2. induction s1 as [|c s1 IH]; intros [|c2 s2] H.
  - done.
  - exfalso. apply (f_equal String.length) in H.
    change (String.length t = String.length (String c2 s2 +:+ t)) in H.
    rewrite length_append in H. simpl in H. lia.
  - exfalso. apply (f_equal String.length) in H.
    change (String.length (String c s1 +:+ t) = String.length t) in H.
    rewrite length_append in H. simpl in H. lia.
  - change (String c (s1 +:+ t) = String c2 (s2 +:+ t)) in H.
    injection H as -> H. f_equal. by apply IH.
Qed.

Lemma to_hex_uint_nonnil (n : N) : N.to_hex_uint n <> Hexadecimal.Nil.
Proof.
  destruct n as [|p]; simpl; [discriminate|].
  apply HexadecimalPos.Unsigned.to_uint_nonnil.
Qed.

Lemma hex_string_inj (n1 n2 : N) :
  NilZero.string_of_uint (N.to_hex_uint n1) = NilZero.string_of_uint (N.to_hex_uint n2) ->
  n1 = n2.
Proof.
  intros H. apply HexadecimalN.Unsigned.to_uint_inj.
  pose proof (NilZero.usu _ (to_hex_uint_nonnil n1)) as H1.
  pose proof (NilZero.usu _ (to_hex_uint_nonnil n2)) as H2.
  rewrite H in H1. rewrite H1 in H2. by injection H2.
Qed.

(** [object.__repr__] tells the instances of one class apart. *)
Lemma object___repr___inj (r1 r2 : addr) (x1 x2 : ccl_object) :
  0 <= r1 -> 0 <= r2 -> i_class x1 = i_class x2 ->
  object___repr__ r1 x1 = object___repr__ r2 x2 -> r1 = r2.
Proof.
  intros H1 H2 Hc H. unfold object___repr__ in H. rewrite Hc in H.
  repeat apply append_inv_head in H.
  apply append_inv_tail, hex_string_inj in H. by apply Z2N.inj.
Qed.

Section Identity.

Variable value_repr : value -> string.

(** Two instances of one class without [__eq_attrs__] whose
    representations are the default ones are equal exactly when they are the
    same object. *)
Lemma eq_by_default_repr (n : nat) (w : world) (rx ry : addr) (x y : ccl_object) :
  0 <= rx -> 0 <= ry ->
  heap w !! rx = Some x -> heap w !! ry = Some y ->
  i_class x = i_class y ->
  class_getattr c___eq_attrs__ w (i_class x) = None ->
  fst (py_repr value_repr w rx) = Return (object___repr__ rx x) ->
  fst (py_repr value_repr w ry) = Return (object___repr__ ry y) ->
  fst (py_eq value_repr (S n) w (VRef rx) (VRef ry)) = Return (bool_decide (rx = ry)).
Proof.
  intros H0x H0y Hx Hy Hcl Heq Hsx Hsy.
  simpl. unfold CCLObject___eq__. rewrite Hx. simpl. rewrite Hy. simpl.
  rewrite bool_decide_eq_true_2 by congruence. simpl. rewrite Heq.
  destruct (py_repr value_repr w rx) as [o1 w1] eqn:E1. simpl in Hsx. subst o1.
  pose proof (py_repr_after _ _ _ _ _ ry E1) as Hafter.
  destruct (py_repr value_repr w1 ry) as [o2 w2]. simpl in Hafter.
  rewrite Hsy in Hafter. subst o2. cbn [fst]. f_equal.
  destruct (decide (rx = ry)) as [Hr|Hne].
  - subst ry. rewrite Hx in Hy. injection Hy as <-.
    rewrite String.eqb_refl. symmetry. by apply bool_decide_eq_true_2.
  - rewrite (bool_decide_eq_false_2 _ Hne).
    apply String.eqb_neq. intros H. apply Hne.
    by apply (object___repr___inj rx ry x y).
Qed.

(** X14.  Instances whose representation is the default one compare by
    identity: two instances of one class without [__eq_attrs__], both with
    the representation of [object.__repr__], are equal exactly when they sit
    at the same address, and unequal instances have different
    representations. *)
Theorem default_eq_is_identity (n : nat) (w : world) (rx ry : addr)
    (x y : ccl_object) :
  0 <= rx -> 0 <= ry ->
  heap w !! rx = Some x -> heap w !! ry = Some y ->
  i_class x = i_class y ->
  class_getattr c___eq_attrs__ w (i_class x) = None ->
  fst (py_repr value_repr w rx) = Return (object___repr__ rx x) ->
  fst (py_repr value_repr w ry) = Return (object___repr__ ry y) ->
  fst (py_eq value_repr (S n) w (VRef rx) (VRef ry)) = Return (bool_decide (rx = ry))
  /\ (rx <> ry -> fst (py_repr value_repr w rx) <> fst (py_repr value_repr w ry)).
Proof.
  intros H0x H0y Hx Hy Hcl Heq Hsx Hsy.
  split; [by apply (eq_by_default_repr n w rx ry x y)|].
  intros Hne. rewrite Hsx, Hsy. intros H. apply Hne.
  apply (object___repr___inj rx ry x y); [done|done|done|congruence].
Qed.

(** X15.  After [FancyRepr.disable()], instances of a registered class, or
    of a class that takes its representation from one, compare by identity
    whatever their attributes are, as long as the class has no
    [__eq_attrs__]. *)
Theorem disabled_eq_is_identity (n : nat) (w : world) (cl : class_id)
    (m : repr_fun) (co : class_obj) (rx ry : addr) (x y : ccl_object) :
  In (cl, m) (fancy_classes w) -> classes w !! cl = Some co ->
  0 <= rx -> 0 <= ry ->
  heap w !! rx = Some x -> heap w !! ry = Some y ->
  i_class x = i_class y ->
  inherits_repr_from w (i_class x) cl ->
  class_getattr c___eq_attrs__ w (i_class x) = None ->
  fst (py_eq value_repr (S n) (FancyRepr.disable w) (VRef rx) (VRef ry))
  = Return (bool_decide (rx = ry)).
Proof.
  intros Hin Hco H0x H0y Hx Hy Hcl Hinh Heq.
  assert (Hrepr : forall r z, heap w !! r = Some z -> i_class z = i_class x ->
            fst (py_repr value_repr (FancyRepr.disable w) r)
            = Return (object___repr__ r z)).
  { intros r z Hz Hc. unfold py_repr. rewrite heap_disable, Hz, Hc.
    by rewrite (get___repr___disable w (i_class x) cl m co). }
  apply (eq_by_default_repr n _ rx ry x y); try done.
  - by rewrite heap_disable.
  - by rewrite heap_disable.
  - rewrite <- Heq. apply eq_attrs_shape, shape_disable.
  - by apply Hrepr.
  - by apply Hrepr.
Qed.

End Identity.

Lemma default_eq_is_identity_witness :
  fst (py_eq example_repr 1 world_two_mytypes (VRef 3) (VRef 4)) = Return false
  /\ fst (py_eq example_repr 1 world_two_mytypes (VRef 3) (VRef 3)) = Return true.
Proof.
  assert (H3 : heap world_two_mytypes !! 3 = Some (Instance "MyType" ObjectLock.new ∅))
    by (vm_compute; reflexivity).
  assert (H4 : heap world_two_mytypes !! 4 = Some (Instance "MyType" ObjectLock.new ∅))
    by (vm_compute; reflexivity).
  assert (He : class_getattr c___eq_attrs__ world_two_mytypes "MyType" = None)
    by (vm_compute; reflexivity).
  assert (R3 : fst (py_repr example_repr world_two_mytypes 3)
               = Return (object___repr__ 3 (Instance "MyType" ObjectLock.new ∅)))
    by (vm_compute; reflexivity).
  assert (R4 : fst (py_repr example_repr world_two_mytypes 4)
               = Return (object___repr__ 4 (Instance "MyType" ObjectLock.new ∅)))
    by (vm_compute; reflexivity).
  split.
  - exact (proj1 (default_eq_is_identity example_repr 0 world_two_mytypes 3 4 _ _
                    ltac:(lia) ltac:(lia) H3 H4 eq_refl He R3 R4)).
  - exact (proj1 (default_eq_is_identity example_repr 0 world_two_mytypes 3 3 _ _
                    ltac:(lia) ltac:(lia) H3 H3 eq_refl He R3 R3)).
Defined.

Lemma disabled_eq_is_identity_witness :
  fst (py_eq example_repr 1 (FancyRepr.disable world_two_points) (VRef 1) (VRef 2))
  = Return false.
Proof.
  assert (H1 : heap world_two_points !! 1 = Some (point true None 1 2))
    by (vm_compute; reflexivity).
  assert (H2 : heap world_two_points !! 2 = Some (point true None 1 2))
    by (vm_compute; reflexivity).
  assert (Hf : fancy_classes world_two_points = [("CCLAutoreprObject", autorepr_f)])
    by (vm_compute; reflexivity).
  assert (Hp : classes world_two_points !! "Point" = Some Point_obj)
    by (vm_compute; reflexivity).
  assert (Hc : classes world_two_points !! "CCLAutoreprObject"
               = Some (ClassObj ["CCLObject"] (Some ccl_repr_f) (Some autorepr_f)
                                None None)) by (vm_compute; reflexivity).
  assert (He : class_getattr c___eq_attrs__ world_two_points "Point" = None)
    by (vm_compute; reflexivity).
  assert (Hin : In ("CCLAutoreprObject", autorepr_f) (fancy_classes world_two_points)).
  { rewrite Hf. left. reflexivity. }
  exact (disabled_eq_is_identity example_repr 0 world_two_points "CCLAutoreprObject"
           autorepr_f _ 1 2 _ _ Hin Hc ltac:(lia) ltac:(lia) H1 H2 eq_refl
           (Point_inherits _ Hp Hf) He).
Defined.

(** ** Equality through [__eq_attrs__] *)

Section EqAttrs.

Variable value_repr : value -> string.

Lemma attrgetter_plain (w : world) (r : addr) (x : ccl_object) (a : string) :
  heap w !! r = Some x -> split_dots EmptyString a = [a] ->
  attrgetter a w (VRef r)
  = match i_dict x !! a with Some v => Return v | None => Raise AttributeError end.
Proof.
  intros Hx Ha. unfold attrgetter. rewrite Ha. simpl. rewrite Hx. simpl.
  by destruct (i_dict x !! a).
Qed.

Lemma py_eq_scalars (n : nat) (w : world) (v1 v2 : value) :
  is_ref v1 = false -> is_ref v2 = false ->
  py_eq value_repr (S n) w v1 v2 = (Return (scalar_eq v1 v2), w).
Proof. by destruct v1, v2. Qed.

Lemma eq_attrs_list_plain (n : nat) (w : world) (rx ry : addr) (x y : ccl_object)
    (attrs : list string) :
  heap w !! rx = Some x -> heap w !! ry = Some y ->
  Forall (plain_attr x y) attrs ->
  eq_attrs_list (py_eq value_repr (S n)) w (VRef rx) (VRef ry) attrs
  = (Return (map (attr_eq x y) attrs), w).
Proof.
  intros Hx Hy. induction 1 as [|a attrs (Ha & va & vb & Hva & Hvb & H1 & H2) _ IH];
    [done|].
  cbn [eq_attrs_list]. rewrite (attrgetter_plain w rx x a Hx Ha), Hva.
  rewrite (attrgetter_plain w ry y a Hy Ha), Hvb.
  rewrite py_eq_scalars by done. rewrite IH. cbn [map].
  unfold attr_eq at 2. by rewrite Hva, Hvb.
Qed.

Lemma py_eq_ref (n : nat) (w : world) (r : addr) (v : value) :
  py_eq value_repr (S n) w (VRef r) v
  = CCLObject___eq__ value_repr (py_eq value_repr n) w r v.
Proof. reflexivity. Qed.

Lemma forallb_id_map {A} (f : A -> bool) (l : list A) :
  forallb (fun b => b) (map f l) = forallb f l.
Proof. induction l as [|a l IH]; simpl; [done|]. by rewrite IH. Qed.

(** X16.  When the class declares [__eq_attrs__], two of its instances are
    compared attribute by attribute and nothing else is looked at: for plain
    attribute names that hold numbers, strings, booleans or [None] on both
    sides, [x == y] is the conjunction of the comparisons of the listed
    attributes; no representation is read, so none is cached and the store
    stays as it is. *)
Theorem eq_attrs_decides (n : nat) (w : world) (rx ry : addr) (x y : ccl_object)
    (attrs : list string) :
  heap w !! rx = Some x -> heap w !! ry = Some y ->
  i_class x = i_class y ->
  class_getattr c___eq_attrs__ w (i_class x) = Some attrs ->
  Forall (plain_attr x y) attrs ->
  py_eq value_repr (S (S n)) w (VRef rx) (VRef ry)
  = (Return (forallb (attr_eq x y) attrs), w).
Proof.
  intros Hx Hy Hcl Heq Hattrs.
  rewrite py_eq_ref. unfold CCLObject___eq__. rewrite Hx. cbn [class_of]. rewrite Hy.
  cbn [fmap option_fmap option_map].
  rewrite bool_decide_eq_true_2 by congruence. cbn [negb]. rewrite Heq.
  rewrite (eq_attrs_list_plain n w rx ry x y attrs Hx Hy Hattrs).
  by rewrite forallb_id_map.
Qed.


End EqAttrs.

Lemma eq_attrs_decides_witness :
  py_eq example_repr 2 world_loose_full (VRef 1) (VRef 2)
  = (Return false, world_loose_full).
Proof.
  pose (x := Instance "Loose" ObjectLock.new (<["b" := VInt 0]> (<["a" := VInt 1]> ∅))).
  pose (y := Instance "Loose" ObjectLock.new (<["b" := VInt 0]> (<["a" := VInt 2]> ∅))).
  assert (Hx : heap world_loose_full !! 1 = Some x) by (vm_compute; reflexivity).
  assert (Hy : heap world_loose_full !! 2 = Some y) by (vm_compute; reflexivity).
  assert (He : class_getattr c___eq_attrs__ world_loose_full (i_class x)
               = Some ["a"; "b"]) by (vm_compute; reflexivity).
  assert (Hp : Forall (plain_attr x y) ["a"; "b"]).
  { constructor; [|constructor; [|constructor]].
    - split; [reflexivity|]. exists (VInt 1), (VInt 2).
      repeat split; vm_compute; reflexivity.
    - split; [reflexivity|]. exists (VInt 0), (VInt 0).
      repeat split; vm_compute; reflexivity. }
  exact (eq_attrs_decides example_repr 0 world_loose_full 1 2 x y ["a"; "b"]
           Hx Hy eq_refl He Hp).
Defined.


(** ** Calls that do not reach the function *)

Lemma bind_args_names (ps : list param) (args : list value)
    (b : list (string * value)) :
  bind_args ps args = Return b ->
  map fst b = map p_name (firstn (length args) ps).
Proof.
  revert ps b. induction args as [|a args IH]; intros ps b.
  - destruct ps; simpl; by intros [= <-].
  - destruct ps as [|p ps]; simpl; [discriminate|].
    destruct (p_kind p); [|discriminate].
    destruct (bind_args ps args) as [b'|] eqn:E; [|discriminate].
    intros [= <-]. simpl. f_equal. by apply IH.
Qed.

Lemma bind_args_nil (ps : list param) : bind_args ps [] = Return [].
Proof. by destruct ps. Qed.

Lemma bind_args_too_many (ps : list param) (args : list value) :
  (length ps < length args)%nat -> bind_args ps args = Raise TypeError.
Proof.
  revert ps. induction args as [|a args IH]; intros ps H; simpl in H; [lia|].
  destruct ps as [|p ps]; simpl; [done|]. simpl in H.
  destruct (p_kind p); [|done]. rewrite IH by lia. done.
Qed.

Lemma bind_kwargs_app (ps : list param) (kwargs bound b2 : list (string * value)) :
  bind_kwargs ps bound kwargs = Return b2 -> b2 = bound ++ kwargs.
Proof.
  revert bound. induction kwargs as [|[k v] kwargs IH]; intros bound; simpl.
  - intros [= <-]. by rewrite app_nil_r.
  - destruct (_ && _); [|discriminate].
    intros H. rewrite (IH _ H). by rewrite <- app_assoc.
Qed.

Lemma assoc_none_notin {A} (k : string) (l : list (string * A)) :
  ~ In k (map fst l) -> assoc k l = None.
Proof.
  induction l as [|[k' a] l IH]; simpl; [done|].
  intros H. destruct (String.eqb_spec k k') as [->|Hne].
  - exfalso. apply H. by left.
  - apply IH. intros Hin. apply H. by right.
Qed.

Lemma assoc_app_none {A} (k : string) (l l' : list (string * A)) :
  assoc k l = None -> assoc k l' = None -> assoc k (l ++ l') = None.
Proof.
  induction l as [|[k' a] l IH]; simpl; [done|].
  destruct (String.eqb k k'); [done | exact IH].
Qed.

Lemma assoc_arguments_none (ps : list param) (b : list (string * value))
    (n : string) :
  assoc n b = None -> assoc n (arguments ps b) = None.
Proof.
  intros Hn. unfold arguments. induction ps as [|p ps IH]; simpl; [done|].
  destruct (assoc (p_name p) b) as [v|] eqn:E; simpl; [|exact IH].
  destruct (String.eqb_spec n (p_name p)) as [->|Hne]; [congruence | exact IH].
Qed.

(** A parameter that received no value is not among the bound
    arguments. *)
Lemma bind_omitted (ps : list param) (args : list value)
    (kwargs bound : list (string * value)) (n : string) :
  bind ps args kwargs = Return bound ->
  ~ In n (map p_name (firstn (length args) ps)) ->
  assoc n kwargs = None ->
  assoc n bound = None.
Proof.
  unfold bind. destruct (bind_args ps args) as [b1|] eqn:E1; [|discriminate].
  destruct (bind_kwargs ps b1 kwargs) as [b2|] eqn:E2; [|discriminate].
  destruct (forallb _ ps); [|discriminate].
  intros [= <-] Hpos Hkw. apply assoc_arguments_none.
  rewrite (bind_kwargs_app _ _ _ _ E2). apply assoc_app_none; [|done].
  apply assoc_none_notin. by rewrite (bind_args_names _ _ _ E1).
Qed.

(** X18.  The wrapper looks its target up among the arguments that the
    call supplies. When the call binds but gives the target parameter no
    value, neither by position nor by keyword (so that the function would
    use its default), the wrapped call raises [KeyError]; the function is
    never called and the store is unchanged. *)
Theorem wrapper_key_error (func g : pyfunc) (name : option string) (n : string)
    (mutate : bool) (args : list value) (kwargs bound : list (string * value))
    (w : world) :
  unlock_instance_func func name mutate = Return g ->
  target_name func name = Some n ->
  bind (signature func) args kwargs = Return bound ->
  ~ In n (map p_name (firstn (length args) (signature func))) ->
  assoc n kwargs = None ->
  f_call g args kwargs w = (Raise KeyError, w).
Proof.
  intros Hg Hn Hbind Hpos Hkw.
  destruct (unlock_instance_func_inv _ _ _ _ Hg) as (n' & Hn' & _ & ->).
  rewrite Hn in Hn'. injection Hn' as <-.
  cbn [f_call]. unfold wrapper.
  change (signature (PyFunc (f___name__ func) (f_params func)
                            (Some (signature func)) (f_call func)))
    with (signature func).
  rewrite Hbind. by rewrite (bind_omitted _ _ _ _ n Hbind Hpos Hkw).
Qed.

(** X19.  A call that cannot be bound to the signature fails before any
    scope is opened: with more positional arguments than parameters, or with
    no argument at all while some parameter has no default, the wrapped call
    raises [TypeError] and the store is unchanged. *)
Theorem wrapper_type_error (func g : pyfunc) (name : option string)
    (mutate : bool) (args : list value) (kwargs : list (string * value))
    (w : world) :
  unlock_instance_func func name mutate = Return g ->
  (length (signature func) < length args)%nat
  \/ (args = [] /\ kwargs = []
      /\ exists p, In p (signature func) /\ p_default p = None) ->
  f_call g args kwargs w = (Raise TypeError, w).
Proof.
  intros Hg Hbad.
  destruct (unlock_instance_func_inv _ _ _ _ Hg) as (n & _ & _ & ->).
  cbn [f_call]. unfold wrapper.
  change (signature (PyFunc (f___name__ func) (f_params func)
                            (Some (signature func)) (f_call func)))
    with (signature func).
  assert (E : bind (signature func) args kwargs = Raise TypeError).
  { unfold bind. destruct Hbad as [Hlen|(-> & -> & p & Hp & Hd)].
    - by rewrite bind_args_too_many.
    - rewrite bind_args_nil. cbn [bind_kwargs].
      assert (Hf : forallb (fun p0 => is_some (p_default p0)
                                      || is_some (assoc (p_name p0) ([] : list (string * value))))
                           (signature func) = false).
      { apply not_true_is_false. intros Hall.
        rewrite forallb_forall in Hall. specialize (Hall p Hp).
        rewrite Hd in Hall. discriminate Hall. }
      by rewrite Hf. }
  by rewrite E.
Qed.

Lemma wrapper_key_error_witness :
  f_call (PyFunc "f" (f_params with_default) (Some (signature with_default))
            (wrapper (PyFunc "f" (f_params with_default) (Some (signature with_default))
                             (f_call with_default)) "cosmo" true))
         [VInt 1] [] world0
  = (Raise KeyError, world0).
Proof.
  apply (wrapper_key_error with_default _ (Some "cosmo") "cosmo" true [VInt 1] []
           [("x", VInt 1)] world0).
  - reflexivity.
  - reflexivity.
  - reflexivity.
  - simpl. intros [H|[]]. discriminate H.
  - reflexivity.
Defined.

Lemma wrapper_type_error_witness :
  f_call (PyFunc "func1" (f_params func1) (Some (signature func1))
            (wrapper (PyFunc "func1" (f_params func1) (Some (signature func1))
                             (f_call func1)) "pk" true))
         [] [] world0
  = (Raise TypeError, world0).
Proof.
  apply (wrapper_type_error func1 _ (Some "pk") true [] [] world0).
  - reflexivity.
  - right. split; [reflexivity|]. split; [reflexivity|].
    exists (positional "item"). split; [|reflexivity]. left. reflexivity.
Defined.

(** ** The per-manager lock never makes a thread wait *)

Lemma own_locks_update (m : Threads.machine) (t : nat) (th th' : Threads.thread)
    (w : world) (locks : gmap Z nat) :
  own_locks m ->
  Threads.m_threads m !! t = Some th ->
  Threads.manager th' = Threads.manager th ->
  (forall i t0, locks !! i = Some t0 ->
     Threads.m_rlocks m !! i = Some t0
     \/ (i = UnlockInstance.id (Threads.manager th) /\ t0 = t)) ->
  own_locks (Threads.update m t w th' locks).
Proof.
  intros [Hid Hl] Ht Hm Hlocks.
  assert (Hlen : (t < length (Threads.m_threads m))%nat)
    by (by apply lookup_lt_Some in Ht).
  assert (Hlook : forall t0 th0,
            <[t := th']> (Threads.m_threads m) !! t0 = Some th0 ->
            exists th1, Threads.m_threads m !! t0 = Some th1
                        /\ Threads.manager th0 = Threads.manager th1).
  { intros t0 th0. destruct (decide (t = t0)) as [<-|Hne].
    - rewrite list_lookup_insert_eq by done. intros [= <-]. by exists th.
    - rewrite list_lookup_insert_ne by done. intros H. by exists th0. }
  split; simpl.
  - intros t1 t2 th1 th2 H1 H2 He.
    destruct (Hlook _ _ H1) as (a1 & Ha1 & E1).
    destruct (Hlook _ _ H2) as (a2 & Ha2 & E2).
    apply (Hid t1 t2 a1 a2 Ha1 Ha2). by rewrite <- E1, <- E2.
  - intros i t0 Hi. destruct (Hlocks i t0 Hi) as [Hold|[-> ->]].
    + destruct (Hl i t0 Hold) as (th0 & Hth0 & <-).
      destruct (decide (t = t0)) as [<-|Hne].
      * rewrite list_lookup_insert_eq by done. exists th'. split; [done|].
        rewrite Hm. congruence.
      * rewrite list_lookup_insert_ne by done. by exists th0.
    + rewrite list_lookup_insert_eq by done. exists th'. by rewrite Hm.
Qed.

Lemma own_locks_acquire (m : Threads.machine) (t : nat) (th : Threads.thread) :
  own_locks m -> Threads.m_threads m !! t = Some th ->
  exists locks, Threads.acquire t (Threads.manager th) m = Some locks
    /\ forall i t0, locks !! i = Some t0 ->
         Threads.m_rlocks m !! i = Some t0
         \/ (i = UnlockInstance.id (Threads.manager th) /\ t0 = t).
Proof.
  intros [Hid Hl] Ht. unfold Threads.acquire.
  destruct (Threads.m_rlocks m !! UnlockInstance.id (Threads.manager th))
    as [t'|] eqn:E.
  - destruct (Hl _ _ E) as (th' & Hth' & He).
    rewrite (Hid t' t th' th Hth' Ht He).
    rewrite bool_decide_eq_true_2 by done.
    eexists. split; [done|]. intros i t0 H. by left.
  - eexists. split; [done|]. intros i t0.
    destruct (decide (UnlockInstance.id (Threads.manager th) = i)) as [<-|Hne].
    + rewrite lookup_insert_eq. intros [= <-]. by right.
    + rewrite lookup_insert_ne by done. by left.
Qed.

Lemma release_sub (self : UnlockInstance.t) (m : Threads.machine) (i : Z) (t0 : nat) :
  Threads.release self m !! i = Some t0 -> Threads.m_rlocks m !! i = Some t0.
Proof.
  unfold Threads.release. destruct (decide (UnlockInstance.id self = i)) as [<-|Hne].
  - by rewrite lookup_delete_eq.
  - by rewrite lookup_delete_ne.
Qed.

(** A step keeps the invariant, and under the invariant every thread that
    has not finished can take its step. *)
Lemma own_locks_step (m : Threads.machine) (t : nat) (th : Threads.thread) :
  own_locks m -> Threads.m_threads m !! t = Some th ->
  Threads.at_ th <> Threads.Finished ->
  exists m', Threads.step t m = Some m' /\ own_locks m'.
Proof.
  intros Hinv Ht Hnf. unfold Threads.step. rewrite Ht.
  assert (Hkeep : forall w th',
            Threads.manager th' = Threads.manager th ->
            own_locks (Threads.update m t w th' (Threads.m_rlocks m))).
  { intros w th' Hm. apply (own_locks_update m t th); try done.
    intros i t0 H. by left. }
  assert (Hrel : forall w th',
            Threads.manager th' = Threads.manager th ->
            own_locks (Threads.update m t w th' (Threads.release (Threads.manager th) m))).
  { intros w th' Hm. apply (own_locks_update m t th); try done.
    intros i t0 H. left. by apply (release_sub (Threads.manager th)). }
  destruct (own_locks_acquire m t th Hinv Ht) as (locks & Hacq & Hlocks).
  assert (Hacquired : forall w th',
            Threads.manager th' = Threads.manager th ->
            own_locks (Threads.update m t w th' locks)).
  { intros w th' Hm. by apply (own_locks_update m t th). }
  destruct (Threads.at_ th); try done.
  - destruct (negb _); [eexists; split; [done|]; by apply Hkeep|].
    rewrite Hacq. eexists. split; [done|]. by apply Hacquired.
  - destruct (UnlockInstance.the_lock _ _) as [[r x]|];
      [destruct (ObjectLock.active _)|];
      eexists; (split; [done|]); by (apply Hkeep || apply Hrel).
  - destruct (UnlockInstance.the_lock _ _) as [[r x]|];
      eexists; (split; [done|]); by apply Hrel.
  - destruct (negb _); [eexists; split; [done|]; by apply Hkeep|].
    destruct (UnlockInstance.the_lock _ _) as [[r x]|];
      [destruct (negb _)|];
      eexists; (split; [done|]); by apply Hkeep.
  - rewrite Hacq. eexists. split; [done|]. by apply Hacquired.
  - destruct (UnlockInstance.the_lock _ _) as [[r x]|];
      eexists; (split; [done|]); by apply Hrel.
Qed.

Lemma own_locks_run (schedule : list nat) (m m' : Threads.machine) :
  own_locks m -> Threads.run schedule m = Some m' -> own_locks m'.
Proof.
  revert m. induction schedule as [|t rest IH]; intros m Hinv; simpl.
  - by intros [= <-].
  - destruct (Threads.step t m) as [m1|] eqn:E; [|discriminate].
    apply IH.
    destruct (Threads.m_threads m !! t) as [th|] eqn:Ht.
    2: { unfold Threads.step in E. by rewrite Ht in E. }
    assert (Hf : Threads.at_ th <> Threads.Finished).
    { intros Hf. unfold Threads.step in E. by rewrite Ht, Hf in E. }
    destruct (own_locks_step m t th Hinv Ht Hf) as (m2 & E2 & H2).
    rewrite E in E2. by injection E2 as <-.
Qed.

Lemma lookup_map_Some {A B} (f : A -> B) (l : list A) (i : nat) (b : B) :
  map f l !! i = Some b -> exists a, l !! i = Some a /\ b = f a.
Proof.
  revert i. induction l as [|a l IH]; intros [|i]; simpl; try done.
  - intros [= <-]. by exists a.
  - apply IH.
Qed.

Lemma own_locks_spawn (w : world) (target : value) (ids : list Z) :
  NoDup ids -> own_locks (Threads.spawn w target ids).
Proof.
  intros Hnd. split; simpl.
  - intros t1 t2 th1 th2 H1 H2 He.
    apply lookup_map_Some in H1 as (i1 & Hi1 & ->).
    apply lookup_map_Some in H2 as (i2 & Hi2 & ->).
    simpl in He. subst i2. by apply (NoDup_lookup ids t1 t2 i1).
  - intros i t. by rewrite lookup_empty.
Qed.

(** X20.  The [RLock] of a manager never makes a thread wait.  When the
    managers of the threads are different objects, then after any
    interleaving of their steps every thread that has not finished can take
    its next step: each [with self.thread_lock] is entered at once,
    whichever thread holds whichever lock. *)
Theorem threads_never_wait (w : world) (target : value) (ids : list Z)
    (schedule : list nat) (m : Threads.machine) (t : nat) (th : Threads.thread) :
  NoDup ids ->
  Threads.run schedule (Threads.spawn w target ids) = Some m ->
  Threads.m_threads m !! t = Some th ->
  Threads.at_ th <> Threads.Finished ->
  is_Some (Threads.step t m).
Proof.
  intros Hnd Hrun Ht Hnf.
  pose proof (own_locks_run _ _ _ (own_locks_spawn w target ids Hnd) Hrun) as Hinv.
  destruct (own_locks_step m t th Hinv Ht Hnf) as (m' & E & _). by exists m'.
Qed.

Lemma threads_never_wait_witness :
  exists m,
    Threads.run [0; 1]%nat (Threads.spawn world_two_points (VRef 1) [10; 11]) = Some m
    /\ is_Some (Threads.step 1 m).
Proof.
  eexists. split; [vm_compute; reflexivity|].
  eapply (threads_never_wait world_two_points (VRef 1) [10; 11] [0; 1]%nat _ 1%nat).
  - apply NoDup_cons. split; [|apply NoDup_singleton].
    intros H. apply list_elem_of_singleton in H. discriminate H.
  - vm_compute. reflexivity.
  - vm_compute. reflexivity.
  - intros H. discriminate H.
Defined.

(** ** Halo model ingredients *)

Section HaloChecks.

Import Halos.

Variable create_instance : string + MassDef -> result MassDef.

(** X21.  The mass definition check of [HMIngredients] returns exactly
    when the mass definition is compatible with the model, or the class
    allows the check to be relaxed and [mass_def_strict] is False.  So for a
    class with [_mass_def_strict_always = True] the flag makes no difference,
    and for a class with [_mass_def_strict_always = False], such as
    [MassFuncTinker08], passing [mass_def_strict=False] accepts every mass
    definition. *)
Theorem check_mass_def_relaxation {S P} (cls : ingredient S P) (self : S)
    (strict : bool) (md : MassDef) :
  (_check_mass_def cls self strict md = None <->
     _check_mass_def_strict cls self md = false
     \/ (_mass_def_strict_always cls = false /\ strict = false))
  /\ (_mass_def_strict_always cls = true ->
      _check_mass_def cls self strict md = _check_mass_def cls self (negb strict) md)
  /\ (_mass_def_strict_always cls = false ->
      _check_mass_def cls self false md = None)
  /\ (forall e, _check_mass_def cls self strict md = Some e ->
        exists msg, e = ValueError msg).
Proof.
  unfold _check_mass_def.
  destruct (_check_mass_def_strict cls self md),
           (_mass_def_strict_always cls), strict; simpl.
  all: repeat split; try done; try (intros [H|[H1 H2]]; done);
       try (intros _; by right); try (intros _; by left);
       try (intros e [= <-]; by eexists).
Qed.

Lemma not_in_three (x a b c : string) :
  not_in x [a; b; c] = false -> x = a \/ x = b \/ x = c.
Proof.
  unfold not_in. simpl.
  destruct (String.eqb_spec x a) as [->|_]; [by left|].
  destruct (String.eqb_spec x b) as [->|_]; [right; by left|].
  destruct (String.eqb_spec x c) as [->|_]; [right; by right|].
  done.
Qed.

(** X22.  The mass definitions that [ConcentrationDuffy08] and
    [ConcentrationBhattacharya13] accept are exactly the keys of their
    parameter tables: once the mass definition has been created, the
    constructor either raises [ValueError] from the check (the name is not
    one of vir, 200m, 200c) or returns with [mass_def_strict = True], the
    mass definition, and the parameters that the table gives for its name.
    The lookup in [_setup] never raises [KeyError]. *)
Theorem concentration_tables_total (arg : string + MassDef) (md : MassDef) :
  create_instance arg = inr md ->
  let accepted := negb (not_in (name md) ["vir"; "200m"; "200c"]) in
  (if accepted
   then exists p, Concentration___init__ create_instance ConcentrationDuffy08 tt arg
                  = inr (Attrs tt true md p)
                  /\ getitem String.eqb Duffy08_vals (name md) = inr p
   else exists msg, Concentration___init__ create_instance ConcentrationDuffy08 tt arg
                    = inl (ValueError msg))
  /\ (if accepted
      then exists p, Concentration___init__ create_instance ConcentrationBhattacharya13
                       tt arg = inr (Attrs tt true md p)
                     /\ getitem String.eqb Bhattacharya13_vals (name md) = inr p
      else exists msg, Concentration___init__ create_instance
                         ConcentrationBhattacharya13 tt arg = inl (ValueError msg)).
Proof.
  intros Hc. cbv zeta.
  unfold Concentration___init__, HMIngredients___init__, _check_mass_def.
  rewrite Hc. simpl.
  destruct (not_in (name md) ["vir"; "200m"; "200c"]) eqn:E; simpl.
  - split; by eexists.
  - destruct (not_in_three _ _ _ _ E) as [Hn|[Hn|Hn]]; rewrite Hn; simpl;
      split; eexists; by split.
Qed.

(** X23.  [ConcentrationIshiyama21] looks its parameters up by
    [(Vmax, relaxed, Delta)] but checks the mass definition by its name.  For
    a mass definition whose name goes with its [Delta] (vir, 200c, 500c), the
    constructor either raises [ValueError] from the check, which also refuses
    [Delta = 500] together with [Vmax], or returns with the parameters of the
    table; the lookup in [_setup] never raises [KeyError]. *)
Theorem Ishiyama21_table_total (arg : string + MassDef) (md : MassDef)
    (self : Ishiyama21_own) :
  create_instance arg = inr md ->
  critical_name md ->
  (exists msg, Concentration___init__ create_instance ConcentrationIshiyama21 self arg
               = inl (ValueError msg))
  \/ (exists p, Concentration___init__ create_instance ConcentrationIshiyama21 self arg
                = inr (Attrs self true md p)
                /\ getitem key_eqb Ishiyama21_vals (Vmax self, relaxed self, Delta md)
                   = inr p
                /\ (Vmax self = true -> Delta md <> DeltaNum 500)).
Proof.
  intros Hc (Hvir & H200 & H500).
  unfold Concentration___init__, HMIngredients___init__, _check_mass_def.
  rewrite Hc. simpl.
  destruct (not_in (name md) ["vir"; "200c"; "500c"]) eqn:E; simpl.
  { left. by eexists. }
  destruct self as [rel vm].
  destruct (not_in_three _ _ _ _ E) as [Hn|[Hn|Hn]];
    [rewrite (Hvir Hn) | rewrite (H200 Hn) | rewrite (H500 Hn)]; simpl.
  - right. destruct vm, rel; simpl; eexists; (split; [done|]); by split.
  - right. destruct vm, rel; simpl; eexists; (split; [done|]); by split.
  - destruct vm; simpl.
    + left. by eexists.
    + right. destruct rel; simpl; eexists; (split; [done|]); by split.
Qed.

End HaloChecks.

Lemma check_mass_def_relaxation_witness :
  Halos._check_mass_def
    (Halos.Ingredient "MassFuncTinker08" false
       (fun _ => Halos.MassFuncTinker08_check) (fun (_ : unit) _ => inr tt))
    tt false (Halos.mkMassDef "fof" (Halos.DeltaStr "fof"))
  = None.
Proof.
  refine (proj1 (proj2 (proj2
    (check_mass_def_relaxation
       (Halos.Ingredient "MassFuncTinker08" false
          (fun _ => Halos.MassFuncTinker08_check) (fun (_ : unit) _ => inr tt))
       tt false (Halos.mkMassDef "fof" (Halos.DeltaStr "fof"))))) _).
  reflexivity.
Defined.

Lemma concentration_tables_total_witness :
  exists p,
    Halos.Concentration___init__ (fun _ => inr (Halos.mkMassDef "200c" (Halos.DeltaNum 200)))
      Halos.ConcentrationDuffy08 tt (inl "200c")
    = inr (Halos.Attrs tt true (Halos.mkMassDef "200c" (Halos.DeltaNum 200)) p)
    /\ Halos.getitem String.eqb Halos.Duffy08_vals "200c" = inr p.
Proof.
  exact (proj1 (concentration_tables_total
                  (fun _ => inr (Halos.mkMassDef "200c" (Halos.DeltaNum 200)))
                  (inl "200c") (Halos.mkMassDef "200c" (Halos.DeltaNum 200)) eq_refl)).
Defined.

Lemma Ishiyama21_table_total_witness :
  Halos.Concentration___init__
    (fun _ => inr (Halos.mkMassDef "500c" (Halos.DeltaNum 500)))
    Halos.ConcentrationIshiyama21 (Halos.mkIshiyama21 false true) (inl "500c")
  <> inl Halos.KeyError.
Proof.
  intros H.
  destruct (Ishiyama21_table_total
              (fun _ => inr (Halos.mkMassDef "500c" (Halos.DeltaNum 500)))
              (inl "500c") (Halos.mkMassDef "500c" (Halos.DeltaNum 500))
              (Halos.mkIshiyama21 false true) eq_refl)
    as [[msg E]|[p [E _]]].
  - repeat split; simpl; intros H0; (reflexivity || discriminate H0).
  - rewrite E in H. discriminate H.
  - rewrite E in H. discriminate H.
Defined.

(** ** Wrapped calls inside a scope *)

(** X24.  A wrapped function called on an instance that is inside an
    active scope behaves as the function itself, result and store: the
    manager of the inner call neither unlocks nor locks.  This is what lets a
    wrapped constructor call the wrapped constructor of its base class and go
    on assigning attributes afterwards. *)
Theorem nested_wrapped_call (func g : pyfunc) (name : option string)
    (mutate : bool) (n : string) (args : list value)
    (kwargs bound : list (string * value)) (w : world) (r : addr)
    (x : ccl_object) (i : Z) :
  unlock_instance_func func name mutate = Return g ->
  target_name func name = Some n ->
  bind (signature func) args kwargs = Return bound ->
  assoc n bound = Some (VRef r) ->
  heap w !! r = Some x ->
  _object_lock x = ObjectLock.mk false (Some i) ->
  _object_lock <$> heap (snd (f_call func args kwargs w)) !! r
    = Some (ObjectLock.mk false (Some i)) ->
  f_call g args kwargs w = f_call func args kwargs w.
Proof.
  intros Hg Hn Hbind Hinst Hx Hl Hafter.
  destruct (unlock_instance_func_inv _ _ _ _ Hg) as (n' & Hn' & _ & ->).
  assert (n' = n) as -> by congruence.
  cbn [f_call].
  rewrite (wrapper_call _ _ _ _ _ bound _ (VRef r)); [|exact Hbind|exact Hinst].
  cbn [f_call]. unfold UnlockInstance.with_.
  rewrite (init_on_instance w r x Hx).
  rewrite (enter_active w r x Hx) by (done || by rewrite Hl).
  destruct (f_call func args kwargs w) as [o w2]. simpl in Hafter.
  destruct (heap w2 !! r) as [x2|] eqn:Hx2; [|done].
  cbn in Hafter. injection Hafter as Hafter.
  rewrite (exit_other w2 r x2 Hx2); [done|done|].
  rewrite Hafter. simpl. intros [= H].
  by apply (manager_id_differs w r x i Hx); [rewrite Hl|].
Qed.

Lemma nested_wrapped_call_witness :
  let w := store (snd Double_class) 1
             (Instance "Double" (ObjectLock.mk false (Some 0)) ∅) in
  f_call Single_init_wrapped [VRef 1; VInt 1] [] w
  = f_call Single___init__ [VRef 1; VInt 1] [] w.
Proof.
  intros w.
  apply (nested_wrapped_call Single___init__ Single_init_wrapped None false "self"
           [VRef 1; VInt 1] [] [("self", VRef 1); ("a", VInt 1)] w 1
           (Instance "Double" (ObjectLock.mk false (Some 0)) ∅) 0).
  - reflexivity.
  - reflexivity.
  - reflexivity.
  - reflexivity.
  - apply heap_store.
  - reflexivity.
  - vm_compute. reflexivity.
Defined.

(** ** The lock used by hand *)

(** X25.  Locking by hand ends the scope that is active on the instance:
    after [x._object_lock.lock()] the exit of every manager leaves the store
    as it is, so a mutating manager no longer resets the caches; the instance
    is locked, its attributes are untouched and every assignment raises
    [AttributeError]. *)
Theorem lock_by_hand_ends_scope (w : world) (r : addr) (x : ccl_object)
    (self : UnlockInstance.t) :
  heap w !! r = Some x ->
  UnlockInstance.object_lock self = Some r ->
  let w1 := call_lock w r in
  UnlockInstance.__exit__ self w1 = w1
  /\ heap w1 !! r = Some (set_lock x (ObjectLock.mk true None))
  /\ (forall name v, __setattr__ w1 r name v = (Raise AttributeError, w1)).
Proof.
  intros Hx Hs w1. subst w1. unfold call_lock. rewrite Hx.
  split; [|split].
  - eapply exit_other; [apply heap_store | done | done].
  - apply heap_store.
  - intros name v. unfold __setattr__. by rewrite heap_store.
Qed.

Lemma lock_by_hand_ends_scope_witness :
  UnlockInstance.__exit__
    (UnlockInstance.__init__ 10 world_hashed (VRef 1) true)
    (call_lock world_hashed_in_scope 1)
  = call_lock world_hashed_in_scope 1.
Proof.
  refine (proj1 (lock_by_hand_ends_scope world_hashed_in_scope 1
                   (Instance "Point" (ObjectLock.mk false (Some 10))
                      (point_dict_hashed 1 2 (Point_repr "1" "2")))
                   (UnlockInstance.__init__ 10 world_hashed (VRef 1) true) _ _)).
  - vm_compute. reflexivity.
  - vm_compute. reflexivity.
Defined.

(** X26.  The representation of an [ObjectLock] tells whether an
    assignment on its instance goes through: it is
    [ObjectLock(locked=True)] exactly when every assignment raises
    [AttributeError], and [ObjectLock(locked=False)] exactly when every
    assignment succeeds; it never shows the id of the manager.  After
    [unlock()] by hand it reads [locked=False], after [lock()] it reads
    [locked=True]. *)
Theorem lock_repr_tells (w : world) (r : addr) (x : ccl_object) :
  heap w !! r = Some x ->
  (ObjectLock___repr__ (_object_lock x) = "ObjectLock(locked=True)" <->
     forall name v, fst (__setattr__ w r name v) = Raise AttributeError)
  /\ (ObjectLock___repr__ (_object_lock x) = "ObjectLock(locked=False)" <->
        forall name v, fst (__setattr__ w r name v) = Return tt)
  /\ (forall m, ObjectLock___repr__ <$> (_object_lock <$> heap (call_unlock w r m) !! r)
                = Some "ObjectLock(locked=False)")
  /\ ObjectLock___repr__ <$> (_object_lock <$> heap (call_lock w r) !! r)
     = Some "ObjectLock(locked=True)".
Proof.
  intros Hx. unfold __setattr__, call_lock, call_unlock. rewrite Hx.
  rewrite !heap_store. unfold ObjectLock___repr__, ObjectLock.locked.
  split; [|split; [|split]].
  - destruct (ObjectLock._locked (_object_lock x)); simpl; split; try done.
    intros H. specialize (H EmptyString VNone). discriminate H.
  - destruct (ObjectLock._locked (_object_lock x)); simpl; split; try done.
    intros H. specialize (H EmptyString VNone). discriminate H.
  - intros m. rewrite ?heap_store. reflexivity.
  - rewrite ?heap_store. reflexivity.
Qed.

Lemma lock_repr_tells_witness :
  ObjectLock___repr__ <$> (_object_lock <$> heap (call_unlock world_two_points 1 None) !! 1)
  = Some "ObjectLock(locked=False)".
Proof.
  refine (proj1 (proj2 (proj2 (lock_repr_tells world_two_points 1
                                 (point true None 1 2) _))) None).
  vm_compute. reflexivity.
Defined.

(** A class whose body has no [update_parameters] gets no wrapper
    for it, so the method found on its instances is the one of [CCLObject],
    which raises [NotImplementedError] on every call and leaves the store as
    it is; the instance stays locked. *)
Theorem update_parameters_not_implemented (cls : class_id) (bases : list class_id)
    (body_repr : option repr_fun) (repr_attrs eq_attrs : option (list string))
    (body_init init upd : option pyfunc) (w w' : world) :
  define_class cls bases body_repr repr_attrs eq_attrs body_init None w
    = (Return (init, upd), w') ->
  upd = None
  /\ forall args kwargs w0,
       f_call update_parameters args kwargs w0 = (Raise NotImplementedError, w0).
Proof.
  intros H. destruct (define_class_init _ _ _ _ _ _ _ _ _ _ _ H) as [_ Hu].
  simpl in Hu. by injection Hu as <-.
Qed.

Lemma update_parameters_not_implemented_witness :
  match fst Single_class with Return (_, u) => u | Raise _ => None end = None.
Proof.
  destruct (update_parameters_not_implemented "Single"
              ["CCLAutoreprObject"; "CCLObject"] None (Some ["a"]) None
              (Some Single___init__) Single_init None world0
              (snd Single_class) eq_refl) as [_ H].
  reflexivity.
Defined.

(** [Double(1, 2)]: the constructor of [Single] runs inside the scope of
    the constructor of [Double]; the instance comes back locked with both
    attributes. *)
Lemma Double_construct_run :
  let res := construct "Double" Double_init 1 [VInt 1; VInt 2] [] (snd Double_class) in
  fst res = Return (VRef 1)
  /\ heap (snd res) !! 1
     = Some (Instance "Double" (ObjectLock.mk true None)
               (<["b" := VInt 2]> (<["a" := VInt 1]> ∅))).
Proof. split; vm_compute; reflexivity. Qed.

(** ** Bounds of emulators *)

Section BoundsProps.

Import Emulators.

Variable num : Type.
Variable le : num -> num -> bool.

Lemma well_formed_dec (p : string * pyseq num) :
  (exists vmin vmax, items (snd p) = [vmin; vmax]
     /\ Bounds___init__ num le [p] = (None, [(fst p, as_list (snd p))])
     /\ le vmin vmax = true)
  \/ (~ well_formed num le p /\ exists e, Bounds___init__ num le [p] = (Some e, [p])).
Proof.
  destruct p as [par vals]. simpl.
  destruct (items vals) as [|vmin [|vmax [|v3 l]]] eqn:E.
  - right. split; [|by eexists].
    intros (a & b & H & _). simpl in H. rewrite E in H. discriminate H.
  - right. split; [|by eexists].
    intros (a & b & H & _). simpl in H. rewrite E in H. discriminate H.
  - destruct (le vmin vmax) eqn:Hle; simpl.
    + left. by exists vmin, vmax.
    + right. split; [|by eexists].
      intros (a & b & H & Hab). simpl in H. rewrite E in H.
      injection H as <- <-. congruence.
  - right. split; [|by eexists].
    intros (a & b & H & _). simpl in H. rewrite E in H. discriminate H.
Qed.

Lemma Bounds_init_cons (p : string * pyseq num) (rest : list (string * pyseq num)) :
  Bounds___init__ num le (p :: rest)
  = match Bounds___init__ num le [p] with
    | (None, _) =>
        (fst (Bounds___init__ num le rest),
         (fst p, as_list (snd p)) :: snd (Bounds___init__ num le rest))
    | (Some e, _) => (Some e, p :: rest)
    end.
Proof.
  destruct p as [par vals]. simpl.
  destruct (items vals) as [|vmin [|vmax [|v3 l]]]; try done.
  destruct (negb (le vmin vmax)); [done|].
  by destruct (Bounds___init__ num le rest).
Qed.

(** X27.  [Bounds.__init__] returns exactly when every entry is a range
    of two items with [vmin <= vmax]; the dictionary then has the same keys
    in the same order and every range is a list with the same two items.
    When it raises, it stops at the first entry that is not such a range: the
    entries before it have been turned into lists in the dictionary of the
    caller, that entry and those after it are as they were. *)
Theorem Bounds_init_total (bounds : list (string * pyseq num)) :
  let res := Bounds___init__ num le bounds in
  (fst res = None <-> Forall (well_formed num le) bounds)
  /\ (fst res = None -> snd res = map (fun p => (fst p, as_list (snd p))) bounds)
  /\ map fst (snd res) = map fst bounds
  /\ (forall e, fst res = Some e ->
        exists pre p post,
          bounds = pre ++ p :: post
          /\ Forall (well_formed num le) pre
          /\ ~ well_formed num le p
          /\ snd res = map (fun q => (fst q, as_list (snd q))) pre ++ p :: post).
Proof.
  induction bounds as [|p rest IH]; cbv zeta.
  { simpl. split; [split; [constructor|done]|]. split; [done|]. split; [done|].
    intros e H. discriminate H. }
  cbv zeta in IH. destruct IH as (IH1 & IH2 & IH3 & IH4).
  rewrite Bounds_init_cons.
  destruct (well_formed_dec p) as [(vmin & vmax & Hi & E & Hle)|[Hnw [e E]]];
    rewrite E; simpl.
  - assert (Hw : well_formed num le p) by (by exists vmin, vmax).
    split; [|split; [|split]].
    + rewrite IH1. split; [intros H; by constructor|].
      intros H. by apply Forall_cons in H as [_ H].
    + intros H. by rewrite (IH2 H).
    + by rewrite IH3.
    + intros e He. destruct (IH4 e He) as (pre & q & post & -> & Hpre & Hq & Hres).
      exists (p :: pre), q, post. split; [done|]. split; [by constructor|].
      split; [done|]. simpl. by rewrite Hres.
  - split; [|split; [|split]].
    + split; [done|]. intros H. apply Forall_cons in H as [H _]. done.
    + done.
    + done.
    + intros e0 _. exists [], p, rest. by repeat split.
Qed.

Lemma check_bounds_step (bounds : list (string * pyseq num)) (par : string)
    (val : num) (rest : list (string * num)) :
  Forall (fun p => length (items (snd p)) = 2%nat) bounds ->
  (assoc par bounds = None
   /\ check_bounds num le bounds ((par, val) :: rest)
      = (fst (check_bounds num le bounds rest),
         ("Unknown bounds for parameter " +:+ par +:+ ".")
           :: snd (check_bounds num le bounds rest)))
  \/ (exists vals vmin vmax,
        assoc par bounds = Some vals /\ items vals = [vmin; vmax]
        /\ ((le vmin val && le val vmax = true
             /\ check_bounds num le bounds ((par, val) :: rest)
                = check_bounds num le bounds rest)
            \/ (le vmin val && le val vmax = false
                /\ exists msg, check_bounds num le bounds ((par, val) :: rest)
                               = (Some (ValueError msg), [])))).
Proof.
  intros Hb. simpl. destruct (assoc par bounds) as [vals|] eqn:Ha.
  - right.
    assert (Hlen : length (items vals) = 2%nat).
    { clear -Hb Ha. induction Hb as [|[k v] l Hk _ IH]; simpl in Ha; [done|].
      destruct (String.eqb par k); [by injection Ha as <- | by apply IH]. }
    destruct (items vals) as [|vmin [|vmax [|v3 l]]] eqn:E; try done.
    exists vals, vmin, vmax. split; [done|]. split; [done|].
    destruct (le vmin val && le val vmax); simpl; [by left|].
    right. split; [done|]. by eexists.
  - left. split; [done|]. by destruct (check_bounds num le bounds rest).
Qed.

(** X28.  Against bounds whose ranges all have two items, as
    [Bounds.__init__] leaves them, [check_bounds] returns exactly when every
    proposed parameter that has a range lies inside it; it then has warned
    once for each proposed parameter without a range, in the order of the
    proposal, and a parameter without a range never makes it raise. *)
Theorem check_bounds_total (bounds : list (string * pyseq num))
    (proposal : list (string * num)) :
  Forall (fun p => length (items (snd p)) = 2%nat) bounds ->
  let res := check_bounds num le bounds proposal in
  (fst res = None <-> Forall (within num le bounds) proposal)
  /\ (fst res = None ->
      snd res
      = map (fun p => "Unknown bounds for parameter " +:+ fst p +:+ ".")
            (filter (fun p => assoc (fst p) bounds = None) proposal))
  /\ (forall e, fst res = Some e -> exists msg, e = ValueError msg).
Proof.
  intros Hb. induction proposal as [|[par val] rest IH]; cbv zeta.
  { simpl. split; [split; [constructor|done]|]. split; [done|].
    intros e H. discriminate H. }
  cbv zeta in IH. destruct IH as (IH1 & IH2 & IH3).
  destruct (check_bounds_step bounds par val rest Hb)
    as [[Ha E]|(vals & vmin & vmax & Ha & Hi & [[Hin E]|[Hout [msg E]]])];
    rewrite E; simpl.
  - split; [|split].
    + rewrite IH1. split.
      * intros H. constructor; [|done]. intros vals Hv. simpl in Hv. congruence.
      * intros H. by apply Forall_cons in H as [_ H].
    + intros H. rewrite filter_cons_True by done. simpl. by rewrite (IH2 H).
    + exact IH3.
  - apply andb_true_iff in Hin as [H1 H2]. split; [|split].
    + rewrite IH1. split.
      * intros H. constructor; [|done]. intros vals' Hv. simpl in Hv.
        rewrite Ha in Hv. injection Hv as <-. by exists vmin, vmax.
      * intros H. by apply Forall_cons in H as [_ H].
    + intros H. rewrite filter_cons_False by (simpl; congruence). by apply IH2.
    + exact IH3.
  - split; [|split].
    + split; [done|]. intros H. apply Forall_cons in H as [H _].
      destruct (H vals Ha) as (a & b & Hab & H1 & H2). simpl in *.
      rewrite Hi in Hab. injection Hab as <- <-. by rewrite H1, H2 in Hout.
    + done.
    + intros e [= <-]. by eexists.
Qed.

End BoundsProps.

Lemma Bounds_init_total_witness :
  Emulators.Bounds___init__ Z Z.leb
    [("h", Emulators.PyTuple [64; 82]); ("n_s", Emulators.PyList [90; 110])]
  = (None, [("h", Emulators.PyList [64; 82]); ("n_s", Emulators.PyList [90; 110])]).
Proof.
  pose (b := [("h", Emulators.PyTuple [64; 82]); ("n_s", Emulators.PyList [90; 110])]).
  destruct (Bounds_init_total Z Z.leb b) as ([_ H1] & H2 & _).
  assert (Hw : Forall (Emulators.well_formed Z Z.leb) b).
  { constructor; [|constructor; [|constructor]].
    - exists 64, 82. split; reflexivity.
    - exists 90, 110. split; reflexivity. }
  specialize (H2 (H1 Hw)).
  change (Emulators.Bounds___init__ Z Z.leb b
          = (None, [("h", Emulators.PyList [64; 82]); ("n_s", Emulators.PyList [90; 110])])).
  rewrite (surjective_pairing (Emulators.Bounds___init__ Z Z.leb b)).
  rewrite (H1 Hw), H2. reflexivity.
Defined.

Lemma check_bounds_total_witness :
  Emulators.check_bounds Z Z.leb
    [("h", Emulators.PyList [64; 82]); ("n_s", Emulators.PyList [90; 110])]
    [("h", 70); ("w0", -1)]
  = (None, ["Unknown bounds for parameter w0."]).
Proof.
  pose (b := [("h", Emulators.PyList [64; 82]); ("n_s", Emulators.PyList [90; 110])]).
  pose (p := [("h", 70); ("w0", -1)]).
  destruct (check_bounds_total Z Z.leb b p) as ([_ H1] & H2 & _).
  { repeat constructor. }
  assert (Hw : Forall (Emulators.within Z Z.leb b) p).
  { constructor; [|constructor; [|constructor]].
    - intros vals [= <-]. exists 64, 82. repeat split.
    - intros vals H. discriminate H. }
  specialize (H2 (H1 Hw)).
  change (Emulators.check_bounds Z Z.leb b p
          = (None, ["Unknown bounds for parameter w0."])).
  rewrite (surjective_pairing (Emulators.check_bounds Z Z.leb b p)).
  rewrite (H1 Hw), H2. reflexivity.
Defined.

(** ** The registry of emulators *)

Section RegistryProps.

Import Emulators.

Context {model config bounds : Type} `{EqDecision config}.

Local Abbreviation entry := (Emulators.entry model config bounds).
Local Abbreviation emulator := (Emulators.emulator config).

Lemma get_entry_Some (self : emulator) (emulators : gmap string entry) (e : entry) :
  emulators !! name self = Some e -> _get_entry self emulators = inr e.
Proof. intros He. unfold _get_entry. by rewrite He. Qed.

Lemma has_config_Some (self : emulator) (emulators : gmap string entry) (e : entry) :
  emulators !! name self = Some e ->
  _has_config self emulators
  = inr (match e_config e with Some _ => true | None => false end).
Proof. intros He. unfold _has_config. by rewrite (get_entry_Some _ _ e). Qed.

Lemma get_config_Some (self : emulator) (emulators : gmap string entry) (e : entry) :
  emulators !! name self = Some e -> _get_config self emulators = inr (e_config e).
Proof.
  intros He. unfold _get_config. rewrite (has_config_Some _ _ e He).
  rewrite (get_entry_Some _ _ e He). by destruct (e_config e).
Qed.

Lemma has_model_Some (self : emulator) (emulators : gmap string entry) (e : entry) :
  emulators !! name self = Some e ->
  _has_model self emulators
  = let reload := negb (bool_decide (e_config e = Some (_config_emu_kwargs self))) in
    inr (if reload then false
         else match e_model e with Some _ => true | None => false end,
         Emu (name self) (_config_emu_kwargs self) (Some reload)).
Proof.
  intros He. unfold _has_model. rewrite (get_config_Some _ _ e He). cbv zeta.
  destruct (negb _); [done|].
  by rewrite (get_entry_Some (Emu _ _ _) _ e He).
Qed.

Lemma set_model_Some (load : emulator -> error + model) (self : emulator)
    (emulators : gmap string entry) (e : entry) :
  emulators !! name self = Some e ->
  _set_model load self emulators
  = match load self with
    | inl err => (inl err, emulators)
    | inr m => (inr tt, <[name self := Entry (Some m) (e_config e) (e_bounds e)]> emulators)
    end.
Proof. intros He. unfold _set_model. by rewrite (get_entry_Some _ _ e He). Qed.

Lemma set_config_Some (self : emulator) (emulators : gmap string entry) (e : entry) :
  emulators !! name self = Some e ->
  _set_config self emulators
  = (inr tt, <[name self := Entry (e_model e) (Some (_config_emu_kwargs self))
                                  (e_bounds e)]> emulators).
Proof. intros He. unfold _set_config. by rewrite (get_entry_Some _ _ e He). Qed.

(** The construction when the registry has an entry for the name. *)
Lemma Emulator_init_entry (load : emulator -> error + model) (self : emulator)
    (emulators : gmap string entry) (e : entry) :
  emulators !! name self = Some e ->
  Emulator___init__ load self emulators
  = let reload := negb (bool_decide (e_config e = Some (_config_emu_kwargs self))) in
    let self' := Emu (name self) (_config_emu_kwargs self) (Some reload) in
    if reload
    then match load self' with
         | inl err => (inl err, emulators)
         | inr m =>
             (inr self',
              <[name self := Entry (Some m) (Some (_config_emu_kwargs self))
                                   (e_bounds e)]> emulators)
         end
    else match e_model e with
         | Some _ => (inr self', emulators)
         | None =>
             match load self' with
             | inl err => (inl err, emulators)
             | inr m =>
                 (inr self',
                  <[name self := Entry (Some m) (e_config e) (e_bounds e)]> emulators)
             end
         end.
Proof.
  intros He. unfold Emulator___init__, _has_entry. rewrite He. cbn [negb].
  rewrite (has_model_Some _ _ e He). cbv zeta.
  destruct (decide (e_config e = Some (_config_emu_kwargs self))) as [Hc|Hc].
  - rewrite (bool_decide_eq_true_2 _ Hc). cbn [negb].
    destruct (e_model e) as [m0|] eqn:Hm; cbn [negb _reload].
    + rewrite (has_config_Some (Emu _ _ _) _ e He). by rewrite Hc.
    + rewrite (set_model_Some load (Emu _ _ _) _ e He).
      destruct (load _) as [err|m]; [done|]. cbn [name].
      erewrite (has_config_Some (Emu _ _ _)); [|apply lookup_insert_eq].
      cbn [e_config]. by rewrite Hc.
  - rewrite (bool_decide_eq_false_2 _ Hc). cbn [negb _reload].
    rewrite (set_model_Some load (Emu _ _ _) _ e He).
    destruct (load _) as [err|m]; [done|]. cbn [name].
    erewrite (set_config_Some (Emu _ _ _)); [|apply lookup_insert_eq].
    cbn [name e_model e_bounds _config_emu_kwargs]. by rewrite insert_insert_eq.
Qed.

(** The construction when the registry has no entry for the name. *)
Lemma Emulator_init_fresh (load : emulator -> error + model) (self : emulator)
    (emulators : gmap string entry) :
  emulators !! name self = None ->
  Emulator___init__ load self emulators
  = let self' := Emu (name self) (_config_emu_kwargs self) (Some true) in
    match load self' with
    | inl err => (inl err, <[name self := Entry None None BNone]> emulators)
    | inr m =>
        (inr self',
         <[name self := Entry (Some m) (Some (_config_emu_kwargs self)) BNone]> emulators)
    end.
Proof.
  intros He. unfold Emulator___init__, _has_entry. rewrite He. cbn [negb].
  unfold _set_entry.
  erewrite has_model_Some; [|apply lookup_insert_eq]. cbv zeta. cbn [e_config].
  rewrite bool_decide_eq_false_2 by done. cbn [negb _reload].
  erewrite (set_model_Some load (Emu _ _ _)); [|apply lookup_insert_eq].
  destruct (load _) as [err|m]; [done|]. cbn [name e_config e_bounds].
  erewrite (set_config_Some (Emu _ _ _)); [|apply lookup_insert_eq].
  cbn [name e_model e_bounds _config_emu_kwargs]. by rewrite !insert_insert_eq.
Qed.

(** X29.  [Emulator.__init__] loads a model once per name and
    configuration.  When it returns, the shared registry holds for this name
    a model and the configuration of the instance, and the entries of other
    names are untouched; a second construction with the same name and
    configuration returns with the registry unchanged whatever [_load] would
    do, so [_load] is not called; and a first construction whose [_load]
    raises, as the one of the base class does, leaves an entry without a
    model behind. *)
Theorem Emulator_init_caches (load : emulator -> error + model) (self self1 : emulator)
    (emulators emulators1 : gmap string entry) :
  Emulator___init__ load self emulators = (inr self1, emulators1) ->
  (exists m b, emulators1 !! name self
               = Some (Entry (Some m) (Some (_config_emu_kwargs self)) b))
  /\ (forall n, n <> name self -> emulators1 !! n = emulators !! n)
  /\ (forall (load' : emulator -> error + model) (r : option bool),
        Emulator___init__ load' (Emu (name self) (_config_emu_kwargs self) r) emulators1
        = (inr (Emu (name self) (_config_emu_kwargs self) (Some false)), emulators1))
  /\ (forall (load' : emulator -> error + model) (err : error) (other : string),
        emulators1 !! other = None ->
        (forall s, load' s = inl err) ->
        Emulator___init__ load' (Emu other (_config_emu_kwargs self) None) emulators1
        = (inl err, <[other := Entry None None BNone]> emulators1)).
Proof.
  intros Hinit.
  assert (Hentry : exists m b, emulators1 !! name self
                     = Some (Entry (Some m) (Some (_config_emu_kwargs self)) b)
                   /\ forall n, n <> name self -> emulators1 !! n = emulators !! n).
  { destruct (emulators !! name self) as [e|] eqn:He.
    - rewrite (Emulator_init_entry load self emulators e He) in Hinit.
      cbv zeta in Hinit.
      destruct (decide (e_config e = Some (_config_emu_kwargs self))) as [Hc|Hc].
      + rewrite (bool_decide_eq_true_2 _ Hc) in Hinit. cbn [negb] in Hinit.
        destruct (e_model e) as [m0|] eqn:Hm.
        * injection Hinit as _ <-. exists m0, (e_bounds e). split; [|done].
          rewrite He. f_equal. destruct e; simpl in *. by subst.
        * destruct (load _) as [err|m]; [discriminate|].
          injection Hinit as _ <-. exists m, (e_bounds e).
          split; [by rewrite lookup_insert_eq, Hc|].
          intros n Hn. by rewrite lookup_insert_ne.
      + rewrite (bool_decide_eq_false_2 _ Hc) in Hinit. cbn [negb] in Hinit.
        destruct (load _) as [err|m]; [discriminate|].
        injection Hinit as _ <-. exists m, (e_bounds e).
        split; [by rewrite lookup_insert_eq|].
        intros n Hn. by rewrite lookup_insert_ne.
    - rewrite (Emulator_init_fresh load self emulators He) in Hinit.
      cbv zeta in Hinit.
      destruct (load _) as [err|m]; [discriminate|].
      injection Hinit as _ <-. exists m, BNone.
      split; [by rewrite lookup_insert_eq|].
      intros n Hn. by rewrite lookup_insert_ne. }
  destruct Hentry as (m & b & He1 & Hother).
  split; [by exists m, b|]. split; [exact Hother|]. split.
  - intros load' r.
    rewrite (Emulator_init_entry load' (Emu (name self) (_config_emu_kwargs self) r)
               emulators1 _ He1).
    cbv zeta. cbn [e_config e_model _config_emu_kwargs name].
    by rewrite bool_decide_eq_true_2.
  - intros load' err other Hnone Hfail.
    rewrite (Emulator_init_fresh load' (Emu other (_config_emu_kwargs self) None)
               emulators1 Hnone).
    cbv zeta. by rewrite Hfail.
Qed.

(** X30.  Bounds stored under a key are what [_get_bounds] returns for
    that key, and [_has_bounds] then answers True without changing the
    registry.  A question about a key that is not there is not free of
    effects: when the entry holds a dictionary without the key,
    [_has_bounds(key)] answers False and stores [None] under the key, so that
    [_get_bounds(key)], which raised [KeyError] before, now returns [None];
    when the entry holds no bounds at all, it answers False and stores an
    empty dictionary, and [_get_bounds(key)] raises [KeyError] where it raised
    [TypeError] before. *)
Theorem bounds_round_trip (self : emulator) (k : string) (b : bounds)
    (emulators : gmap string entry) (e : entry) :
  emulators !! name self = Some e ->
  (forall w, e_bounds e <> BWhole w) ->
  let after_set := snd (_set_bounds self b (Some k) emulators) in
  let after_has := snd (_has_bounds self (Some k) emulators) in
  fst (_set_bounds self b (Some k) emulators) = inr tt
  /\ _get_bounds self (Some k) after_set = inr (VBounds b)
  /\ _has_bounds self (Some k) after_set = (inr true, after_set)
  /\ (_get_bounds self (Some k) emulators = inl KeyError ->
      fst (_has_bounds self (Some k) emulators) = inr false
      /\ _get_bounds self (Some k) after_has = inr VNoBounds
      /\ _has_bounds self (Some k) after_has = (inr false, after_has))
  /\ (_get_bounds self (Some k) emulators = inl TypeError ->
      fst (_has_bounds self (Some k) emulators) = inr false
      /\ _get_bounds self (Some k) after_has = inl KeyError).
Proof.
  intros He Hw. cbv zeta.
  assert (Hget : forall (em : gmap string entry) (d : gmap string (option bounds)),
                 em !! name self
                   = Some (Entry (e_model e) (e_config e) (BKeyed d)) ->
                 _get_bounds self (Some k) em
                 = match d !! k with
                   | Some (Some b0) => inr (VBounds b0)
                   | Some None => inr VNoBounds
                   | None => inl KeyError
                   end).
  { intros em d Hem. unfold _get_bounds. by rewrite (get_entry_Some _ _ _ Hem). }
  assert (Hhas : forall (em : gmap string entry) (d : gmap string (option bounds)),
                 em !! name self
                   = Some (Entry (e_model e) (e_config e) (BKeyed d)) ->
                 _has_bounds self (Some k) em
                 = match d !! k with
                   | Some b0 =>
                       (inr (match b0 with Some _ => true | None => false end), em)
                   | None =>
                       (inr false,
                        <[name self := Entry (e_model e) (e_config e)
                                             (BKeyed (<[k := None]> d))]> em)
                   end).
  { intros em d Hem. unfold _has_bounds. by rewrite (get_entry_Some _ _ _ Hem). }
  assert (Hem : emulators !! name self
                = Some (Entry (e_model e) (e_config e) (e_bounds e))).
  { rewrite He. f_equal. by destruct e. }
  destruct (e_bounds e) as [|w|d] eqn:Hb; [|by destruct (Hw w)|].
  - assert (Hset : _set_bounds self b (Some k) emulators
                   = (inr tt, <[name self := Entry (e_model e) (e_config e)
                                                   (BKeyed {[k := Some b]})]> emulators)).
    { unfold _set_bounds. rewrite (get_entry_Some _ _ e He). by rewrite Hb. }
    assert (Hhas0 : _has_bounds self (Some k) emulators
                    = (inr false, <[name self := Entry (e_model e) (e_config e)
                                                       (BKeyed ∅)]> emulators)).
    { unfold _has_bounds. rewrite (get_entry_Some _ _ e He). by rewrite Hb. }
    assert (Hget0 : _get_bounds self (Some k) emulators = inl TypeError).
    { unfold _get_bounds. rewrite (get_entry_Some _ _ e He). by rewrite Hb. }
    rewrite Hset, Hhas0, Hget0. cbn [fst snd].
    rewrite (Hget _ {[k := Some b]}) by apply lookup_insert_eq.
    rewrite (Hhas _ {[k := Some b]}) by apply lookup_insert_eq.
    rewrite lookup_singleton_eq. split; [done|]. split; [done|]. split; [done|].
    split; [done|]. intros _. split; [done|].
    rewrite (Hget _ ∅) by apply lookup_insert_eq.
    by rewrite lookup_empty.
  - assert (Hset : _set_bounds self b (Some k) emulators
                   = (inr tt, <[name self := Entry (e_model e) (e_config e)
                                                   (BKeyed (<[k := Some b]> d))]>
                                emulators)).
    { unfold _set_bounds. rewrite (get_entry_Some _ _ e He). by rewrite Hb. }
    rewrite Hset. cbn [fst snd].
    rewrite (Hget _ (<[k := Some b]> d)) by apply lookup_insert_eq.
    rewrite (Hhas _ (<[k := Some b]> d)) by apply lookup_insert_eq.
    rewrite lookup_insert_eq. split; [done|]. split; [done|]. split; [done|].
    rewrite (Hget _ d Hem), (Hhas _ d Hem).
    destruct (d !! k) as [[b0|]|] eqn:Hk.
    + by split.
    + by split.
    + split; [|done]. intros _. split; [done|]. cbn [snd].
      rewrite (Hget _ (<[k := None]> d)) by apply lookup_insert_eq.
      rewrite (Hhas _ (<[k := None]> d)) by apply lookup_insert_eq.
      rewrite lookup_insert_eq. done.
Qed.

End RegistryProps.

Lemma Emulator_init_caches_witness :
  let load := fun self : Emulators.emulator (list (string * Z)) =>
                inr ("model of " +:+ Emulators.name self) in
  let em1 := snd (Emulators.Emulator___init__ (bounds := Z) load
                    (Emulators.Emu "amemu" [] None) ∅) in
  Emulators.Emulator___init__ (fun _ => inl Emulators.NotImplementedError)
    (Emulators.Emu "amemu" [] None) em1
  = (inr (Emulators.Emu "amemu" [] (Some false)), em1).
Proof.
  intros load em1.
  assert (H : Emulators.Emulator___init__ (bounds := Z) load
                (Emulators.Emu "amemu" [] None) ∅
              = (inr (Emulators.Emu "amemu" [] (Some true)), em1))
    by (vm_compute; reflexivity).
  exact (proj1 (proj2 (proj2 (Emulator_init_caches load _ _ _ _ H)))
           (fun _ => inl Emulators.NotImplementedError) None).
Defined.

Lemma bounds_round_trip_witness :
  let em : gmap string (Emulators.entry string (list (string * Z)) Z) :=
    {[ "amemu" := Emulators.Entry (Some "model") (Some []) Emulators.BNone ]} in
  let self := Emulators.Emu "amemu" ([] : list (string * Z)) None in
  Emulators._get_bounds self (Some "k")
    (snd (Emulators._set_bounds self 7 (Some "k") em))
  = inr (Emulators.VBounds 7).
Proof.
  intros em self.
  refine (proj1 (proj2 (bounds_round_trip self "k" 7 em
                          (Emulators.Entry (Some "model") (Some []) Emulators.BNone)
                          _ _))).
  - vm_compute. reflexivity.
  - intros w H. discriminate H.
Defined.
